(** * Tensor-parallel GPT block ([benchmark/torch/model/gpt_tp.py])

    A shallow embedding of the model classes [AttentionCore], [FeedForward],
    [SelfAttention], [GPTLayer] and [GPT], and the properties of their
    construction and forward pass.

    Conventions of the embedding.
    - Scalars are real numbers: the floating-point arithmetic of the host
      framework is idealised as exact arithmetic over [R].
    - A tensor of rank n is a rectangular nested list of depth n; its shape
      is read off the first element at each level, so a tensor with an
      empty axis is outside the model.
    - A Python exception is an [Err] result; object mutation is explicit:
      [forward] returns the updated module next to its value.
    - One rank of the model-parallel group runs a [Proc] tree whose nodes
      are the collectives it issues; [run_group] runs the ranks of a group
      in lock step and [exec] runs one rank against fixed collective
      responses.
    - The global random generator is threaded as a [Generator] state. *)

From Stdlib Require Import List Arith Bool Lia Reals Lra FunctionalExtensionality.
Import ListNotations.

(** ** Exceptions *)

Inductive error : Type :=
| RuntimeError        (* shape mismatch raised by a tensor operation *)
| ZeroDivisionError   (* integer division by zero *)
| ValueError          (* dropout probability outside [0, 1] *)
| ConfigurationError  (* sharded dimension not divisible by world_size *)
| CommunicationError. (* ranks disagree at a collective *)

Inductive result (A : Type) : Type :=
| Ok (a : A)
| Err (e : error).
Arguments Ok {A} a.
Arguments Err {A} e.

Definition rbind {A B} (r : result A) (k : A -> result B) : result B :=
  match r with
  | Ok a => k a
  | Err e => Err e
  end.

(** ** Lists *)

Section ListOps.
Context {A B C : Type}.

Definition zip_with (f : A -> B -> C) (xs : list A) (ys : list B) : list C :=
  map (fun p => f (fst p) (snd p)) (combine xs ys).

(** The contiguous block number [r] of width [c]. *)
Definition chunk (c r : nat) (l : list A) : list A :=
  firstn c (skipn (r * c) l).

(** A list cut into [n] consecutive blocks of width [c]. *)
Definition chunks (c n : nat) (l : list A) : list (list A) :=
  map (fun h => chunk c h l) (seq 0 n).

(** Broadcasting of one axis: an axis of size 1 is repeated. *)
Definition expand (n : nat) (l : list A) : list A :=
  match l with
  | [a] => repeat a n
  | _ => l
  end.
End ListOps.

(** Size of a broadcast axis, when the two sizes are compatible. *)
Definition bdim (a b : nat) : option nat :=
  if a =? b then Some a
  else if a =? 1 then Some b
  else if b =? 1 then Some a
  else None.

(** Exchange of the two outer axes of a nested list. *)
Definition transpose {A} (d : A) (m : list (list A)) : list (list A) :=
  map (fun j => map (fun row => nth j row d) m) (seq 0 (length (hd [] m))).

(** ** Tensors *)

Abbreviation T1 := (list R).
Abbreviation T2 := (list (list R)).
Abbreviation T3 := (list (list (list R))).
Abbreviation T4 := (list (list (list (list R)))).
Abbreviation B4 := (list (list (list (list bool)))).

Definition size0 {A} (t : list A) : nat := length t.
Definition size1 {A} (t : list (list A)) : nat := length (hd [] t).
Definition size2 {A} (t : list (list (list A))) : nat := size1 (hd [] t).
Definition size3 {A} (t : list (list (list (list A)))) : nat := size2 (hd [] t).

Definition map3 {A B} (f : A -> B) : list (list (list A)) -> list (list (list B)) :=
  map (map (map f)).
Definition map4 {A B} (f : A -> B)
  : list (list (list (list A))) -> list (list (list (list B))) :=
  map (map3 f).

Definition sum (v : T1) : R := fold_right Rplus 0%R v.
Definition dot (a b : T1) : R := sum (zip_with Rmult a b).

(** [a @ b] on matrices. *)
Definition matmul2 (a b : T2) : T2 :=
  map (fun row => map (dot row) (transpose 0%R b)) a.

(** [torch.matmul] on rank-4 tensors: the two leading axes broadcast, the
    contracted axes must agree. *)
Definition matmul (a b : T4) : result T4 :=
  match bdim (size0 a) (size0 b), bdim (size1 a) (size1 b) with
  | Some n0, Some n1 =>
      if size3 a =? size2 b then
        Ok (zip_with (fun x y => zip_with matmul2 (expand n1 x) (expand n1 y))
              (expand n0 a) (expand n0 b))
      else Err RuntimeError
  | _, _ => Err RuntimeError
  end.

(** [t.transpose(-1, -2)] on a rank-4 tensor. *)
Definition transpose_last (t : T4) : T4 := map (map (transpose 0%R)) t.

(** [t.transpose(1, 2)] and [t.permute((0, 2, 1, 3))] on a rank-4 tensor. *)
Definition transpose_12 (t : T4) : T4 := map (transpose []) t.

(** [torch.tril(torch.ones((q_len, k_len))).view(1, 1, q_len, k_len).bool()] *)
Definition tril (q_len k_len : nat) : list (list bool) :=
  map (fun i => map (fun j => j <=? i) (seq 0 k_len)) (seq 0 q_len).
Definition tril_mask (q_len k_len : nat) : B4 := [[tril q_len k_len]].

(** [torch.where(c, x, y)] with a scalar [y]: all four axes broadcast. *)
Definition where_ (c : B4) (x : T4) (y : R) : result T4 :=
  match bdim (size0 c) (size0 x), bdim (size1 c) (size1 x),
        bdim (size2 c) (size2 x), bdim (size3 c) (size3 x) with
  | Some n0, Some n1, Some n2, Some n3 =>
      Ok (zip_with (fun c1 x1 =>
            zip_with (fun c2 x2 =>
              zip_with (fun c3 x3 =>
                zip_with (fun (cb : bool) xv => if cb then xv else y)
                  (expand n3 c3) (expand n3 x3))
                (expand n2 c2) (expand n2 x2))
              (expand n1 c1) (expand n1 x1))
            (expand n0 c) (expand n0 x))
  | _, _, _, _ => Err RuntimeError
  end.

(** [nn.Softmax(dim=-1)] *)
Definition softmax1 (v : T1) : T1 :=
  map (fun x => (exp x / sum (map exp v))%R) v.
Definition softmax (t : T4) : T4 := map3 softmax1 t.

(** [x.reshape(x.size()[:-2] + (-1,))] on a rank-4 tensor. *)
Definition merge_last (t : T4) : T3 := map (map (@concat R)) t.

(** [x.view(x.shape[:-1] + (n, c))] on a rank-3 tensor: the sizes have to
    match. *)
Definition view_split (n c : nat) (t : T3) : result T4 :=
  if size2 t =? n * c then Ok (map (map (chunks c n)) t)
  else Err RuntimeError.

(** [x + y] on rank-3 tensors, with broadcasting. *)
Definition add (x y : T3) : result T3 :=
  match bdim (size0 x) (size0 y), bdim (size1 x) (size1 y),
        bdim (size2 x) (size2 y) with
  | Some n0, Some n1, Some n2 =>
      Ok (zip_with (fun x1 y1 =>
            zip_with (fun x2 y2 =>
              zip_with Rplus (expand n2 x2) (expand n2 y2))
              (expand n1 x1) (expand n1 y1))
            (expand n0 x) (expand n0 y))
  | _, _, _ => Err RuntimeError
  end.

(** [x + b] for a rank-3 [x] and a rank-1 [b]. *)
Definition add_bias (x : T3) (b : T1) : result T3 :=
  match bdim (size2 x) (length b) with
  | Some n => Ok (map (map (fun row => zip_with Rplus (expand n row) (expand n b))) x)
  | None => Err RuntimeError
  end.

(** [F.linear(x, W, b)]: [x @ W^T + b] over the last axis, [W] of shape
    [out, in]. *)
Definition F_linear (x : T3) (W : T2) (b : option T1) : result T3 :=
  if size2 x =? size1 W then
    let y := map (map (fun row => map (dot row) W)) x in
    match b with
    | Some bias =>
        if length bias =? length W then
          Ok (map (map (fun row => zip_with Rplus row bias)) y)
        else Err RuntimeError
    | None => Ok y
    end
  else Err RuntimeError.

(** [nn.LayerNorm] over the last axis, with the biased variance. *)
Definition layer_norm1 (eps : R) (w b : T1) (v : T1) : T1 :=
  let n := INR (length v) in
  let mu := (sum v / n)%R in
  let var := (sum (map (fun x => (x - mu) * (x - mu)) v) / n)%R in
  zip_with Rplus
    (zip_with Rmult (map (fun x => ((x - mu) / sqrt (var + eps))%R) v) w) b.

(** ** The random generator and dropout *)

Record Generator : Type := mkGenerator {
  offset : nat;
  uniform : nat -> R          (* the stream of uniform samples of [0, 1) *)
}.

Definition draw (g : Generator) : R * Generator :=
  (uniform g (offset g), mkGenerator (S (offset g)) (uniform g)).

Fixpoint map_state {A B S} (f : A -> S -> B * S) (l : list A) (s : S)
  : list B * S :=
  match l with
  | [] => ([], s)
  | a :: l' =>
      let (b, s1) := f a s in
      let (bs, s2) := map_state f l' s1 in
      (b :: bs, s2)
  end.

(** One element under dropout with probability [p]: kept and rescaled when
    the sample falls below [1 - p]. *)
Definition drop_elem (p : R) (x : R) (g : Generator) : R * Generator :=
  let (u, g') := draw g in
  ((if Rlt_dec u (1 - p) then x / (1 - p) else 0)%R, g').

(** ** Processes of one rank *)

Inductive collective : Type := AllReduce | AllGather.

Inductive Proc (A : Type) : Type :=
| Ret (a : A)
| Raise (e : error)
| Coll (op : collective) (t : T3) (k : T3 -> Proc A).
Arguments Ret {A} a.
Arguments Raise {A} e.
Arguments Coll {A} op t k.

Fixpoint pbind {A B} (p : Proc A) (f : A -> Proc B) : Proc B :=
  match p with
  | Ret a => f a
  | Raise e => Raise e
  | Coll op t k => Coll op t (fun s => pbind (k s) f)
  end.

Definition M (A : Type) : Type := Generator -> Proc (A * Generator).

Definition ret {A} (a : A) : M A := fun g => Ret (a, g).
Definition bind {A B} (m : M A) (f : A -> M B) : M B :=
  fun g => pbind (m g) (fun ag => f (fst ag) (snd ag)).
Definition raise {A} (e : error) : M A := fun _ => Raise e.
Definition lift {A} (r : result A) : M A :=
  match r with
  | Ok a => ret a
  | Err e => raise e
  end.
Definition collect (op : collective) (t : T3) : M T3 :=
  fun g => Coll op t (fun s => Ret (s, g)).
Definition sample {A} (f : Generator -> A * Generator) : M A :=
  fun g => Ret (f g).

Declare Scope proc_scope.
Delimit Scope proc_scope with proc.
Notation "x <- m ;; k" := (bind m (fun x => k))
  (at level 61, m at next level, right associativity) : proc_scope.
Notation "' p <- m ;; k" := (bind m (fun x => let p := x in k))
  (at level 61, p pattern, m at next level, right associativity) : proc_scope.
Local Open Scope proc_scope.

(** [nn.Dropout] *)
Record Dropout : Type := mkDropout {
  p : R;
  training : bool
}.

Definition Dropout_init (prob : R) : result Dropout :=
  if Rlt_dec prob 0 then Err ValueError
  else if Rlt_dec 1 prob then Err ValueError
  else Ok (mkDropout prob true).

Definition F_dropout {T} (noise : T -> Generator -> T * Generator)
    (zeros : T -> T) (x : T) (prob : R) (train : bool) : M T :=
  if negb train then ret x
  else if Req_dec_T prob 0 then ret x
  else if Req_dec_T prob 1 then ret (zeros x)
  else sample (noise x).

Definition Dropout_forward3 (self : Dropout) (x : T3) : M T3 :=
  F_dropout (map_state (map_state (map_state (drop_elem (p self)))))
    (map3 (fun _ => 0%R)) x (p self) (training self).

Definition Dropout_forward4 (self : Dropout) (x : T4) : M T4 :=
  F_dropout (map_state (map_state (map_state (map_state (drop_elem (p self))))))
    (map4 (fun _ => 0%R)) x (p self) (training self).

(** [nn.LayerNorm] *)
Record LayerNorm : Type := mkLayerNorm {
  normalized_shape : nat;
  eps : R;
  ln_weight : T1;
  ln_bias : T1
}.

Definition LayerNorm_forward (self : LayerNorm) (x : T3) : result T3 :=
  if size2 x =? normalized_shape self then
    Ok (map (map (layer_norm1 (eps self) (ln_weight self) (ln_bias self))) x)
  else Err RuntimeError.

(** ** The model-parallel group and the sharded linear layers *)

Record World : Type := mkWorld {
  world_size : nat;
  rank : nat
}.

Record ColumnParallelLinear : Type := mkColumnParallelLinear {
  col_in_features : nat;
  col_out_features : nat;
  col_gather_output : bool;
  col_weight : T2;          (* the local rows: [out / world_size, in] *)
  col_bias : T1
}.

Record RowParallelLinear : Type := mkRowParallelLinear {
  row_in_features : nat;
  row_out_features : nat;
  row_input_is_parallel : bool;
  row_world : World;
  row_weight : T2;          (* the local columns: [out, in / world_size] *)
  row_bias : T1
}.

(** Modelled from the spec: the constructor of the column-sharded linear
    layer, a class of the fairscale library that is not part of the
    repository.  The layer owns the contiguous slice number [rank] of the
    output features of the logical weight; construction fails when the
    output dimension is not divisible by the world size. *)
Definition ColumnParallelLinear_init (w : World) (in_features out_features : nat)
    (gather_output : bool) (master_weight : T2) (master_bias : T1)
  : result ColumnParallelLinear :=
  if out_features mod world_size w =? 0 then
    let c := out_features / world_size w in
    Ok (mkColumnParallelLinear in_features out_features gather_output
          (chunk c (rank w) master_weight) (chunk c (rank w) master_bias))
  else Err ConfigurationError.

(** Modelled from the spec: the forward pass of the column-sharded linear
    layer: the local product, gathered over the group only when the layer
    was configured to gather its output. *)
Definition ColumnParallelLinear_forward (self : ColumnParallelLinear) (x : T3)
  : M T3 :=
  output_parallel <- lift (F_linear x (col_weight self) (Some (col_bias self))) ;;
  if col_gather_output self then collect AllGather output_parallel
  else ret output_parallel.

(** Modelled from the spec: the constructor of the row-sharded linear layer
    (fairscale).  The layer owns the contiguous slice number [rank] of the
    input features; construction fails when the input dimension is not
    divisible by the world size. *)
Definition RowParallelLinear_init (w : World) (in_features out_features : nat)
    (input_is_parallel : bool) (master_weight : T2) (master_bias : T1)
  : result RowParallelLinear :=
  if in_features mod world_size w =? 0 then
    let c := in_features / world_size w in
    Ok (mkRowParallelLinear in_features out_features input_is_parallel w
          (map (chunk c (rank w)) master_weight) master_bias)
  else Err ConfigurationError.

(** Modelled from the spec: the forward pass of the row-sharded linear
    layer: the partial product of the local slice, summed over the group by
    an all-reduce, the bias added once after the reduction. *)
Definition RowParallelLinear_forward (self : RowParallelLinear) (x : T3)
  : M T3 :=
  let w := row_world self in
  let input_parallel :=
    if row_input_is_parallel self then x
    else map (map (chunk (row_in_features self / world_size w) (rank w))) x in
  output_parallel <- lift (F_linear input_parallel (row_weight self) None) ;;
  output_ <- collect AllReduce output_parallel ;;
  lift (add_bias output_ (row_bias self)).

(** ** [class AttentionCore] *)

Record AttentionCore : Type := mkAttentionCore {
  attention_head_size : nat;
  attention_dropout : Dropout;
  causal_mask : option B4;
  where_const : R
}.

Definition AttentionCore_init (attention_head_size : nat) (attention_dropout : R)
  : result AttentionCore :=
  rbind (Dropout_init attention_dropout) (fun d =>
  Ok (mkAttentionCore attention_head_size d None (-10000)%R)).

(** [self.causal_mask = m] *)
Definition set_causal_mask (self : AttentionCore) (m : B4) : AttentionCore :=
  mkAttentionCore (attention_head_size self) (attention_dropout self) (Some m)
    (where_const self).

(** The mask that a call with these [q] and [k] applies: the cached one if
    there is one, a fresh lower triangle otherwise. *)
Definition mask_of (self : AttentionCore) (q k : T4) : B4 :=
  match causal_mask self with
  | None => tril_mask (size2 q) (size2 k)
  | Some m => m
  end.

(** Lines 26 to 37 of [AttentionCore.forward]: the attention weights, that
    is the scaled and masked scores after the softmax. *)
Definition attention_probs (self : AttentionCore) (q k : T4) : result T4 :=
  rbind (matmul q (transpose_last k)) (fun x =>
  let x := map4 (fun e => (e / sqrt (INR (attention_head_size self)))%R) x in
  rbind (where_ (mask_of self q k) x (where_const self)) (fun x =>
  Ok (softmax x))).

Definition AttentionCore_forward (self : AttentionCore) (q k v : T4)
  : M (T3 * AttentionCore) :=
  x <- lift (attention_probs self q k) ;;
  let self := set_causal_mask self (mask_of self q k) in
  x <- Dropout_forward4 (attention_dropout self) x ;;
  x <- lift (matmul x v) ;;
  let x := transpose_12 x in
  let x := merge_last x in
  ret (x, self).

(** ** [class FeedForward] *)

Record FeedForward : Type := mkFeedForward {
  hidden_size : nat;
  ffn_hidden_size : nat;
  dense_h_to_4h : ColumnParallelLinear;
  dense_4h_to_h : RowParallelLinear;
  activation_func : R -> R
}.

(** The initial values of the parameters of a block, as the logical
    (unsharded) weights; each constructor keeps its own slice. *)
Record FeedForwardParams : Type := mkFeedForwardParams {
  h_to_4h_weight : T2;
  h_to_4h_bias : T1;
  w_4h_to_h_weight : T2;
  w_4h_to_h_bias : T1
}.

Record SelfAttentionParams : Type := mkSelfAttentionParams {
  query_weight : T2;
  query_bias : T1;
  key_weight : T2;
  key_bias : T1;
  value_weight : T2;
  value_bias : T1;
  dense_weight : T2;
  dense_bias : T1
}.

Record BlockParams : Type := mkBlockParams {
  norm1_weight : T1;
  norm1_bias : T1;
  attn_params : SelfAttentionParams;
  norm2_weight : T1;
  norm2_bias : T1;
  mlp_params : FeedForwardParams
}.

(** A keyword argument with a default value. *)
Definition or_default {A} (d : A) (o : option A) : A :=
  match o with
  | Some a => a
  | None => d
  end.

(** [F.gelu]: [x * Phi(x)], with [Phi] the distribution function of the
    standard normal law. *)
Definition gauss (t : R) : R := exp (- (t * t) / 2).

Definition gauss_integrable (a b : R) : Riemann_integrable gauss a b.
Proof.
  assert (Hc : forall x, continuity_pt gauss x).
  { intros x. apply derivable_continuous_pt. unfold gauss. reg. }
  destruct (Rle_dec a b) as [H | H].
  - apply continuity_implies_RiemannInt; [exact H | intros x _; apply Hc].
  - apply RiemannInt_P1.
    apply continuity_implies_RiemannInt; [lra | intros x _; apply Hc].
Defined.

Definition Phi (x : R) : R :=
  (1 / 2 + / sqrt (2 * PI) * RiemannInt (gauss_integrable 0 x))%R.

Definition F_gelu (x : R) : R := (x * Phi x)%R.

Definition FeedForward_init (w : World) (hidden_size : nat) (ratio : option nat)
    (ps : FeedForwardParams) : result FeedForward :=
  let ratio := or_default 4 ratio in
  let ffn_hidden_size := hidden_size * ratio in
  rbind (ColumnParallelLinear_init w hidden_size ffn_hidden_size false
           (h_to_4h_weight ps) (h_to_4h_bias ps)) (fun h_to_4h =>
  rbind (RowParallelLinear_init w ffn_hidden_size hidden_size true
           (w_4h_to_h_weight ps) (w_4h_to_h_bias ps)) (fun w_4h_to_h =>
  Ok (mkFeedForward hidden_size ffn_hidden_size h_to_4h w_4h_to_h F_gelu))).

Definition FeedForward_forward (self : FeedForward) (hidden_states : T3) : M T3 :=
  intermediate_parallel <-
    ColumnParallelLinear_forward (dense_h_to_4h self) hidden_states ;;
  let intermediate_parallel :=
    map3 (activation_func self) intermediate_parallel in
  output <- RowParallelLinear_forward (dense_4h_to_h self) intermediate_parallel ;;
  ret output.

(** ** [class SelfAttention] *)

Record SelfAttention : Type := mkSelfAttention {
  sa_attention_head_size : nat;
  query : ColumnParallelLinear;
  key : ColumnParallelLinear;
  value : ColumnParallelLinear;
  dense : RowParallelLinear;
  dropout : Dropout;
  core_attention : AttentionCore
}.

Definition SelfAttention_init (w : World) (dim num_heads : nat)
    (attention_dropout dropout : R) (ps : SelfAttentionParams)
  : result SelfAttention :=
  if num_heads =? 0 then Err ZeroDivisionError else
  let attention_head_size := dim / num_heads in
  rbind (ColumnParallelLinear_init w dim dim false
           (query_weight ps) (query_bias ps)) (fun query =>
  rbind (ColumnParallelLinear_init w dim dim false
           (key_weight ps) (key_bias ps)) (fun key =>
  rbind (ColumnParallelLinear_init w dim dim false
           (value_weight ps) (value_bias ps)) (fun value =>
  rbind (RowParallelLinear_init w dim dim true
           (dense_weight ps) (dense_bias ps)) (fun dense =>
  rbind (Dropout_init dropout) (fun dropout =>
  rbind (AttentionCore_init attention_head_size attention_dropout) (fun core =>
  Ok (mkSelfAttention attention_head_size query key value dense dropout
        core))))))).

Definition set_core_attention (self : SelfAttention) (core : AttentionCore)
  : SelfAttention :=
  mkSelfAttention (sa_attention_head_size self) (query self) (key self)
    (value self) (dense self) (dropout self) core.

(** Lines 93 to 108 of [SelfAttention.forward]: the three projections, cut
    into heads and permuted, as they are handed to the attention core. *)
Definition SelfAttention_qkv (self : SelfAttention) (x : T3) : M (T4 * T4 * T4) :=
  q <- ColumnParallelLinear_forward (query self) x ;;
  k <- ColumnParallelLinear_forward (key self) x ;;
  v <- ColumnParallelLinear_forward (value self) x ;;
  let all_head_size := size2 q in
  if sa_attention_head_size self =? 0 then raise ZeroDivisionError else
  let num_attention_heads := all_head_size / sa_attention_head_size self in
  q <- lift (view_split num_attention_heads (sa_attention_head_size self) q) ;;
  k <- lift (view_split num_attention_heads (sa_attention_head_size self) k) ;;
  v <- lift (view_split num_attention_heads (sa_attention_head_size self) v) ;;
  let q := transpose_12 q in
  let k := transpose_12 k in
  let v := transpose_12 v in
  ret (q, k, v).

Definition SelfAttention_forward (self : SelfAttention) (x : T3)
  : M (T3 * SelfAttention) :=
  qkv <- SelfAttention_qkv self x ;;
  xc <- AttentionCore_forward (core_attention self)
          (fst (fst qkv)) (snd (fst qkv)) (snd qkv) ;;
  let self := set_core_attention self (snd xc) in
  x <- RowParallelLinear_forward (dense self) (fst xc) ;;
  x <- Dropout_forward3 (dropout self) x ;;
  ret (x, self).

(** ** [class GPTLayer] *)

Record GPTLayer : Type := mkGPTLayer {
  norm1 : LayerNorm;
  attn : SelfAttention;
  norm2 : LayerNorm;
  mlp : FeedForward
}.

Definition GPTLayer_init (w : World) (dim num_heads : nat) (mlp_ratio : option nat)
    (attention_dropout dropout : R) (ps : BlockParams) : result GPTLayer :=
  let mlp_ratio := or_default 4 mlp_ratio in
  let norm1 := mkLayerNorm dim (/ 1000000)%R (norm1_weight ps) (norm1_bias ps) in
  rbind (SelfAttention_init w dim num_heads attention_dropout dropout
           (attn_params ps)) (fun attn =>
  let norm2 := mkLayerNorm dim (/ 1000000)%R (norm2_weight ps) (norm2_bias ps) in
  rbind (FeedForward_init w dim (Some mlp_ratio) (mlp_params ps)) (fun mlp =>
  Ok (mkGPTLayer norm1 attn norm2 mlp))).

Definition set_attn (self : GPTLayer) (a : SelfAttention) : GPTLayer :=
  mkGPTLayer (norm1 self) a (norm2 self) (mlp self).

Definition GPTLayer_forward (self : GPTLayer) (x : T3) : M (T3 * GPTLayer) :=
  n1 <- lift (LayerNorm_forward (norm1 self) x) ;;
  a <- SelfAttention_forward (attn self) n1 ;;
  let self := set_attn self (snd a) in
  x <- lift (add x (fst a)) ;;
  n2 <- lift (LayerNorm_forward (norm2 self) x) ;;
  m <- FeedForward_forward (mlp self) n2 ;;
  x <- lift (add x m) ;;
  ret (x, self).

(** ** [class GPT] *)

Record GPT : Type := mkGPT {
  blocks : list GPTLayer
}.

Fixpoint init_blocks (w : World) (dim num_heads : nat) (mlp_ratio : option nat)
    (attention_dropout dropout : R) (ps : nat -> BlockParams) (idx : list nat)
  : result (list GPTLayer) :=
  match idx with
  | [] => Ok []
  | i :: idx' =>
      rbind (GPTLayer_init w dim num_heads mlp_ratio attention_dropout dropout
               (ps i)) (fun b =>
      rbind (init_blocks w dim num_heads mlp_ratio attention_dropout dropout
               ps idx') (fun bs =>
      Ok (b :: bs)))
  end.

Definition GPT_init (w : World) (depth dim num_heads : nat) (mlp_ratio : option nat)
    (attention_dropout dropout : R) (ps : nat -> BlockParams) : result GPT :=
  rbind (init_blocks w dim num_heads mlp_ratio attention_dropout dropout ps
           (seq 0 depth)) (fun bs =>
  Ok (mkGPT bs)).

Fixpoint forward_blocks (bs : list GPTLayer) (x : T3) : M (T3 * list GPTLayer) :=
  match bs with
  | [] => ret (x, [])
  | block :: bs' =>
      xb <- GPTLayer_forward block x ;;
      xr <- forward_blocks bs' (fst xb) ;;
      ret (fst xr, snd xb :: snd xr)
  end.

Definition GPT_forward (self : GPT) (x : T3) : M (T3 * GPT) :=
  xr <- forward_blocks (blocks self) x ;;
  ret (fst xr, mkGPT (snd xr)).

(** ** Running one rank against given collective responses *)

Fixpoint exec {A} (comm : collective -> T3 -> T3) (pr : Proc A) : result A :=
  match pr with
  | Ret a => Ok a
  | Raise e => Err e
  | Coll op t k => exec comm (k (comm op t))
  end.

(** A single process is a group of its own: every collective returns its
    argument. *)
Definition alone : collective -> T3 -> T3 := fun _ t => t.

(** ** Running the ranks of a group in lock step *)

Definition same_shape (a b : T3) : bool :=
  (size0 a =? size0 b) && (size1 a =? size1 b) && (size2 a =? size2 b).

Definition add_same (a b : T3) : result T3 :=
  if same_shape a b then Ok (zip_with (zip_with (zip_with Rplus)) a b)
  else Err CommunicationError.

Definition cat_same (a b : T3) : result T3 :=
  if (size0 a =? size0 b) && (size1 a =? size1 b) then
    Ok (zip_with (zip_with (@app R)) a b)
  else Err CommunicationError.

Fixpoint reduce_with (f : T3 -> T3 -> result T3) (acc : T3) (ts : list T3)
  : result T3 :=
  match ts with
  | [] => Ok acc
  | t :: ts' => rbind (f acc t) (fun acc' => reduce_with f acc' ts')
  end.

(** What a collective returns on every rank, from the contributions in rank
    order. *)
Definition combine_coll (op : collective) (t : T3) (ts : list T3) : result T3 :=
  match op with
  | AllReduce => reduce_with add_same t ts
  | AllGather => reduce_with cat_same t ts
  end.

Definition collective_eqb (a b : collective) : bool :=
  match a, b with
  | AllReduce, AllReduce => true
  | AllGather, AllGather => true
  | _, _ => false
  end.

Fixpoint all_ret {A} (ps : list (Proc A)) : result (list A) :=
  match ps with
  | [] => Ok []
  | Ret a :: ps' => rbind (all_ret ps') (fun l => Ok (a :: l))
  | Raise e :: _ => Err e
  | Coll _ _ _ :: _ => Err CommunicationError
  end.

Fixpoint all_coll {A} (op : collective) (ps : list (Proc A))
  : result (list (T3 * (T3 -> Proc A))) :=
  match ps with
  | [] => Ok []
  | Coll op' t k :: ps' =>
      if collective_eqb op op' then
        rbind (all_coll op ps') (fun l => Ok ((t, k) :: l))
      else Err CommunicationError
  | Raise e :: _ => Err e
  | Ret _ :: _ => Err CommunicationError
  end.

Fixpoint run_group {A} (p0 : Proc A) (others : list (Proc A)) : result (list A) :=
  match p0 with
  | Ret a => rbind (all_ret others) (fun l => Ok (a :: l))
  | Raise e => Err e
  | Coll op t k =>
      rbind (all_coll op others) (fun tks =>
      rbind (combine_coll op t (map fst tks)) (fun s =>
      run_group (k s) (map (fun tk => snd tk s) tks)))
  end.

Definition run_ranks {A} (ps : list (Proc A)) : result (list A) :=
  match ps with
  | [] => Ok []
  | p0 :: others => run_group p0 others
  end.

(** Empty initial parameters and parameters of a given constant. *)
Definition const_matrix (rows cols : nat) (c : R) : T2 := repeat (repeat c cols) rows.

Definition const_params (dim ffn : nat) (c : R) : BlockParams :=
  mkBlockParams (repeat 1%R dim) (repeat 0%R dim)
    (mkSelfAttentionParams
       (const_matrix dim dim c) (repeat 0%R dim)
       (const_matrix dim dim c) (repeat 0%R dim)
       (const_matrix dim dim c) (repeat 0%R dim)
       (const_matrix dim dim c) (repeat 0%R dim))
    (repeat 1%R dim) (repeat 0%R dim)
    (mkFeedForwardParams
       (const_matrix ffn dim c) (repeat 0%R ffn)
       (const_matrix dim ffn c) (repeat 0%R dim)).

(** Concrete inputs: one head of size 1, sequence lengths 1 and 2. *)
Definition core_1 : AttentionCore :=
  mkAttentionCore 1 (mkDropout 0 true) None (-10000)%R.
Definition seq1_q : T4 := [[[[0%R]]]].
Definition seq2_q : T4 := [[[[0%R]; [0%R]]]].
Definition seq2_v : T4 := [[[[0%R]; [1%R]]]].
Definition gen0 : Generator := mkGenerator 0 (fun _ => 0%R).

(** The context the length-1 call returns. *)
Definition seq1_out : T3 :=
  [[[ (exp ((0 * 0 + 0) / sqrt 1) / (exp ((0 * 0 + 0) / sqrt 1) + 0) * 0 + 0)%R ]]].

(** ** Shapes and indexed access *)

(** The list of the values of [f] at [0 .. n-1]. *)
Definition tab {A} (n : nat) (f : nat -> A) : list A := map f (seq 0 n).

Definition tab2 {A} (a b : nat) (F : nat -> nat -> A) : list (list A) :=
  tab a (fun i => tab b (F i)).
Definition tab3 {A} (a b c : nat) (F : nat -> nat -> nat -> A)
  : list (list (list A)) :=
  tab a (fun i => tab2 b c (F i)).
Definition tab4 {A} (a b c d : nat) (F : nat -> nat -> nat -> nat -> A)
  : list (list (list (list A))) :=
  tab a (fun i => tab3 b c d (F i)).

Definition at1 (t : T1) (i : nat) : R := nth i t 0%R.
Definition at2 (t : T2) (i j : nat) : R := at1 (nth i t []) j.
Definition at3 (t : T3) (i j k : nat) : R := at2 (nth i t []) j k.
Definition at4 (t : T4) (i j k l : nat) : R := at3 (nth i t []) j k l.

Definition has_shape1 {A} (d : nat) (t : list A) : bool := length t =? d.
Definition has_shape2 {A} (c d : nat) (t : list (list A)) : bool :=
  (length t =? c) && forallb (has_shape1 d) t.
Definition has_shape3 {A} (b c d : nat) (t : list (list (list A))) : bool :=
  (length t =? b) && forallb (has_shape2 c d) t.
Definition has_shape4 {A} (a b c d : nat) (t : list (list (list (list A)))) : bool :=
  (length t =? a) && forallb (has_shape3 b c d) t.

(** ** The computation entry by entry

    Tensors as functions of their indices: the entries of the result of
    each step of the forward pass in terms of the entries of its
    arguments. *)

(** [x @ W^T + b] over a last axis of size [d]. *)
Definition linear_fn (d : nat) (X : nat -> nat -> nat -> R)
    (W : nat -> nat -> R) (B : nat -> R) (i j o : nat) : R :=
  (dot (tab d (X i j)) (tab d (W o)) + B o)%R.

(** Feature [h * hs + e] seen as entry [e] of head [h]. *)
Definition head_fn (hs : nat) (Y : nat -> nat -> nat -> R) (i h j e : nat) : R :=
  Y i j (h * hs + e).

(** The scaled score of query position [j] against key position [l] in
    head [h] of batch element [i], after masking: the fill value [c] in
    place of the score when [l] is beyond [j]. *)
Definition score_fn (hs : nat) (c : R) (Q K : nat -> nat -> nat -> nat -> R)
    (i h j l : nat) : R :=
  if l <=? j then
    (dot (tab hs (Q i h j)) (tab hs (K i h l)) / sqrt (INR hs))%R
  else c.

(** Its softmax over the [k_len] key positions. *)
Definition weight_fn (hs : nat) (c : R) (k_len : nat)
    (Q K : nat -> nat -> nat -> nat -> R) (i h j l : nat) : R :=
  (exp (score_fn hs c Q K i h j l)
   / sum (tab k_len (fun l' => exp (score_fn hs c Q K i h j l'))))%R.

(** The context: the weights of a head times its values, at the merged
    feature [f]. *)
Definition context_fn (hs : nat) (c : R) (k_len : nat)
    (Q K V : nat -> nat -> nat -> nat -> R) (i j f : nat) : R :=
  sum (tab k_len (fun l =>
         (weight_fn hs c k_len Q K i (f / hs)%nat j l
          * V i (f / hs)%nat l (f mod hs)%nat)%R)).

Definition masked_score (hs : nat) (c : R) (q k : T4) (b h i j : nat) : R :=
  score_fn hs c (at4 q) (at4 k) b h i j.

Definition attention_weight (hs : nat) (c : R) (q k : T4) (k_len : nat)
    (b h i j : nat) : R :=
  weight_fn hs c k_len (at4 q) (at4 k) b h i j.

(** Inputs whose only unmasked score of the first query position lies far
    below the fill value. *)
Definition low_q : T4 := [[[[100%R]; [0%R]]]].
Definition low_k : T4 := [[[[(-200)%R]; [0%R]]]].

(** ** The dense computation, entry by entry *)

(** The entries of a dense projection [x @ W^T + b]. *)
Definition projection (dim : nat) (x : T3) (W : T2) (B : T1) (i j o : nat) : R :=
  linear_fn dim (at3 x) (at2 W) (at1 B) i j o.

(** The entries of dense causal self-attention with heads of size [hs] on a
    sequence of length [s], from the logical weights. *)
Definition attention_out (dim hs s : nat) (x : T3) (ps : SelfAttentionParams)
    (i j o : nat) : R :=
  (sum (tab dim (fun f =>
          context_fn hs (-10000) s
            (head_fn hs (projection dim x (query_weight ps) (query_bias ps)))
            (head_fn hs (projection dim x (key_weight ps) (key_bias ps)))
            (head_fn hs (projection dim x (value_weight ps) (value_bias ps)))
            i j f
          * at2 (dense_weight ps) o f))
   + at1 (dense_bias ps) o)%R.

(** The entries of the dense feed-forward sublayer with activation [act]. *)
Definition mlp_out (act : R -> R) (dim ffn : nat) (x : T3) (ps : FeedForwardParams)
    (i j o : nat) : R :=
  (sum (tab ffn (fun f =>
          act (projection dim x (h_to_4h_weight ps) (h_to_4h_bias ps) i j f)
          * at2 (w_4h_to_h_weight ps) o f))
   + at1 (w_4h_to_h_bias ps) o)%R.

Definition attn_params_shaped (dim : nat) (ps : SelfAttentionParams) : bool :=
  has_shape2 dim dim (query_weight ps) && has_shape1 dim (query_bias ps) &&
  has_shape2 dim dim (key_weight ps) && has_shape1 dim (key_bias ps) &&
  has_shape2 dim dim (value_weight ps) && has_shape1 dim (value_bias ps) &&
  has_shape2 dim dim (dense_weight ps) && has_shape1 dim (dense_bias ps).

Definition mlp_params_shaped (dim ffn : nat) (ps : FeedForwardParams) : bool :=
  has_shape2 ffn dim (h_to_4h_weight ps) && has_shape1 ffn (h_to_4h_bias ps) &&
  has_shape2 dim ffn (w_4h_to_h_weight ps) && has_shape1 dim (w_4h_to_h_bias ps).

(** [FeedForward] applied to the output of [SelfAttention]. *)
Definition attn_then_mlp (sa : SelfAttention) (ff : FeedForward) (x : T3)
  : M (T3 * SelfAttention) :=
  a <- SelfAttention_forward sa x ;;
  y <- FeedForward_forward ff (fst a) ;;
  ret (y, snd a).

(** What output dropout returns: [Dropout_forward3] never raises and issues
    no collective. *)
Definition run_dropout3 (self : Dropout) (x : T3) (g : Generator) : T3 * Generator :=
  match Dropout_forward3 self x g with
  | Ret a => a
  | _ => (x, g)
  end.

(** Concrete configurations: constant weights 1, one batch element, one
    position. *)
Definition ones_attn (dim : nat) : SelfAttentionParams :=
  attn_params (const_params dim dim 1%R).
Definition ones_mlp (dim ffn : nat) : FeedForwardParams :=
  mlp_params (const_params dim ffn 1%R).
Definition x_dim2 : T3 := [[[1%R; 0%R]]].
Definition x_dim6 : T3 := [[[1%R; 1%R; 1%R; 1%R; 1%R; 1%R]]].

(** A configuration with attention dropout: the output projection reads the
    second head only, and the generator keeps its first sample and drops
    its second. *)
Definition second_head_attn : SelfAttentionParams :=
  mkSelfAttentionParams
    [[1%R; 1%R]; [1%R; 1%R]] [0%R; 0%R]
    [[1%R; 1%R]; [1%R; 1%R]] [0%R; 0%R]
    [[1%R; 1%R]; [1%R; 1%R]] [0%R; 0%R]
    [[0%R; 1%R]; [0%R; 1%R]] [0%R; 0%R].
Definition gen_keep_drop : Generator :=
  mkGenerator 0 (fun n => if n =? 0 then 0%R else (3 / 4)%R).

(** ** Independence of the generator *)




(** A constructed single-process stack of one block, [dim = 2], two heads,
    no dropout. *)
Definition stack_1 : GPT :=
  match GPT_init (mkWorld 1 0) 1 2 2 (Some 1) 0 0 (fun _ => const_params 2 2 1%R) with
  | Ok model => model
  | Err _ => mkGPT []
  end.

(** ** The dense block and stack, entry by entry *)

(** The entries of [nn.LayerNorm] over a last axis of size [dim]. *)
Definition norm_out (dim : nat) (eps : R) (w b : T1) (x : T3) (i j l : nat) : R :=
  let mu := (sum (tab dim (at3 x i j)) / INR dim)%R in
  let var :=
    (sum (tab dim (fun l' => ((at3 x i j l' - mu) * (at3 x i j l' - mu))%R))
     / INR dim)%R in
  ((at3 x i j l - mu) / sqrt (var + eps) * at1 w l + at1 b l)%R.

Definition block_params_shaped (dim ffn : nat) (ps : BlockParams) : bool :=
  has_shape1 dim (norm1_weight ps) && has_shape1 dim (norm1_bias ps) &&
  has_shape1 dim (norm2_weight ps) && has_shape1 dim (norm2_bias ps) &&
  attn_params_shaped dim (attn_params ps) &&
  mlp_params_shaped dim ffn (mlp_params ps).

(** The dense pre-norm block on an input of shape [[b, s, dim]], with heads
    of size [hs], output dropout probability [d] and no attention
    dropout. *)
Definition block_out (b s dim hs ratio : nat) (d : R) (ps : BlockParams)
    (x : T3) (g : Generator) : T3 * Generator :=
  let n1 := tab3 b s dim
              (norm_out dim (/ 1000000) (norm1_weight ps) (norm1_bias ps) x) in
  let ag := run_dropout3 (mkDropout d true)
              (tab3 b s dim (attention_out dim hs s n1 (attn_params ps))) g in
  let x1 := tab3 b s dim (fun i j o => (at3 x i j o + at3 (fst ag) i j o)%R) in
  let n2 := tab3 b s dim
              (norm_out dim (/ 1000000) (norm2_weight ps) (norm2_bias ps) x1) in
  (tab3 b s dim (fun i j o =>
     (at3 x1 i j o + mlp_out F_gelu dim (dim * ratio) n2 (mlp_params ps) i j o)%R),
   snd ag).

(** The dense stack of the blocks with parameters [ps i], [i] in [idx]. *)
Fixpoint stack_out (b s dim hs ratio : nat) (d : R) (ps : nat -> BlockParams)
    (idx : list nat) (x : T3) (g : Generator) : T3 * Generator :=
  match idx with
  | [] => (x, g)
  | i :: idx' =>
      let xg := block_out b s dim hs ratio d (ps i) x g in
      stack_out b s dim hs ratio d ps idx' (fst xg) (snd xg)
  end.

(** The block a forward call leaves behind: its attention core holds the
    mask of sequence length [s]. *)
Definition with_mask (s : nat) (block : GPTLayer) : GPTLayer :=
  set_attn block
    (set_core_attention (attn block)
       (set_causal_mask (core_attention (attn block)) (tril_mask s s))).

(** ** Further inputs and notions *)

(** An input of width 1, and an input of shape [[1, 3, 2]]. *)
Definition x_dim1 : T3 := [[[1%R]]].
Definition x_seq3 : T3 := [[[1%R; 0%R]; [0%R; 1%R]; [1%R; 1%R]]].

(** Two batches that share their first element only. *)
Definition x_batch2 : T3 := [[[1%R; 0%R]]; [[2%R; 3%R]]].
Definition x_batch2' : T3 := [[[1%R; 0%R]]; [[7%R; 1%R]]].

(** An attention core that has served a call at sequence length 2, and
    inputs of sequence length 3. *)
Definition core_seq2 : AttentionCore :=
  mkAttentionCore 1 (mkDropout 0 true) (Some (tril_mask 2 2)) (-10000)%R.
Definition seq3_q : T4 := [[[[0%R]; [0%R]; [0%R]]]].

(** Queries at two positions against keys and values at three, and keys
    of another head size. *)
Definition rect_q : T4 := [[[[1%R]; [2%R]]]].
Definition rect_k : T4 := [[[[0%R]; [1%R]; [0%R]]]].
Definition rect_v : T4 := [[[[3%R]; [4%R]; [5%R]]]].
Definition wide_k : T4 := [[[[0%R; 0%R]; [1%R; 0%R]; [0%R; 0%R]]]].

(** [x + c] for [x] of shape [[b, s, dim]] and [c] of shape [[b, s, 1]]:
    one constant added along the last axis at every position. *)
Definition shift_rows (c : nat -> nat -> R) (b s dim : nat) (x : T3) : T3 :=
  tab3 b s dim (fun i j o => (at3 x i j o + c i j)%R).

(** The collectives that a rank issues, in order, when the group answers
    them with [comm]. *)
Fixpoint collectives {A} (comm : collective -> T3 -> T3) (pr : Proc A)
  : list collective :=
  match pr with
  | Ret _ => []
  | Raise _ => []
  | Coll op t k => op :: collectives comm (k (comm op t))
  end.

(** ** The output record of the UNet ([examples/torch/stable_diffusion.py])

    [UNet2DConditionOutput], a class of the diffusers library with the one
    field [sample], and the two functions that the script registers for it
    as a pytree node: [lambda x: ([x.sample], None)] and
    [lambda values, _: UNet2DConditionOutput(values[0])]; [values[0]] on an
    empty list raises [IndexError], here [None]. *)
Module UNet2DConditionOutput.

Record t : Type := mk {
  sample : T4
}.

Definition flatten (x : t) : list T4 * option unit :=
  ([sample x], None).

Definition unflatten {C} (values : list T4) (_ : C) : option t :=
  match values with
  | v :: _ => Some (mk v)
  | [] => None
  end.

End UNet2DConditionOutput.

(** ** Dropout entry by entry *)

(** The generator after [k] further samples. *)
Definition skip (g : Generator) (k : nat) : Generator :=
  mkGenerator (offset g + k) (uniform g).

(** The entry [x] under dropout, when it is the entry number [idx] in
    row-major order of a tensor that the module [self] receives in the
    generator state [g]. *)
Definition dropout_entry (self : Dropout) (g : Generator) (idx : nat) (x : R) : R :=
  if negb (training self) then x
  else if Req_dec_T (p self) 0 then x
  else if Req_dec_T (p self) 1 then 0%R
  else if Rlt_dec (uniform g (offset g + idx)) (1 - p self)
       then (x / (1 - p self))%R else 0%R.

(** The generator state after dropout of [count] entries: a sample per
    entry when the module samples at all. *)
Definition dropout_state (self : Dropout) (g : Generator) (count : nat) : Generator :=
  if negb (training self) then g
  else if Req_dec_T (p self) 0 then g
  else if Req_dec_T (p self) 1 then g
  else skip g count.

(** ** The cached mask against other lengths *)

(** Entry [(j, l)] of the lower triangle of [n0] by [m0] positions as it
    broadcasts: an axis of size 1 is repeated. *)
Definition mask_bit (n0 m0 j l : nat) : bool :=
  (if m0 =? 1 then 0 else l) <=? (if n0 =? 1 then 0 else j).

(** The attention weight of query position [j] for key position [l] under
    the mask of [n0] by [m0] positions: the softmax over the [k_len] key
    positions of the scaled scores, the fill value [c] where the mask is
    false. *)
Definition cached_weight (hs : nat) (c : R) (n0 m0 : nat) (q k : T4)
    (k_len : nat) (i h j l : nat) : R :=
  (exp (if mask_bit n0 m0 j l
        then dot (tab hs (at4 q i h j)) (tab hs (at4 k i h l)) / sqrt (INR hs)
        else c)
   / sum (tab k_len (fun l' =>
       exp (if mask_bit n0 m0 j l'
            then dot (tab hs (at4 q i h j)) (tab hs (at4 k i h l')) / sqrt (INR hs)
            else c))))%R.

(** An attention core that has served a call at sequence length 1. *)
Definition core_seq1 : AttentionCore := set_causal_mask core_1 (tril_mask 1 1).

(** * Properties *)

(** ** The monad and dropout *)

Lemma exec_pbind {A B} comm (m : Proc A) (f : A -> Proc B) :
  exec comm (pbind m f) = rbind (exec comm m) (fun a => exec comm (f a)).
Proof.
  induction m as [a | e | op t k IH]; simpl; auto.
Qed.

Lemma exec_bind {A B} comm (m : M A) (f : A -> M B) g :
  exec comm (bind m f g)
  = rbind (exec comm (m g)) (fun ag => exec comm (f (fst ag) (snd ag))).
Proof.
  unfold bind. apply exec_pbind.
Qed.

Lemma Dropout_init_ok prob :
  (0 <= prob <= 1)%R -> Dropout_init prob = Ok (mkDropout prob true).
Proof.
  intros [H0 H1]. unfold Dropout_init.
  destruct (Rlt_dec prob 0) as [Hlt | _]; [lra |].
  destruct (Rlt_dec 1 prob) as [Hlt | _]; [lra | reflexivity].
Qed.

Lemma F_dropout_zero {T} noise zeros (x : T) train :
  F_dropout noise zeros x 0%R train = ret x.
Proof.
  unfold F_dropout. destruct (negb train); [reflexivity |].
  destruct (Req_dec_T 0 0) as [_ | Hne]; [reflexivity | congruence].
Qed.

Lemma Dropout_forward3_zero d x : p d = 0%R -> Dropout_forward3 d x = ret x.
Proof.
  intros Hp. unfold Dropout_forward3. rewrite Hp. apply F_dropout_zero.
Qed.

Lemma Dropout_forward4_zero d x : p d = 0%R -> Dropout_forward4 d x = ret x.
Proof.
  intros Hp. unfold Dropout_forward4. rewrite Hp. apply F_dropout_zero.
Qed.

(** ** Construction *)

Lemma ColumnParallelLinear_init_ok w i o gth W b :
  o mod world_size w = 0 ->
  ColumnParallelLinear_init w i o gth W b
  = Ok (mkColumnParallelLinear i o gth
          (chunk (o / world_size w) (rank w) W)
          (chunk (o / world_size w) (rank w) b)).
Proof.
  intros H. unfold ColumnParallelLinear_init. rewrite H. reflexivity.
Qed.

Lemma ColumnParallelLinear_init_err w i o gth W b :
  o mod world_size w <> 0 ->
  ColumnParallelLinear_init w i o gth W b = Err ConfigurationError.
Proof.
  intros H. unfold ColumnParallelLinear_init.
  destruct (Nat.eqb_spec (o mod world_size w) 0); [contradiction | reflexivity].
Qed.

Lemma RowParallelLinear_init_ok w i o par W b :
  i mod world_size w = 0 ->
  RowParallelLinear_init w i o par W b
  = Ok (mkRowParallelLinear i o par w
          (map (chunk (i / world_size w) (rank w)) W) b).
Proof.
  intros H. unfold RowParallelLinear_init. rewrite H. reflexivity.
Qed.

Lemma SelfAttention_init_err w dim nh ad d ps :
  nh <> 0 -> dim mod world_size w <> 0 ->
  SelfAttention_init w dim nh ad d ps = Err ConfigurationError.
Proof.
  intros Hnh Hd. unfold SelfAttention_init.
  destruct (Nat.eqb_spec nh 0); [contradiction |].
  rewrite ColumnParallelLinear_init_err by assumption. reflexivity.
Qed.

Lemma SelfAttention_init_ok w dim nh ad d ps :
  nh <> 0 -> dim mod world_size w = 0 ->
  (0 <= ad <= 1)%R -> (0 <= d <= 1)%R ->
  SelfAttention_init w dim nh ad d ps
  = Ok (mkSelfAttention (dim / nh)
          (mkColumnParallelLinear dim dim false
             (chunk (dim / world_size w) (rank w) (query_weight ps))
             (chunk (dim / world_size w) (rank w) (query_bias ps)))
          (mkColumnParallelLinear dim dim false
             (chunk (dim / world_size w) (rank w) (key_weight ps))
             (chunk (dim / world_size w) (rank w) (key_bias ps)))
          (mkColumnParallelLinear dim dim false
             (chunk (dim / world_size w) (rank w) (value_weight ps))
             (chunk (dim / world_size w) (rank w) (value_bias ps)))
          (mkRowParallelLinear dim dim true w
             (map (chunk (dim / world_size w) (rank w)) (dense_weight ps))
             (dense_bias ps))
          (mkDropout d true)
          (mkAttentionCore (dim / nh) (mkDropout ad true) None (-10000)%R)).
Proof.
  intros Hnh Hd Had Hdr. unfold SelfAttention_init, AttentionCore_init.
  destruct (Nat.eqb_spec nh 0); [contradiction |].
  rewrite !ColumnParallelLinear_init_ok, RowParallelLinear_init_ok by assumption.
  rewrite !Dropout_init_ok by assumption. reflexivity.
Qed.

Lemma FeedForward_init_err w hidden r ps :
  (hidden * r) mod world_size w <> 0 ->
  FeedForward_init w hidden (Some r) ps = Err ConfigurationError.
Proof.
  intros H. unfold FeedForward_init.
  rewrite ColumnParallelLinear_init_err by assumption. reflexivity.
Qed.

Lemma FeedForward_init_ok w hidden r ps :
  (hidden * r) mod world_size w = 0 ->
  FeedForward_init w hidden (Some r) ps
  = Ok (mkFeedForward hidden (hidden * r)
          (mkColumnParallelLinear hidden (hidden * r) false
             (chunk (hidden * r / world_size w) (rank w) (h_to_4h_weight ps))
             (chunk (hidden * r / world_size w) (rank w) (h_to_4h_bias ps)))
          (mkRowParallelLinear (hidden * r) hidden true w
             (map (chunk (hidden * r / world_size w) (rank w)) (w_4h_to_h_weight ps))
             (w_4h_to_h_bias ps))
          F_gelu).
Proof.
  intros H. unfold FeedForward_init.
  rewrite ColumnParallelLinear_init_ok, RowParallelLinear_init_ok by assumption.
  reflexivity.
Qed.

Lemma mod_mul_zero a r n : a mod n = 0 -> (a * r) mod n = 0.
Proof.
  intros H. destruct n as [| n].
  - simpl in *. subst a. reflexivity.
  - apply Nat.Div0.mod_divides in H as [c Hc]. subst a.
    apply Nat.Div0.mod_divides. exists (c * r). lia.
Qed.

Lemma GPTLayer_init_err w dim nh ratio ad d ps :
  nh <> 0 -> dim mod world_size w <> 0 ->
  GPTLayer_init w dim nh ratio ad d ps = Err ConfigurationError.
Proof.
  intros Hnh Hd. unfold GPTLayer_init.
  rewrite SelfAttention_init_err by assumption. reflexivity.
Qed.

Lemma GPTLayer_init_ok w dim nh ratio ad d ps :
  nh <> 0 -> dim mod world_size w = 0 ->
  (0 <= ad <= 1)%R -> (0 <= d <= 1)%R ->
  exists a m,
    SelfAttention_init w dim nh ad d (attn_params ps) = Ok a /\
    FeedForward_init w dim (Some (or_default 4 ratio)) (mlp_params ps) = Ok m /\
    GPTLayer_init w dim nh ratio ad d ps
    = Ok (mkGPTLayer
            (mkLayerNorm dim (/ 1000000)%R (norm1_weight ps) (norm1_bias ps)) a
            (mkLayerNorm dim (/ 1000000)%R (norm2_weight ps) (norm2_bias ps)) m).
Proof.
  intros Hnh Hd Had Hdr. unfold GPTLayer_init.
  rewrite (SelfAttention_init_ok w dim nh ad d (attn_params ps) Hnh Hd Had Hdr).
  rewrite FeedForward_init_ok by (apply mod_mul_zero; assumption).
  simpl. eauto.
Qed.

Lemma init_blocks_err w dim nh ratio ad d ps idx :
  nh <> 0 -> dim mod world_size w <> 0 -> idx <> [] ->
  init_blocks w dim nh ratio ad d ps idx = Err ConfigurationError.
Proof.
  intros Hnh Hd Hidx. destruct idx as [| i idx]; [contradiction |].
  simpl. rewrite GPTLayer_init_err by assumption. reflexivity.
Qed.

Lemma init_blocks_ok w dim nh ratio ad d ps idx :
  nh <> 0 -> dim mod world_size w = 0 ->
  (0 <= ad <= 1)%R -> (0 <= d <= 1)%R ->
  exists bs,
    init_blocks w dim nh ratio ad d ps idx = Ok bs /\
    length bs = length idx /\
    Forall (fun b => sa_attention_head_size (attn b) = dim / nh) bs.
Proof.
  intros Hnh Hd Had Hdr. induction idx as [| i idx IH].
  - exists []. simpl. auto.
  - destruct IH as (bs & Hbs & Hlen & Hall).
    destruct (GPTLayer_init_ok w dim nh ratio ad d (ps i) Hnh Hd Had Hdr)
      as (a & m & Ha & Hm & Hb).
    eexists. simpl. rewrite Hb, Hbs. simpl. repeat split.
    + simpl. now rewrite Hlen.
    + constructor; [| assumption]. simpl.
      rewrite (SelfAttention_init_ok w dim nh ad d _ Hnh Hd Had Hdr) in Ha.
      injection Ha as <-. reflexivity.
Qed.

Lemma GPT_init_ok w depth dim nh ratio ad d ps :
  nh <> 0 -> dim mod world_size w = 0 ->
  (0 <= ad <= 1)%R -> (0 <= d <= 1)%R ->
  exists model,
    GPT_init w depth dim nh ratio ad d ps = Ok model /\
    length (blocks model) = depth /\
    Forall (fun b => sa_attention_head_size (attn b) = dim / nh) (blocks model).
Proof.
  intros Hnh Hd Had Hdr.
  destruct (init_blocks_ok w dim nh ratio ad d ps (seq 0 depth)
              Hnh Hd Had Hdr) as (bs & Hbs & Hlen & Hall).
  exists (mkGPT bs). unfold GPT_init. rewrite Hbs. simpl.
  rewrite length_seq in Hlen. auto.
Qed.

(** C4 (as amended).  With [num_heads > 0]: a stack of depth at least 1, a
    [SelfAttention] or a [FeedForward] whose sharded dimension is not
    divisible by the world size fails in the constructor of its first
    sharded linear layer, so that no model exists on which [forward] could
    run; divisibility of [dim] by [num_heads] is never checked, and with
    [dim] divisible by the world size (or with depth 0) and dropout
    probabilities in [0, 1] the construction succeeds, the head size of
    every block being the quotient [dim / num_heads] rounded down. *)
Theorem construction_checks w depth dim nh ratio ad d ps :
  0 < world_size w -> nh <> 0 ->
  (0 < depth -> dim mod world_size w <> 0 ->
     GPT_init w depth dim nh ratio ad d ps = Err ConfigurationError) /\
  (dim mod world_size w <> 0 ->
     SelfAttention_init w dim nh ad d (attn_params (ps 0)) = Err ConfigurationError) /\
  ((dim * or_default 4 ratio) mod world_size w <> 0 ->
     FeedForward_init w dim ratio (mlp_params (ps 0)) = Err ConfigurationError) /\
  ((0 <= ad <= 1)%R -> (0 <= d <= 1)%R ->
   dim mod world_size w = 0 \/ depth = 0 ->
     exists model,
       GPT_init w depth dim nh ratio ad d ps = Ok model /\
       length (blocks model) = depth /\
       Forall (fun b => sa_attention_head_size (attn b) = dim / nh) (blocks model)).
Proof.
  intros Hws Hnh. repeat split.
  - intros Hdepth Hd. unfold GPT_init.
    rewrite init_blocks_err; auto.
    destruct depth; [lia | discriminate].
  - intros Hd. now apply SelfAttention_init_err.
  - intros Hd. unfold FeedForward_init.
    rewrite ColumnParallelLinear_init_err by assumption. reflexivity.
  - intros Had Hdr [Hd | Hdepth].
    + now apply GPT_init_ok.
    + subst depth. exists (mkGPT []). simpl. auto.
Qed.

Lemma construction_checks_witness :
  GPT_init (mkWorld 2 0) 4 3 4 None 0 0 (fun _ => const_params 3 12 1)
  = Err ConfigurationError /\
  SelfAttention_init (mkWorld 2 0) 3 4 0 0 (attn_params (const_params 3 12 1))
  = Err ConfigurationError /\
  FeedForward_init (mkWorld 2 0) 3 (Some 1) (mlp_params (const_params 3 3 1))
  = Err ConfigurationError /\
  exists model,
    GPT_init (mkWorld 2 0) 4 6 4 None 0 0 (fun _ => const_params 6 24 1)
    = Ok model /\
    length (blocks model) = 4 /\
    Forall (fun b => sa_attention_head_size (attn b) = 6 / 4) (blocks model).
Proof.
  destruct (construction_checks (mkWorld 2 0) 4 3 4 None 0 0
              (fun _ => const_params 3 12 1)) as (H1 & H2 & _ & _);
    [simpl; lia | lia |].
  destruct (construction_checks (mkWorld 2 0) 4 3 4 (Some 1) 0 0
              (fun _ => const_params 3 3 1)) as (_ & _ & H3 & _);
    [simpl; lia | lia |].
  destruct (construction_checks (mkWorld 2 0) 4 6 4 None 0 0
              (fun _ => const_params 6 24 1)) as (_ & _ & _ & H4);
    [simpl; lia | lia |].
  split; [apply H1; [lia | simpl; lia] |].
  split; [apply H2; simpl; lia |].
  split; [apply H3; simpl; lia |].
  apply H4; [lra | lra | left; reflexivity].
Defined.

(** A stack whose [dim] is not a multiple of [num_heads] is constructed
    without error, and so is a stack of depth 0 whose [dim] is not a
    multiple of the world size. *)
Lemma construction_unchecked :
  6 mod 4 <> 0 /\
  (exists model,
     GPT_init (mkWorld 1 0) 1 6 4 None 0 0 (fun _ => const_params 6 24 1)
     = Ok model) /\
  3 mod 2 <> 0 /\
  GPT_init (mkWorld 2 0) 0 3 1 None 0 0 (fun _ => const_params 3 12 1)
  = Ok (mkGPT []).
Proof.
  split; [simpl; lia |]. split; [| split; [simpl; lia | reflexivity]].
  destruct (GPT_init_ok (mkWorld 1 0) 1 6 4 None 0 0
              (fun _ => const_params 6 24 1)) as (model & H & _);
    try (simpl; lia); try lra; eauto.
Qed.

(** ** The stack of depth 0 *)

(** C9.  A stack constructed with [depth = 0] has no block, and its
    [forward] returns the input tensor itself, whatever its values and its
    shape, without issuing a collective or touching the generator. *)
Theorem GPT_depth0_identity w dim nh ratio ad d ps :
  exists model,
    GPT_init w 0 dim nh ratio ad d ps = Ok model /\
    blocks model = [] /\
    forall x g,
      GPT_forward model x g = Ret ((x, model), g) /\
      (forall comm, exec comm (GPT_forward model x g) = Ok ((x, model), g)) /\
      run_ranks [GPT_forward model x g] = Ok [((x, model), g)].
Proof.
  exists (mkGPT []). repeat split.
Qed.

(** ** The cached causal mask *)

Lemma Dropout_forward4_ret d x g :
  exists y g', Dropout_forward4 d x g = Ret (y, g').
Proof.
  unfold Dropout_forward4, F_dropout.
  destruct (negb (training d)); [unfold ret; eauto |].
  destruct (Req_dec_T (p d) 0); [unfold ret; eauto |].
  destruct (Req_dec_T (p d) 1); [unfold ret; eauto |].
  unfold sample. do 2 eexists. f_equal. apply surjective_pairing.
Qed.

Lemma Dropout_forward3_ret d x g :
  exists y g', Dropout_forward3 d x g = Ret (y, g').
Proof.
  unfold Dropout_forward3, F_dropout.
  destruct (negb (training d)); [unfold ret; eauto |].
  destruct (Req_dec_T (p d) 0); [unfold ret; eauto |].
  destruct (Req_dec_T (p d) 1); [unfold ret; eauto |].
  unfold sample. do 2 eexists. f_equal. apply surjective_pairing.
Qed.

Lemma mask_of_set self m q k : mask_of (set_causal_mask self m) q k = m.
Proof. reflexivity. Qed.

(** [AttentionCore.forward] raises or returns; when it returns, the returned
    object is the receiver with the applied mask in its cache. *)
Lemma AttentionCore_forward_inv self q k v g out self' g' :
  AttentionCore_forward self q k v g = Ret ((out, self'), g') ->
  self' = set_causal_mask self (mask_of self q k) /\
  exists w y,
    attention_probs self q k = Ok w /\
    Dropout_forward4 (attention_dropout self) w g = Ret (y, g') /\
    rbind (matmul y v) (fun c => Ok (merge_last (transpose_12 c))) = Ok out.
Proof.
  unfold AttentionCore_forward, bind.
  destruct (attention_probs self q k) as [w | e]; simpl; [| discriminate].
  destruct (Dropout_forward4_ret (attention_dropout self) w g)
    as (y & g1 & Hd).
  rewrite Hd. simpl.
  destruct (matmul y v) as [c | e] eqn:Hc; simpl; [| discriminate].
  intros H. injection H as <- <- <-.
  split; [reflexivity |].
  exists w, y. rewrite Hc. auto.
Qed.

Ltac run_core :=
  unfold AttentionCore_forward; cbn -[F_dropout];
  rewrite Dropout_forward4_zero by reflexivity; cbn.

Lemma first_call_seq1 :
  AttentionCore_forward core_1 seq1_q seq1_q seq1_q gen0
  = Ret ((seq1_out, set_causal_mask core_1 (tril_mask 1 1)), gen0).
Proof. run_core. reflexivity. Qed.

Lemma half_weight e : (0 < e)%R -> (e / (e + (e + 0)) * 0 + (e / (e + (e + 0)) * 1 + 0) = 1 / 2)%R.
Proof. intros He. field. lra. Qed.

Lemma second_call_seq2 :
  AttentionCore_forward (set_causal_mask core_1 (tril_mask 1 1))
    seq2_q seq2_q seq2_v gen0
  = Ret (([[[ (1 / 2)%R ]; [ (1 / 2)%R ]]],
          set_causal_mask core_1 (tril_mask 1 1)), gen0).
Proof.
  run_core. unfold ret. rewrite !half_weight by apply exp_pos. reflexivity.
Qed.

(** After a call at sequence length 1, a call of the same instance at
    sequence length 2 applies the 1 by 1 mask of the first call, broadcast
    over the scores, and not the lower triangle of its own lengths: the
    first query position attends to the second key position with weight
    1/2, where a fresh instance gives it a weight below 1/2. *)
Lemma stale_mask_reused :
  AttentionCore_forward core_1 seq1_q seq1_q seq1_q gen0
  = Ret ((seq1_out, set_causal_mask core_1 (tril_mask 1 1)), gen0) /\
  AttentionCore_forward (set_causal_mask core_1 (tril_mask 1 1))
    seq2_q seq2_q seq2_v gen0
  = Ret (([[[ (1 / 2)%R ]; [ (1 / 2)%R ]]],
          set_causal_mask core_1 (tril_mask 1 1)), gen0) /\
  mask_of (set_causal_mask core_1 (tril_mask 1 1)) seq2_q seq2_q
  = [[[[true]]]] /\
  tril_mask (size2 seq2_q) (size2 seq2_q) = [[[[true; false]; [true; true]]]] /\
  exists y0 y1,
    AttentionCore_forward core_1 seq2_q seq2_q seq2_v gen0
    = Ret (([[[ y0 ]; [ y1 ]]], set_causal_mask core_1 (tril_mask 2 2)), gen0) /\
    (y0 < 1 / 2)%R.
Proof.
  split; [exact first_call_seq1 |]. split; [exact second_call_seq2 |].
  split; [reflexivity |]. split; [reflexivity |].
  do 2 eexists. split.
  - run_core. reflexivity.
  - assert (H0 : ((0 * 0 + 0) / sqrt 1 = 0)%R) by (unfold Rdiv; ring).
    rewrite H0, exp_0.
    assert (He : (0 < exp (-10000) < 1)%R).
    { split; [apply exp_pos |]. rewrite <- exp_0. apply exp_increasing. lra. }
    set (e := exp (-10000)) in *.
    apply Rmult_lt_reg_r with (r := (1 + (e + 0))%R); [lra |].
    replace ((1 / (1 + (e + 0)) * 0 + (e / (1 + (e + 0)) * 1 + 0))
             * (1 + (e + 0)))%R with e by (field; lra).
    lra.
Qed.

(** ** Tabulated lists *)

Lemma length_tab {A} n (f : nat -> A) : length (tab n f) = n.
Proof. unfold tab. now rewrite length_map, length_seq. Qed.

Lemma nth_tab {A} n (f : nat -> A) i d : i < n -> nth i (tab n f) d = f i.
Proof.
  intros Hi. unfold tab.
  rewrite (nth_indep _ d (f 0)) by now rewrite length_map, length_seq.
  rewrite map_nth, seq_nth by assumption. reflexivity.
Qed.

Lemma tab_ext {A} n (f g : nat -> A) :
  (forall i, i < n -> f i = g i) -> tab n f = tab n g.
Proof.
  intros H. unfold tab. apply map_ext_in.
  intros i Hi. apply in_seq in Hi. apply H. lia.
Qed.

Lemma map_tab {A B} (h : A -> B) n f : map h (tab n f) = tab n (fun i => h (f i)).
Proof. unfold tab. now rewrite map_map. Qed.

Lemma combine_map_seq {A B} (f : nat -> A) (g : nat -> B) l :
  combine (map f l) (map g l) = map (fun i => (f i, g i)) l.
Proof. induction l as [| a l IH]; simpl; [| rewrite IH]; reflexivity. Qed.

Lemma zip_with_tab {A B C} (h : A -> B -> C) n f g :
  zip_with h (tab n f) (tab n g) = tab n (fun i => h (f i) (g i)).
Proof.
  unfold zip_with, tab. rewrite combine_map_seq, map_map. reflexivity.
Qed.

Lemma tab_nth {A} (l : list A) d : l = tab (length l) (fun i => nth i l d).
Proof.
  apply nth_ext with (d := d) (d' := d).
  - now rewrite length_tab.
  - intros i Hi. now rewrite nth_tab.
Qed.

Lemma tab_S {A} n (f : nat -> A) : tab (S n) f = f 0 :: tab n (fun i => f (S i)).
Proof.
  unfold tab. simpl. f_equal. rewrite <- seq_shift, map_map. reflexivity.
Qed.

Lemma hd_tab {A} n (f : nat -> A) d : 0 < n -> hd d (tab n f) = f 0.
Proof. destruct n; [lia |]. intros _. now rewrite tab_S. Qed.

Lemma firstn_seq_le c s len : c <= len -> firstn c (seq s len) = seq s c.
Proof.
  revert s len. induction c as [| c IH]; intros s len H; [reflexivity |].
  destruct len as [| len]; [lia |]. simpl. f_equal. apply IH. lia.
Qed.

Lemma seq_offset k s c : seq (k + s) c = map (fun i => k + i) (seq s c).
Proof.
  revert s. induction c as [| c IH]; intros s; [reflexivity |].
  simpl. f_equal. rewrite <- IH. f_equal. lia.
Qed.

Lemma chunk_seq c r N : r * c + c <= N -> chunk c r (seq 0 N) = seq (r * c) c.
Proof.
  intros H. unfold chunk. rewrite skipn_seq. simpl.
  apply firstn_seq_le. lia.
Qed.

Lemma chunk_map {A B} (f : A -> B) c r l : chunk c r (map f l) = map f (chunk c r l).
Proof. unfold chunk. now rewrite skipn_map, firstn_map. Qed.

Lemma chunk_tab {A} c r N (f : nat -> A) :
  r * c + c <= N -> chunk c r (tab N f) = tab c (fun i => f (r * c + i)).
Proof.
  intros H. unfold tab. rewrite chunk_map, chunk_seq by assumption.
  rewrite <- (Nat.add_0_r (r * c)) at 1. rewrite seq_offset, map_map.
  reflexivity.
Qed.

Lemma chunks_tab {A} c n (f : nat -> A) :
  chunks c n (tab (n * c) f) = tab2 n c (fun h i => f (h * c + i)).
Proof.
  unfold chunks, tab2. fold (tab n (fun h => chunk c h (tab (n * c) f))).
  apply tab_ext. intros h Hh. apply chunk_tab. nia.
Qed.

Lemma transpose_tab2 {A} (d : A) a b F :
  0 < a -> transpose d (tab2 a b F) = tab2 b a (fun j i => F i j).
Proof.
  intros Ha. unfold transpose, tab2.
  rewrite hd_tab, length_tab by assumption.
  fold (tab b (fun j => map (fun row => nth j row d) (tab a (fun i => tab b (F i))))).
  apply tab_ext. intros j Hj. rewrite map_tab.
  apply tab_ext. intros i Hi. now apply nth_tab.
Qed.

Lemma expand_same {A} n (l : list A) : length l = n -> expand n l = l.
Proof.
  intros H. destruct l as [| a [| b l]]; simpl in *; subst; reflexivity.
Qed.

Lemma bdim_same n : bdim n n = Some n.
Proof. unfold bdim. now rewrite Nat.eqb_refl. Qed.

Lemma repeat_tab {A} (x : A) n : repeat x n = tab n (fun _ => x).
Proof.
  induction n as [| n IH]; [reflexivity |]. rewrite tab_S. simpl. now f_equal.
Qed.

Lemma bdim_one_l n : bdim 1 n = Some n.
Proof.
  unfold bdim. destruct (Nat.eqb_spec 1 n); [now subst | reflexivity].
Qed.

Lemma forallb_tab {A} (P : A -> bool) n f :
  (forall i, i < n -> P (f i) = true) -> forallb P (tab n f) = true.
Proof.
  intros H. apply forallb_forall. intros x Hx. unfold tab in Hx.
  apply in_map_iff in Hx as (i & <- & Hi). apply in_seq in Hi. apply H. lia.
Qed.

(** ** Shapes *)

Lemma has_shape1_tab n (f : nat -> R) : has_shape1 n (tab n f) = true.
Proof. unfold has_shape1. rewrite length_tab. apply Nat.eqb_refl. Qed.

Lemma has_shape2_tab {A} a b (F : nat -> nat -> A) : has_shape2 a b (tab2 a b F) = true.
Proof.
  unfold has_shape2, tab2. rewrite length_tab, Nat.eqb_refl. simpl.
  apply forallb_tab. intros i _. unfold has_shape1.
  rewrite length_tab. apply Nat.eqb_refl.
Qed.

Lemma has_shape3_tab {A} a b c (F : nat -> nat -> nat -> A) :
  has_shape3 a b c (tab3 a b c F) = true.
Proof.
  unfold has_shape3, tab3. rewrite length_tab, Nat.eqb_refl. simpl.
  apply forallb_tab. intros i _. apply has_shape2_tab.
Qed.

Lemma has_shape4_tab {A} a b c d (F : nat -> nat -> nat -> nat -> A) :
  has_shape4 a b c d (tab4 a b c d F) = true.
Proof.
  unfold has_shape4, tab4. rewrite length_tab, Nat.eqb_refl. simpl.
  apply forallb_tab. intros i _. apply has_shape3_tab.
Qed.

Lemma shape1_tab d (t : T1) : has_shape1 d t = true -> t = tab d (at1 t).
Proof.
  unfold has_shape1. intros H. apply Nat.eqb_eq in H. subst d. apply tab_nth.
Qed.

Lemma forallb_nth {A} (P : A -> bool) l d i :
  forallb P l = true -> i < length l -> P (nth i l d) = true.
Proof.
  intros H Hi. rewrite forallb_forall in H. apply H. now apply nth_In.
Qed.

Lemma shape2_tab c d (t : T2) : has_shape2 c d t = true -> t = tab2 c d (at2 t).
Proof.
  unfold has_shape2. intros H. apply andb_prop in H as [Hl Hf].
  apply Nat.eqb_eq in Hl. subst c. rewrite (tab_nth t []) at 1.
  apply tab_ext. intros i Hi. apply shape1_tab. now apply forallb_nth.
Qed.

Lemma shape3_tab b c d (t : T3) : has_shape3 b c d t = true -> t = tab3 b c d (at3 t).
Proof.
  unfold has_shape3. intros H. apply andb_prop in H as [Hl Hf].
  apply Nat.eqb_eq in Hl. subst b. rewrite (tab_nth t []) at 1.
  apply tab_ext. intros i Hi. apply shape2_tab. now apply forallb_nth.
Qed.

Lemma shape4_tab a b c d (t : T4) :
  has_shape4 a b c d t = true -> t = tab4 a b c d (at4 t).
Proof.
  unfold has_shape4. intros H. apply andb_prop in H as [Hl Hf].
  apply Nat.eqb_eq in Hl. subst a. rewrite (tab_nth t []) at 1.
  apply tab_ext. intros i Hi. apply shape3_tab. now apply forallb_nth.
Qed.

Lemma at1_tab n f i : i < n -> at1 (tab n f) i = f i.
Proof. intros. unfold at1. now apply nth_tab. Qed.

Lemma at2_tab a b F i j : i < a -> j < b -> at2 (tab2 a b F) i j = F i j.
Proof.
  intros Hi Hj. unfold at2, tab2. rewrite nth_tab by assumption.
  now apply at1_tab.
Qed.

Lemma at3_tab a b c F i j k :
  i < a -> j < b -> k < c -> at3 (tab3 a b c F) i j k = F i j k.
Proof.
  intros Hi Hj Hk. unfold at3, tab3. rewrite nth_tab by assumption.
  now apply at2_tab.
Qed.

Lemma at4_tab a b c d F i j k l :
  i < a -> j < b -> k < c -> l < d -> at4 (tab4 a b c d F) i j k l = F i j k l.
Proof.
  intros Hi Hj Hk Hl. unfold at4, tab4. rewrite nth_tab by assumption.
  now apply at3_tab.
Qed.

Lemma tab2_ext {A} a b (F G : nat -> nat -> A) :
  (forall i j, i < a -> j < b -> F i j = G i j) -> tab2 a b F = tab2 a b G.
Proof.
  intros H. apply tab_ext. intros i Hi. apply tab_ext. intros j Hj. now apply H.
Qed.

Lemma tab3_ext {A} a b c (F G : nat -> nat -> nat -> A) :
  (forall i j k, i < a -> j < b -> k < c -> F i j k = G i j k) ->
  tab3 a b c F = tab3 a b c G.
Proof.
  intros H. apply tab_ext. intros i Hi. apply tab2_ext. intros j k Hj Hk.
  now apply H.
Qed.

Lemma tab4_ext {A} a b c d (F G : nat -> nat -> nat -> nat -> A) :
  (forall i j k l, i < a -> j < b -> k < c -> l < d -> F i j k l = G i j k l) ->
  tab4 a b c d F = tab4 a b c d G.
Proof.
  intros H. apply tab_ext. intros i Hi. apply tab3_ext. intros j k l Hj Hk Hl.
  now apply H.
Qed.

Lemma size1_tab {A} a (f : nat -> list A) : 0 < a -> size1 (tab a f) = length (f 0).
Proof. intros Ha. unfold size1. now rewrite hd_tab. Qed.

Lemma size2_tab {A} a (f : nat -> list (list A)) :
  0 < a -> size2 (tab a f) = size1 (f 0).
Proof. intros Ha. unfold size2. now rewrite hd_tab. Qed.

Lemma size3_tab {A} a (f : nat -> list (list (list A))) :
  0 < a -> size3 (tab a f) = size2 (f 0).
Proof. intros Ha. unfold size3. now rewrite hd_tab. Qed.

Lemma sizes_tab3 {A} a b c (F : nat -> nat -> nat -> A) :
  0 < a -> 0 < b ->
  size0 (tab3 a b c F) = a /\ size1 (tab3 a b c F) = b /\ size2 (tab3 a b c F) = c.
Proof.
  intros Ha Hb. unfold tab3, tab2, size0.
  rewrite length_tab, size1_tab, size2_tab, length_tab, size1_tab, length_tab
    by assumption.
  auto.
Qed.

Lemma sizes_tab4 {A} a b c d (F : nat -> nat -> nat -> nat -> A) :
  0 < a -> 0 < b -> 0 < c ->
  size0 (tab4 a b c d F) = a /\ size1 (tab4 a b c d F) = b /\
  size2 (tab4 a b c d F) = c /\ size3 (tab4 a b c d F) = d.
Proof.
  intros Ha Hb Hc. unfold tab4, size0.
  rewrite length_tab, size1_tab, size2_tab, size3_tab by assumption.
  destruct (sizes_tab3 b c d (F 0) Hb Hc) as (H0 & H1 & H2).
  unfold size0 in H0. auto.
Qed.

(** ** The tensor operations on tabulated tensors *)

Lemma map3_tab3 {A B} (h : A -> B) a b c F :
  map3 h (tab3 a b c F) = tab3 a b c (fun i j k => h (F i j k)).
Proof.
  unfold map3, tab3, tab2. rewrite map_tab. apply tab_ext. intros i _.
  rewrite map_tab. apply tab_ext. intros j _. apply map_tab.
Qed.

Lemma map4_tab4 {A B} (h : A -> B) a b c d F :
  map4 h (tab4 a b c d F) = tab4 a b c d (fun i j k l => h (F i j k l)).
Proof.
  unfold map4, tab4. rewrite map_tab. apply tab_ext. intros i _.
  apply map3_tab3.
Qed.

Lemma transpose_last_tab4 a b c d F :
  0 < c ->
  transpose_last (tab4 a b c d F) = tab4 a b d c (fun i j l k => F i j k l).
Proof.
  intros Hc. unfold transpose_last, tab4, tab3. rewrite map_tab.
  apply tab_ext. intros i _. rewrite map_tab. apply tab_ext. intros j _.
  now apply transpose_tab2.
Qed.

Lemma transpose_12_tab4 a b c d F :
  0 < b ->
  transpose_12 (tab4 a b c d F) = tab4 a c b d (fun i k j l => F i j k l).
Proof.
  intros Hb. unfold transpose_12, tab4. rewrite map_tab.
  apply tab_ext. intros i _.
  change (tab3 b c d (F i)) with (tab2 b c (fun j k => tab d (F i j k))).
  now rewrite transpose_tab2.
Qed.

Lemma matmul2_tab2 n m p F G :
  0 < m ->
  matmul2 (tab2 n m F) (tab2 m p G)
  = tab2 n p (fun k l => dot (tab m (F k)) (tab m (fun e => G e l))).
Proof.
  intros Hm. unfold matmul2. rewrite transpose_tab2 by assumption.
  unfold tab2. rewrite map_tab. apply tab_ext. intros k _. apply map_tab.
Qed.

Lemma matmul_tab4 a b n m p F G :
  0 < a -> 0 < b -> 0 < n -> 0 < m ->
  matmul (tab4 a b n m F) (tab4 a b m p G)
  = Ok (tab4 a b n p (fun i j k l =>
          dot (tab m (F i j k)) (tab m (fun e => G i j e l)))).
Proof.
  intros Ha Hb Hn Hm. unfold matmul.
  destruct (sizes_tab4 a b n m F Ha Hb Hn) as (-> & -> & _ & ->).
  destruct (sizes_tab4 a b m p G Ha Hb Hm) as (-> & -> & -> & _).
  rewrite !bdim_same, Nat.eqb_refl. f_equal.
  rewrite !expand_same by apply length_tab.
  unfold tab4. rewrite zip_with_tab. apply tab_ext. intros i _.
  rewrite !expand_same by apply length_tab.
  unfold tab3. rewrite zip_with_tab. apply tab_ext. intros j _.
  now apply matmul2_tab2.
Qed.

Lemma tril_tab2 n p : tril n p = tab2 n p (fun k l => l <=? k).
Proof. reflexivity. Qed.

Lemma sizes_tril_mask n p :
  0 < n ->
  size0 (tril_mask n p) = 1 /\ size1 (tril_mask n p) = 1 /\
  size2 (tril_mask n p) = n /\ size3 (tril_mask n p) = p.
Proof.
  intros Hn. unfold tril_mask, size0, size3, size2, size1. cbn [hd length].
  rewrite tril_tab2. unfold tab2.
  rewrite (hd_tab _ _ _ Hn), !length_tab. auto.
Qed.

Lemma where_tab4 a b n p F c :
  0 < a -> 0 < b -> 0 < n -> 0 < p ->
  where_ (tril_mask n p) (tab4 a b n p F) c
  = Ok (tab4 a b n p (fun i j k l => if l <=? k then F i j k l else c)).
Proof.
  intros Ha Hb Hn Hp. unfold where_.
  destruct (sizes_tab4 a b n p F Ha Hb Hn) as (-> & -> & -> & ->).
  destruct (sizes_tril_mask n p Hn) as (-> & -> & -> & ->).
  rewrite !bdim_one_l, !bdim_same. f_equal.
  unfold tril_mask. cbn [expand]. rewrite expand_same by apply length_tab.
  rewrite repeat_tab. unfold tab4. rewrite zip_with_tab.
  apply tab_ext. intros i _.
  cbn [expand]. rewrite expand_same by apply length_tab.
  rewrite repeat_tab. unfold tab3. rewrite zip_with_tab.
  apply tab_ext. intros j _.
  rewrite tril_tab2. rewrite !expand_same by apply length_tab.
  unfold tab2. rewrite zip_with_tab. apply tab_ext. intros k _.
  rewrite !expand_same by apply length_tab.
  apply zip_with_tab.
Qed.

Lemma softmax_tab4 a b c d F :
  softmax (tab4 a b c d F)
  = tab4 a b c d (fun i j k l =>
      (exp (F i j k l) / sum (tab d (fun e => exp (F i j k e))))%R).
Proof.
  unfold softmax, map3, tab4, tab3, tab2. rewrite map_tab.
  apply tab_ext. intros i _. rewrite map_tab. apply tab_ext. intros j _.
  rewrite map_tab. apply tab_ext. intros k _.
  unfold softmax1. rewrite !map_tab. reflexivity.
Qed.

Lemma concat_tab2 {A} n c (G : nat -> nat -> A) :
  0 < c ->
  concat (tab2 n c G) = tab (n * c) (fun f => G (f / c) (f mod c)).
Proof.
  intros Hc. revert G. induction n as [| n IH]; intros G; [reflexivity |].
  unfold tab2 in *. rewrite tab_S. simpl concat. rewrite IH.
  apply nth_ext with (d := G 0 0) (d' := G 0 0).
  - rewrite length_app, !length_tab. reflexivity.
  - intros f Hf. rewrite length_app, !length_tab in Hf.
    rewrite (nth_tab (S n * c)) by (simpl; lia).
    destruct (Nat.lt_ge_cases f c) as [Hlt | Hge].
    + rewrite app_nth1, nth_tab by (rewrite ?length_tab; assumption).
      rewrite Nat.div_small, Nat.mod_small by assumption. reflexivity.
    + rewrite app_nth2, length_tab by (rewrite ?length_tab; assumption).
      rewrite nth_tab by lia.
      replace f with ((f - c) + 1 * c) at 3 4 by lia.
      rewrite Nat.div_add, Nat.Div0.mod_add by lia.
      replace ((f - c) / c + 1) with (S ((f - c) / c)) by lia. reflexivity.
Qed.

Lemma merge_last_tab4 a b c d F :
  0 < d ->
  merge_last (tab4 a b c d F)
  = tab3 a b (c * d) (fun i j f => F i j (f / d) (f mod d)).
Proof.
  intros Hd. unfold merge_last, tab4, tab3. rewrite map_tab.
  apply tab_ext. intros i _. unfold tab2 at 1. rewrite map_tab.
  apply tab_ext. intros j _. now apply concat_tab2.
Qed.

Lemma view_split_tab3 a b n c F :
  0 < a -> 0 < b ->
  view_split n c (tab3 a b (n * c) F)
  = Ok (tab4 a b n c (fun i j h e => F i j (h * c + e))).
Proof.
  intros Ha Hb. unfold view_split.
  destruct (sizes_tab3 a b (n * c) F Ha Hb) as (_ & _ & ->).
  rewrite Nat.eqb_refl. f_equal. unfold tab3, tab4, tab3. rewrite map_tab.
  apply tab_ext. intros i _. unfold tab2 at 1. rewrite map_tab.
  apply tab_ext. intros j _. apply chunks_tab.
Qed.

Lemma dot_tab n f g : dot (tab n f) (tab n g) = sum (tab n (fun i => (f i * g i)%R)).
Proof. unfold dot. now rewrite zip_with_tab. Qed.

(** ** Shape of a tensor under dropout *)

Lemma map_state_shape {A B S} (f : A -> S -> B * S) (P : A -> bool) (Q : B -> bool) :
  (forall a s, P a = true -> Q (fst (f a s)) = true) ->
  forall l s,
    forallb P l = true ->
    length (fst (map_state f l s)) = length l /\
    forallb Q (fst (map_state f l s)) = true.
Proof.
  intros Hf. induction l as [| a l IH]; intros s Hl; [simpl; auto |].
  simpl in Hl. apply andb_prop in Hl as [Ha Hl].
  simpl. specialize (Hf a s Ha). destruct (f a s) as [b s1].
  specialize (IH s1 Hl). destruct (map_state f l s1) as [bs s2].
  simpl in *. destruct IH as [IHl IHq]. rewrite IHl, Hf, IHq. auto.
Qed.

Lemma map_state_has_shape1 {S} (f : R -> S -> R * S) d l s :
  has_shape1 d l = true -> has_shape1 d (fst (map_state f l s)) = true.
Proof.
  unfold has_shape1. intros H.
  destruct (map_state_shape f (fun _ => true) (fun _ => true)
              (fun _ _ _ => eq_refl) l s) as [Hlen _].
  - now apply forallb_forall.
  - now rewrite Hlen.
Qed.

Lemma map_state_has_shape2 {S} (f : R -> S -> R * S) c d l s :
  has_shape2 c d l = true ->
  has_shape2 c d (fst (map_state (map_state f) l s)) = true.
Proof.
  unfold has_shape2. intros H. apply andb_prop in H as [Hl Hf].
  destruct (map_state_shape (map_state f) (has_shape1 d) (has_shape1 d)
              (fun a s0 => map_state_has_shape1 f d a s0) l s Hf) as [Hlen Hq].
  now rewrite Hlen, Hl, Hq.
Qed.

Lemma map_state_has_shape3 {S} (f : R -> S -> R * S) b c d l s :
  has_shape3 b c d l = true ->
  has_shape3 b c d (fst (map_state (map_state (map_state f)) l s)) = true.
Proof.
  unfold has_shape3. intros H. apply andb_prop in H as [Hl Hf].
  destruct (map_state_shape (map_state (map_state f)) (has_shape2 c d)
              (has_shape2 c d)
              (fun a s0 => map_state_has_shape2 f c d a s0) l s Hf) as [Hlen Hq].
  now rewrite Hlen, Hl, Hq.
Qed.

Lemma map_state_has_shape4 {S} (f : R -> S -> R * S) a b c d l s :
  has_shape4 a b c d l = true ->
  has_shape4 a b c d
    (fst (map_state (map_state (map_state (map_state f))) l s)) = true.
Proof.
  unfold has_shape4. intros H. apply andb_prop in H as [Hl Hf].
  destruct (map_state_shape (map_state (map_state (map_state f)))
              (has_shape3 b c d) (has_shape3 b c d)
              (fun a0 s0 => map_state_has_shape3 f b c d a0 s0) l s Hf)
    as [Hlen Hq].
  now rewrite Hlen, Hl, Hq.
Qed.

Lemma Dropout_forward4_shape dr x g a b c d :
  has_shape4 a b c d x = true ->
  exists y g',
    Dropout_forward4 dr x g = Ret (y, g') /\ has_shape4 a b c d y = true.
Proof.
  intros Hx. unfold Dropout_forward4, F_dropout.
  destruct (negb (training dr)); [unfold ret; eauto |].
  destruct (Req_dec_T (p dr) 0); [unfold ret; eauto |].
  destruct (Req_dec_T (p dr) 1).
  - unfold ret. do 2 eexists. split; [reflexivity |].
    rewrite (shape4_tab _ _ _ _ _ Hx), map4_tab4. apply has_shape4_tab.
  - unfold sample. do 2 eexists. split.
    + f_equal. apply surjective_pairing.
    + now apply map_state_has_shape4.
Qed.

Lemma Dropout_forward3_shape dr x g b c d :
  has_shape3 b c d x = true ->
  exists y g',
    Dropout_forward3 dr x g = Ret (y, g') /\ has_shape3 b c d y = true.
Proof.
  intros Hx. unfold Dropout_forward3, F_dropout.
  destruct (negb (training dr)); [unfold ret; eauto |].
  destruct (Req_dec_T (p dr) 0); [unfold ret; eauto |].
  destruct (Req_dec_T (p dr) 1).
  - unfold ret. do 2 eexists. split; [reflexivity |].
    rewrite (shape3_tab _ _ _ _ Hx), map3_tab3. apply has_shape3_tab.
  - unfold sample. do 2 eexists. split.
    + f_equal. apply surjective_pairing.
    + now apply map_state_has_shape3.
Qed.

(** ** [AttentionCore.forward] on well-shaped tensors *)

Lemma mask_of_fresh self q k a b n p d :
  0 < a -> 0 < b ->
  has_shape4 a b n d q = true -> has_shape4 a b p d k = true ->
  causal_mask self = None \/ causal_mask self = Some (tril_mask n p) ->
  mask_of self q k = tril_mask n p.
Proof.
  intros Ha Hb Hq Hk [Hm | Hm]; unfold mask_of; rewrite Hm; [| reflexivity].
  rewrite (shape4_tab _ _ _ _ _ Hq), (shape4_tab _ _ _ _ _ Hk).
  unfold tab4. rewrite !size2_tab by assumption.
  unfold tab3. rewrite !size1_tab by assumption.
  unfold tab2. now rewrite !length_tab.
Qed.

Lemma sizes_tab4_2 {A} a b c d (F : nat -> nat -> nat -> nat -> A) :
  0 < a -> 0 < b -> size2 (tab4 a b c d F) = c.
Proof.
  intros Ha Hb. unfold tab4. rewrite size2_tab by assumption.
  unfold tab3. rewrite size1_tab by assumption. unfold tab2. apply length_tab.
Qed.

Lemma attention_probs_tab self Q K a b n p d :
  0 < a -> 0 < b -> 0 < n -> 0 < p -> 0 < d ->
  causal_mask self = None \/ causal_mask self = Some (tril_mask n p) ->
  d = attention_head_size self ->
  attention_probs self (tab4 a b n d Q) (tab4 a b p d K)
  = Ok (tab4 a b n p (weight_fn d (where_const self) p Q K)).
Proof.
  intros Ha Hb Hn Hp Hd Hm Hhs. unfold attention_probs.
  assert (Hmask : mask_of self (tab4 a b n d Q) (tab4 a b p d K) = tril_mask n p).
  { destruct Hm as [Hm | Hm]; unfold mask_of; rewrite Hm; [| reflexivity].
    now rewrite !sizes_tab4_2. }
  rewrite Hmask.
  rewrite transpose_last_tab4, matmul_tab4 by assumption. simpl rbind.
  rewrite map4_tab4, where_tab4 by assumption. simpl rbind.
  rewrite softmax_tab4. f_equal. apply tab4_ext. intros i j r l Hi Hj Hr Hl.
  unfold weight_fn, score_fn. rewrite <- Hhs. reflexivity.
Qed.

Lemma attention_probs_shaped self q k a b n p d :
  0 < a -> 0 < b -> 0 < n -> 0 < p -> 0 < d ->
  has_shape4 a b n d q = true -> has_shape4 a b p d k = true ->
  causal_mask self = None \/ causal_mask self = Some (tril_mask n p) ->
  d = attention_head_size self ->
  attention_probs self q k
  = Ok (tab4 a b n p (attention_weight d (where_const self) q k p)).
Proof.
  intros Ha Hb Hn Hp Hd Hq Hk Hm Hhs.
  rewrite (shape4_tab _ _ _ _ _ Hq) at 1. rewrite (shape4_tab _ _ _ _ _ Hk) at 1.
  now apply attention_probs_tab.
Qed.

(** ** Sums *)

Lemma sum_app l1 l2 : sum (l1 ++ l2) = (sum l1 + sum l2)%R.
Proof.
  unfold sum. induction l1 as [| x l1 IH]; simpl; [ring | rewrite IH; ring].
Qed.

Lemma tab_app {A} n m (f : nat -> A) :
  tab (n + m) f = tab n f ++ tab m (fun i => f (n + i)).
Proof.
  unfold tab. rewrite seq_app, map_app. f_equal. simpl.
  rewrite <- (Nat.add_0_r n) at 1. now rewrite seq_offset, map_map.
Qed.

Lemma tab_S_r {A} n (f : nat -> A) : tab (S n) f = tab n f ++ [f n].
Proof.
  replace (S n) with (n + 1) by lia. rewrite tab_app. simpl.
  unfold tab at 2. simpl. now rewrite Nat.add_0_r.
Qed.

Lemma sum_tab_S n f : sum (tab (S n) f) = (sum (tab n f) + f n)%R.
Proof. rewrite tab_S_r, sum_app. simpl. ring. Qed.

Lemma sum_tab_ext n f g :
  (forall i, i < n -> f i = g i) -> sum (tab n f) = sum (tab n g).
Proof. intros H. f_equal. now apply tab_ext. Qed.

Lemma sum_tab_const n w : sum (tab n (fun _ => w)) = (INR n * w)%R.
Proof.
  induction n as [| n IH]; [simpl; ring |].
  rewrite sum_tab_S, IH, S_INR. ring.
Qed.

Lemma sum_tab_div n f z :
  sum (tab n (fun i => (f i / z)%R)) = (sum (tab n f) / z)%R.
Proof.
  induction n as [| n IH]; [simpl; unfold Rdiv; ring |].
  rewrite !sum_tab_S, IH. unfold Rdiv. ring.
Qed.

Lemma sum_tab_plus n f g :
  sum (tab n (fun i => (f i + g i)%R)) = (sum (tab n f) + sum (tab n g))%R.
Proof.
  induction n as [| n IH]; [simpl; ring |].
  rewrite !sum_tab_S, IH. ring.
Qed.

Lemma sum_tab_nonneg n f :
  (forall i, i < n -> (0 <= f i)%R) -> (0 <= sum (tab n f))%R.
Proof.
  induction n as [| n IH]; intros H; [simpl; lra |].
  rewrite sum_tab_S. specialize (H n (Nat.lt_succ_diag_r n)) as Hn.
  assert (0 <= sum (tab n f))%R by (apply IH; intros; apply H; lia). lra.
Qed.

Lemma sum_tab_ge n f l :
  l < n -> (forall i, i < n -> (0 <= f i)%R) -> (f l <= sum (tab n f))%R.
Proof.
  induction n as [| n IH]; intros Hl H; [lia |].
  rewrite sum_tab_S.
  assert (Hs : (0 <= sum (tab n f))%R)
    by (apply sum_tab_nonneg; intros; apply H; lia).
  destruct (Nat.eq_dec l n) as [-> | Hne]; [lra |].
  assert (f l <= sum (tab n f))%R by (apply IH; [lia | intros; apply H; lia]).
  specialize (H n (Nat.lt_succ_diag_r n)). lra.
Qed.

Lemma sum_tab_ge2 n f l l' :
  l < l' -> l' < n -> (forall i, i < n -> (0 <= f i)%R) ->
  (f l + f l' <= sum (tab n f))%R.
Proof.
  induction n as [| n IH]; intros Hl Hl' H; [lia |].
  rewrite sum_tab_S.
  destruct (Nat.eq_dec l' n) as [-> | Hne].
  - assert (f l <= sum (tab n f))%R
      by (apply sum_tab_ge; [lia | intros; apply H; lia]).
    lra.
  - assert (f l + f l' <= sum (tab n f))%R
      by (apply IH; [lia | lia | intros; apply H; lia]).
    specialize (H n (Nat.lt_succ_diag_r n)). lra.
Qed.

Lemma sum_tab_pos n f :
  0 < n -> (forall i, i < n -> (0 < f i)%R) -> (0 < sum (tab n f))%R.
Proof.
  intros Hn H.
  assert (f 0%nat <= sum (tab n f))%R
    by (apply sum_tab_ge; [lia | intros; apply Rlt_le, H; lia]).
  specialize (H 0 Hn). lra.
Qed.

(** The sum over a list cut into [n] blocks of width [c]. *)
Lemma sum_tab_blocks n c f :
  sum (tab (n * c) f)
  = sum (tab n (fun r => sum (tab c (fun i => f (r * c + i))))).
Proof.
  induction n as [| n IH]; [reflexivity |].
  rewrite sum_tab_S, <- IH.
  replace (S n * c) with (n * c + c) by lia.
  now rewrite tab_app, sum_app.
Qed.

Lemma score_fn_ext hs c Q K Q' K' i h h' j l :
  (forall e, e < hs -> Q i h j e = Q' i h' j e) ->
  (forall e, e < hs -> K i h l e = K' i h' l e) ->
  score_fn hs c Q K i h j l = score_fn hs c Q' K' i h' j l.
Proof.
  intros HQ HK. unfold score_fn.
  now rewrite (tab_ext hs _ _ HQ), (tab_ext hs _ _ HK).
Qed.

Lemma weight_fn_ext hs c s Q K Q' K' i h h' j l :
  l < s ->
  (forall e, e < hs -> Q i h j e = Q' i h' j e) ->
  (forall l e, l < s -> e < hs -> K i h l e = K' i h' l e) ->
  weight_fn hs c s Q K i h j l = weight_fn hs c s Q' K' i h' j l.
Proof.
  intros Hl HQ HK. unfold weight_fn. f_equal.
  - f_equal. apply score_fn_ext; [assumption | intros; now apply HK].
  - apply sum_tab_ext. intros l' Hl'. f_equal.
    apply score_fn_ext; [assumption | intros; now apply HK].
Qed.

(** ** The weights of masked positions *)

Lemma masked_score_beyond d c q k i h r l :
  r < l -> masked_score d c q k i h r l = c.
Proof.
  intros H. unfold masked_score, score_fn.
  destruct (Nat.leb_spec l r); [lia | reflexivity].
Qed.

Lemma inv_exp_lt c E Z :
  (0 < E)%R -> (E < Z)%R -> (exp c / Z < exp c / E)%R.
Proof.
  intros HE HZ. unfold Rdiv. apply Rmult_lt_compat_l; [apply exp_pos |].
  apply Rinv_lt_contravar; [| assumption]. apply Rmult_lt_0_compat; lra.
Qed.

Lemma exp_minus c s : exp (c - s) = (exp c / exp s)%R.
Proof. unfold Rminus, Rdiv. now rewrite exp_plus, exp_Ropp. Qed.

(** C3 (as amended).  For well-shaped query and key and an instance whose
    fill value is -1e4, in every row of the attention weights: a position
    [l] beyond the query position [r] has the score -1e4 before the
    softmax, and its weight is [exp(-1e4) / Z], where [Z] is the sum of the
    exponentials of the row; the weight is strictly positive and lies below
    [exp(-1e4 - s)] for every unmasked scaled score [s] of the row; the
    weights of the row sum to 1, so that those of the positions up to [r]
    sum to 1 minus the weights of the masked positions. *)
Theorem masked_attention_weights self q k a b n p d :
  0 < a -> 0 < b -> 0 < n -> 0 < p -> 0 < d ->
  d = attention_head_size self ->
  has_shape4 a b n d q = true ->
  has_shape4 a b p d k = true ->
  causal_mask self = None \/ causal_mask self = Some (tril_mask n p) ->
  where_const self = (-10000)%R ->
  exists P,
    attention_probs self q k = Ok P /\
    forall i h r, i < a -> h < b -> r < n ->
      let Z := sum (tab p (fun l => exp (masked_score d (-10000) q k i h r l))) in
      (forall l, l < p -> r < l ->
         masked_score d (-10000) q k i h r l = (-10000)%R /\
         at4 P i h r l = (exp (-10000) / Z)%R /\
         (0 < at4 P i h r l)%R /\
         forall l', l' <= r ->
           (at4 P i h r l
            < exp (-10000 - masked_score d (-10000) q k i h r l'))%R) /\
      sum (tab p (at4 P i h r)) = 1%R /\
      sum (tab (Nat.min (S r) p) (at4 P i h r))
      = (1 - INR (p - S r) * (exp (-10000) / Z))%R.
Proof.
  intros Ha Hb Hn Hp Hd Heq Hq Hk Hm Hc.
  eexists. split.
  { apply (attention_probs_shaped self q k a b n p d); assumption. }
  rewrite Hc. intros i h r Hi Hh Hr Z.
  assert (HZ : (0 < Z)%R)
    by (apply sum_tab_pos; [assumption | intros; apply exp_pos]).
  assert (Hat : forall l, l < p ->
            at4 (tab4 a b n p (attention_weight d (-10000) q k p)) i h r l
            = (exp (masked_score d (-10000) q k i h r l) / Z)%R).
  { intros l Hl. now rewrite at4_tab. }
  assert (Hrow : sum (tab p (at4 (tab4 a b n p
                                    (attention_weight d (-10000) q k p)) i h r))
                 = 1%R).
  { rewrite (sum_tab_ext p _ _ Hat), sum_tab_div. fold Z. field. lra. }
  split; [| split; [exact Hrow |]].
  - intros l Hl Hrl. rewrite (Hat l Hl).
    rewrite (masked_score_beyond d (-10000) q k i h r l Hrl).
    split; [reflexivity |]. split; [reflexivity |].
    split; [apply Rdiv_lt_0_compat; [apply exp_pos | assumption] |].
    intros l' Hl'. rewrite exp_minus. apply inv_exp_lt; [apply exp_pos |].
    assert (H2 : (exp (masked_score d (-10000) q k i h r l')
                  + exp (masked_score d (-10000) q k i h r l) <= Z)%R).
    { apply (sum_tab_ge2 p (fun l => exp (masked_score d (-10000) q k i h r l)));
        [lia | assumption | intros; apply Rlt_le, exp_pos]. }
    pose proof (exp_pos (masked_score d (-10000) q k i h r l)). lra.
  - destruct (Nat.le_gt_cases (S r) p) as [Hle | Hgt].
    + replace (Nat.min (S r) p) with (S r) by lia.
      replace p with (S r + (p - S r)) in Hrow at 1 by lia.
      rewrite tab_app, sum_app in Hrow.
      rewrite (sum_tab_ext (p - S r) _ (fun _ => (exp (-10000) / Z)%R)) in Hrow.
      * rewrite sum_tab_const in Hrow. lra.
      * intros j Hj. rewrite Hat by lia.
        now rewrite masked_score_beyond by lia.
    + replace (Nat.min (S r) p) with p by lia.
      replace (p - S r) with 0 by lia. rewrite Hrow. simpl. ring.
Qed.

Lemma masked_attention_weights_witness :
  exists P,
    attention_probs core_1 seq2_q seq2_q = Ok P /\
    forall i h r, i < 1 -> h < 1 -> r < 2 ->
      let Z := sum (tab 2 (fun l =>
                 exp (masked_score 1 (-10000) seq2_q seq2_q i h r l))) in
      (forall l, l < 2 -> r < l ->
         masked_score 1 (-10000) seq2_q seq2_q i h r l = (-10000)%R /\
         at4 P i h r l = (exp (-10000) / Z)%R /\
         (0 < at4 P i h r l)%R /\
         forall l', l' <= r ->
           (at4 P i h r l
            < exp (-10000 - masked_score 1 (-10000) seq2_q seq2_q i h r l'))%R) /\
      sum (tab 2 (at4 P i h r)) = 1%R /\
      sum (tab (Nat.min (S r) 2) (at4 P i h r))
      = (1 - INR (2 - S r) * (exp (-10000) / Z))%R.
Proof.
  apply (masked_attention_weights core_1 seq2_q seq2_q 1 1 2 2 1);
    try lia; try reflexivity.
  left. reflexivity.
Defined.

(** With the only unmasked score of the first query position at -20000,
    below the fill value, the masked key position receives more than half
    of the attention weight of that query position, and the unmasked
    position less than half. *)
Lemma masked_weight_dominates :
  exists P,
    attention_probs core_1 low_q low_k = Ok P /\
    (1 / 2 < at4 P 0 0 0 1)%R /\
    (sum (tab 1 (at4 P 0 0 0)) < 1 / 2)%R.
Proof.
  eexists. split.
  { apply (attention_probs_shaped core_1 low_q low_k 1 1 2 2 1);
      try lia; try reflexivity. left. reflexivity. }
  rewrite !at4_tab by lia. unfold tab at 1. cbn [seq map sum fold_right].
  rewrite at4_tab by lia.
  unfold attention_weight, weight_fn, score_fn.
  cbn -[exp sqrt INR Rdiv Rmult Rplus].
  unfold dot, zip_with. cbn -[exp sqrt INR Rdiv Rmult Rplus].
  replace (INR 1) with 1%R by reflexivity. rewrite sqrt_1.
  replace ((100 * -200 + 0) / 1)%R with (-20000)%R by field.
  assert (H1 : (0 < exp (-20000))%R) by apply exp_pos.
  assert (H2 : (exp (-20000) < exp (-10000))%R) by (apply exp_increasing; lra).
  set (e2 := exp (-20000)) in *. set (e1 := exp (-10000)) in *.
  split.
  - apply Rmult_lt_reg_r with (r := (e2 + (e1 + 0))%R); [lra |].
    replace (e1 / (e2 + (e1 + 0)) * (e2 + (e1 + 0)))%R with e1 by (field; lra).
    lra.
  - apply Rmult_lt_reg_r with (r := (e2 + (e1 + 0))%R); [lra |].
    replace ((e2 / (e2 + (e1 + 0)) + 0) * (e2 + (e1 + 0)))%R with e2
      by (field; lra).
    lra.
Qed.

(** ** Linear layers and sums of tensors on tabulated tensors *)

Lemma sizes_tab2 {A} a b (F : nat -> nat -> A) :
  0 < a -> length (tab2 a b F) = a /\ size1 (tab2 a b F) = b.
Proof.
  intros Ha. unfold tab2. now rewrite size1_tab, !length_tab.
Qed.

Lemma F_linear_tab b s d o X W B :
  0 < b -> 0 < s -> 0 < o ->
  F_linear (tab3 b s d X) (tab2 o d W) (Some (tab o B))
  = Ok (tab3 b s o (linear_fn d X W B)).
Proof.
  intros Hb Hs Ho. unfold F_linear.
  destruct (sizes_tab3 b s d X Hb Hs) as (_ & _ & ->).
  destruct (sizes_tab2 o d W Ho) as (-> & ->).
  rewrite Nat.eqb_refl, length_tab, Nat.eqb_refl. f_equal.
  unfold tab3, tab2. rewrite !map_tab. apply tab_ext. intros i _.
  rewrite !map_tab. apply tab_ext. intros j _.
  rewrite map_tab, zip_with_tab. reflexivity.
Qed.

Lemma F_linear_tab_nobias b s d o X W :
  0 < b -> 0 < s -> 0 < o ->
  F_linear (tab3 b s d X) (tab2 o d W) None
  = Ok (tab3 b s o (fun i j l => dot (tab d (X i j)) (tab d (W l)))).
Proof.
  intros Hb Hs Ho. unfold F_linear.
  destruct (sizes_tab3 b s d X Hb Hs) as (_ & _ & ->).
  destruct (sizes_tab2 o d W Ho) as (_ & ->).
  rewrite Nat.eqb_refl.
  f_equal. unfold tab3, tab2. rewrite !map_tab. apply tab_ext. intros i _.
  rewrite !map_tab. apply tab_ext. intros j _. apply map_tab.
Qed.

Lemma zip3_tab3 (h : R -> R -> R) b s d F G :
  zip_with (zip_with (zip_with h)) (tab3 b s d F) (tab3 b s d G)
  = tab3 b s d (fun i j l => h (F i j l) (G i j l)).
Proof.
  unfold tab3, tab2. rewrite zip_with_tab. apply tab_ext. intros i _.
  rewrite zip_with_tab. apply tab_ext. intros j _. apply zip_with_tab.
Qed.

Lemma add_tab b s d F G :
  0 < b -> 0 < s ->
  add (tab3 b s d F) (tab3 b s d G)
  = Ok (tab3 b s d (fun i j l => (F i j l + G i j l)%R)).
Proof.
  intros Hb Hs. unfold add.
  destruct (sizes_tab3 b s d F Hb Hs) as (-> & -> & ->).
  destruct (sizes_tab3 b s d G Hb Hs) as (-> & -> & ->).
  rewrite !bdim_same. f_equal.
  rewrite !expand_same by apply length_tab.
  unfold tab3, tab2. rewrite zip_with_tab. apply tab_ext. intros i _.
  rewrite !expand_same by apply length_tab.
  rewrite zip_with_tab. apply tab_ext. intros j _.
  rewrite !expand_same by apply length_tab. apply zip_with_tab.
Qed.

Lemma add_bias_tab b s o F B :
  0 < b -> 0 < s ->
  add_bias (tab3 b s o F) (tab o B)
  = Ok (tab3 b s o (fun i j l => (F i j l + B l)%R)).
Proof.
  intros Hb Hs. unfold add_bias.
  destruct (sizes_tab3 b s o F Hb Hs) as (_ & _ & ->).
  rewrite length_tab, bdim_same. f_equal.
  unfold tab3, tab2. rewrite map_tab. apply tab_ext. intros i _.
  rewrite map_tab. apply tab_ext. intros j _.
  rewrite !expand_same by apply length_tab. apply zip_with_tab.
Qed.

Lemma add_same_tab b s d F G :
  0 < b -> 0 < s ->
  add_same (tab3 b s d F) (tab3 b s d G)
  = Ok (tab3 b s d (fun i j l => (F i j l + G i j l)%R)).
Proof.
  intros Hb Hs. unfold add_same, same_shape.
  destruct (sizes_tab3 b s d F Hb Hs) as (-> & -> & ->).
  destruct (sizes_tab3 b s d G Hb Hs) as (-> & -> & ->).
  rewrite !Nat.eqb_refl. simpl.
  f_equal. apply zip3_tab3.
Qed.

(** ** The all-reduce over the ranks of a group *)

Lemma reduce_add_tab b s d n F0 G :
  0 < b -> 0 < s ->
  reduce_with add_same (tab3 b s d F0) (tab n (fun r => tab3 b s d (G r)))
  = Ok (tab3 b s d (fun i j l => (F0 i j l + sum (tab n (fun r => G r i j l)))%R)).
Proof.
  intros Hb Hs. revert F0 G. induction n as [| n IH]; intros F0 G.
  - simpl. f_equal. apply tab3_ext. intros. simpl. ring.
  - rewrite tab_S. simpl reduce_with. rewrite add_same_tab by assumption.
    simpl rbind.
    rewrite IH. f_equal. apply tab3_ext. intros i j l _ _ _.
    rewrite (tab_S n (fun r => G r i j l)). simpl. ring.
Qed.

Lemma all_coll_tab {A} op n (T : nat -> T3) (K : nat -> T3 -> Proc A) :
  all_coll op (tab n (fun r => Coll op (T r) (K r)))
  = Ok (tab n (fun r => (T r, K r))).
Proof.
  revert T K. induction n as [| n IH]; intros T K; [reflexivity |].
  rewrite !tab_S. simpl.
  replace (collective_eqb op op) with true by (now destruct op).
  now rewrite IH.
Qed.

Lemma all_ret_tab {A} n (a : nat -> A) :
  all_ret (tab n (fun r => Ret (a r))) = Ok (tab n a).
Proof.
  revert a. induction n as [| n IH]; intros a; [reflexivity |].
  rewrite !tab_S. simpl. now rewrite IH.
Qed.

Lemma run_ranks_ret {A} n (a : nat -> A) :
  run_ranks (tab n (fun r => Ret (a r))) = Ok (tab n a).
Proof.
  destruct n as [| n]; [reflexivity |].
  rewrite !tab_S. simpl. now rewrite all_ret_tab.
Qed.

(** The ranks of a group that all issue an all-reduce of tensors of one
    shape go on with the sum of the contributions. *)
Lemma run_ranks_allreduce {A} ws b s o P (K : nat -> T3 -> Proc A) :
  0 < b -> 0 < s ->
  run_ranks (tab ws (fun r => Coll AllReduce (tab3 b s o (P r)) (K r)))
  = run_ranks (tab ws (fun r =>
      K r (tab3 b s o (fun i j l => sum (tab ws (fun r' => P r' i j l)))))).
Proof.
  intros Hb Hs. destruct ws as [| n]; [reflexivity |].
  rewrite !tab_S. simpl run_ranks. cbn [run_group].
  rewrite (all_coll_tab AllReduce n (fun r => tab3 b s o (P (S r)))
             (fun r => K (S r))).
  simpl rbind. rewrite map_tab. simpl fst. cbn [combine_coll].
  rewrite reduce_add_tab by assumption. simpl rbind.
  assert (Hsum : tab3 b s o (fun i j l =>
                 (P 0%nat i j l + sum (tab n (fun r => P (S r) i j l)))%R)
               = tab3 b s o (fun i j l => sum (tab (S n) (fun r' => P r' i j l)))).
  { apply tab3_ext. intros i j l _ _ _.
    now rewrite (tab_S n (fun r' => P r' i j l)). }
  rewrite Hsum, map_tab. reflexivity.
Qed.

(** ** One rank of a sharded layer *)

Lemma ColumnParallelLinear_forward_shard ws r c d fin fout b s X W B g :
  r < ws -> 0 < b -> 0 < s -> 0 < c ->
  ColumnParallelLinear_forward
    (mkColumnParallelLinear fin fout false
       (chunk c r (tab2 (ws * c) d W)) (chunk c r (tab (ws * c) B)))
    (tab3 b s d X) g
  = Ret (tab3 b s c (fun i j l => linear_fn d X W B i j (r * c + l)), g).
Proof.
  intros Hr Hb Hs Hc. unfold ColumnParallelLinear_forward, bind.
  cbn [col_weight col_bias col_gather_output].
  unfold tab2. rewrite !chunk_tab by nia.
  fold (tab2 c d (fun l => W (r * c + l))).
  rewrite F_linear_tab by assumption. reflexivity.
Qed.

Lemma RowParallelLinear_forward_shard ws r c o fin fout w b s X W bias g :
  r < ws -> 0 < b -> 0 < s -> 0 < o ->
  RowParallelLinear_forward
    (mkRowParallelLinear fin fout true w
       (map (chunk c r) (tab2 o (ws * c) W)) bias)
    (tab3 b s c X) g
  = Coll AllReduce
      (tab3 b s o (fun i j l =>
         dot (tab c (X i j)) (tab c (fun f => W l (r * c + f)))))
      (fun t => lift (add_bias t bias) g).
Proof.
  intros Hr Hb Hs Ho. unfold RowParallelLinear_forward, bind.
  cbn [row_weight row_bias row_input_is_parallel row_world].
  assert (HW : map (chunk c r) (tab2 o (ws * c) W)
               = tab2 o c (fun l f => W l (r * c + f))).
  { unfold tab2. rewrite map_tab. apply tab_ext. intros l _.
    apply chunk_tab. nia. }
  rewrite HW, F_linear_tab_nobias by assumption. reflexivity.
Qed.

Lemma AttentionCore_forward_tab core Q K V g a b s d :
  0 < a -> 0 < b -> 0 < s -> 0 < d ->
  d = attention_head_size core ->
  p (attention_dropout core) = 0%R ->
  causal_mask core = None \/ causal_mask core = Some (tril_mask s s) ->
  AttentionCore_forward core (tab4 a b s d Q) (tab4 a b s d K) (tab4 a b s d V) g
  = Ret ((tab3 a s (b * d) (context_fn d (where_const core) s Q K V),
          set_causal_mask core (tril_mask s s)), g).
Proof.
  intros Ha Hb Hs Hd Heq Hp Hm.
  assert (Hmask : mask_of core (tab4 a b s d Q) (tab4 a b s d K) = tril_mask s s).
  { destruct Hm as [Hm | Hm]; unfold mask_of; rewrite Hm; [| reflexivity].
    now rewrite !sizes_tab4_2. }
  unfold AttentionCore_forward, bind.
  rewrite attention_probs_tab by assumption. cbn [lift ret pbind fst snd].
  rewrite Hmask.
  rewrite Dropout_forward4_zero by exact Hp. cbn [lift ret pbind fst snd].
  rewrite matmul_tab4 by assumption. cbn [lift ret pbind fst snd].
  rewrite transpose_12_tab4, merge_last_tab4 by assumption.
  unfold ret. do 3 f_equal. apply tab3_ext. intros i j f _ _ _.
  unfold context_fn. apply dot_tab.
Qed.

Lemma div_mod_shift r n hs f :
  0 < hs ->
  (r * (n * hs) + f) / hs = r * n + f / hs /\
  (r * (n * hs) + f) mod hs = f mod hs.
Proof.
  intros Hhs. replace (r * (n * hs) + f) with (f + (r * n) * hs) by ring.
  rewrite Nat.div_add, Nat.Div0.mod_add by lia. split; [lia | reflexivity].
Qed.

(** The context of a rank is the slice of the dense context that belongs
    to its heads. *)
Lemma context_fn_shard hs c0 s nhl r Y1 Y2 Y3 i j f :
  0 < hs ->
  context_fn hs c0 s
    (fun i h j e => Y1 i j (r * (nhl * hs) + (h * hs + e)))
    (fun i h j e => Y2 i j (r * (nhl * hs) + (h * hs + e)))
    (fun i h j e => Y3 i j (r * (nhl * hs) + (h * hs + e))) i j f
  = context_fn hs c0 s (head_fn hs Y1) (head_fn hs Y2) (head_fn hs Y3)
      i j (r * (nhl * hs) + f).
Proof.
  intros Hhs. unfold context_fn.
  destruct (div_mod_shift r nhl hs f Hhs) as [-> ->].
  apply sum_tab_ext. intros l Hl. f_equal.
  - apply weight_fn_ext; [assumption | |]; intros; unfold head_fn; f_equal; ring.
  - unfold head_fn. f_equal.
    pose proof (Nat.mod_upper_bound f hs). ring.
Qed.

Lemma Dropout_forward3_run d x g :
  Dropout_forward3 d x g = Ret (run_dropout3 d x g).
Proof.
  unfold run_dropout3.
  destruct (Dropout_forward3_ret d x g) as (y & g' & ->). reflexivity.
Qed.

Lemma run_dropout3_shape d x g b s c :
  has_shape3 b s c x = true -> has_shape3 b s c (fst (run_dropout3 d x g)) = true.
Proof.
  intros Hx. unfold run_dropout3.
  destruct (Dropout_forward3_shape d x g b s c Hx) as (y & g' & -> & Hy).
  exact Hy.
Qed.

Lemma SelfAttention_qkv_rank ws r nhl hs b s X WQ BQ WK BK WV BV dns dr core g :
  r < ws -> 0 < nhl -> 0 < hs -> 0 < b -> 0 < s ->
  SelfAttention_qkv
    (mkSelfAttention hs
       (mkColumnParallelLinear (ws * (nhl * hs)) (ws * (nhl * hs)) false
          (chunk (nhl * hs) r (tab2 (ws * (nhl * hs)) (ws * (nhl * hs)) WQ))
          (chunk (nhl * hs) r (tab (ws * (nhl * hs)) BQ)))
       (mkColumnParallelLinear (ws * (nhl * hs)) (ws * (nhl * hs)) false
          (chunk (nhl * hs) r (tab2 (ws * (nhl * hs)) (ws * (nhl * hs)) WK))
          (chunk (nhl * hs) r (tab (ws * (nhl * hs)) BK)))
       (mkColumnParallelLinear (ws * (nhl * hs)) (ws * (nhl * hs)) false
          (chunk (nhl * hs) r (tab2 (ws * (nhl * hs)) (ws * (nhl * hs)) WV))
          (chunk (nhl * hs) r (tab (ws * (nhl * hs)) BV)))
       dns dr core)
    (tab3 b s (ws * (nhl * hs)) X) g
  = Ret ((tab4 b nhl s hs (fun i h j e =>
            linear_fn (ws * (nhl * hs)) X WQ BQ i j (r * (nhl * hs) + (h * hs + e))),
          tab4 b nhl s hs (fun i h j e =>
            linear_fn (ws * (nhl * hs)) X WK BK i j (r * (nhl * hs) + (h * hs + e))),
          tab4 b nhl s hs (fun i h j e =>
            linear_fn (ws * (nhl * hs)) X WV BV i j (r * (nhl * hs) + (h * hs + e)))),
         g).
Proof.
  intros Hr Hnhl Hhs Hb Hs.
  assert (Hc : 0 < nhl * hs) by nia.
  unfold SelfAttention_qkv, bind. cbn [query key value sa_attention_head_size].
  do 3 (rewrite (ColumnParallelLinear_forward_shard ws r (nhl * hs)) by assumption;
        cbn [pbind fst snd]).
  destruct (sizes_tab3 b s (nhl * hs)
              (fun i j l => linear_fn (ws * (nhl * hs)) X WQ BQ i j
                              (r * (nhl * hs) + l)) Hb Hs) as (_ & _ & ->).
  destruct (Nat.eqb_spec hs 0) as [H0 | _]; [lia |].
  rewrite Nat.div_mul by lia.
  rewrite !view_split_tab3 by assumption. cbn [lift ret pbind fst snd].
  rewrite !transpose_12_tab4 by assumption. reflexivity.
Qed.

Lemma SelfAttention_forward_rank_tab ws r nhl hs b s X WQ BQ WK BK WV BV WO BO w dr g :
  r < ws -> 0 < nhl -> 0 < hs -> 0 < b -> 0 < s ->
  exists Kont,
    SelfAttention_forward
      (mkSelfAttention hs
         (mkColumnParallelLinear (ws * (nhl * hs)) (ws * (nhl * hs)) false
            (chunk (nhl * hs) r (tab2 (ws * (nhl * hs)) (ws * (nhl * hs)) WQ))
            (chunk (nhl * hs) r (tab (ws * (nhl * hs)) BQ)))
         (mkColumnParallelLinear (ws * (nhl * hs)) (ws * (nhl * hs)) false
            (chunk (nhl * hs) r (tab2 (ws * (nhl * hs)) (ws * (nhl * hs)) WK))
            (chunk (nhl * hs) r (tab (ws * (nhl * hs)) BK)))
         (mkColumnParallelLinear (ws * (nhl * hs)) (ws * (nhl * hs)) false
            (chunk (nhl * hs) r (tab2 (ws * (nhl * hs)) (ws * (nhl * hs)) WV))
            (chunk (nhl * hs) r (tab (ws * (nhl * hs)) BV)))
         (mkRowParallelLinear (ws * (nhl * hs)) (ws * (nhl * hs)) true w
            (map (chunk (nhl * hs) r)
               (tab2 (ws * (nhl * hs)) (ws * (nhl * hs)) WO))
            (tab (ws * (nhl * hs)) BO))
         dr
         (mkAttentionCore hs (mkDropout 0 true) None (-10000)%R))
      (tab3 b s (ws * (nhl * hs)) X) g
    = Coll AllReduce
        (tab3 b s (ws * (nhl * hs)) (fun i j o =>
           sum (tab (nhl * hs) (fun f =>
             (context_fn hs (-10000) s
                (head_fn hs (linear_fn (ws * (nhl * hs)) X WQ BQ))
                (head_fn hs (linear_fn (ws * (nhl * hs)) X WK BK))
                (head_fn hs (linear_fn (ws * (nhl * hs)) X WV BV))
                i j (r * (nhl * hs) + f)%nat
              * WO o (r * (nhl * hs) + f)%nat)%R))))
        Kont /\
    forall F,
      Kont (tab3 b s (ws * (nhl * hs)) F)
      = Ret ((fst (run_dropout3 dr
                     (tab3 b s (ws * (nhl * hs)) (fun i j o => (F i j o + BO o)%R))
                     g),
              mkSelfAttention hs
                (mkColumnParallelLinear (ws * (nhl * hs)) (ws * (nhl * hs)) false
                   (chunk (nhl * hs) r (tab2 (ws * (nhl * hs)) (ws * (nhl * hs)) WQ))
                   (chunk (nhl * hs) r (tab (ws * (nhl * hs)) BQ)))
                (mkColumnParallelLinear (ws * (nhl * hs)) (ws * (nhl * hs)) false
                   (chunk (nhl * hs) r (tab2 (ws * (nhl * hs)) (ws * (nhl * hs)) WK))
                   (chunk (nhl * hs) r (tab (ws * (nhl * hs)) BK)))
                (mkColumnParallelLinear (ws * (nhl * hs)) (ws * (nhl * hs)) false
                   (chunk (nhl * hs) r (tab2 (ws * (nhl * hs)) (ws * (nhl * hs)) WV))
                   (chunk (nhl * hs) r (tab (ws * (nhl * hs)) BV)))
                (mkRowParallelLinear (ws * (nhl * hs)) (ws * (nhl * hs)) true w
                   (map (chunk (nhl * hs) r)
                      (tab2 (ws * (nhl * hs)) (ws * (nhl * hs)) WO))
                   (tab (ws * (nhl * hs)) BO))
                dr
                (mkAttentionCore hs (mkDropout 0 true)
                   (Some (tril_mask s s)) (-10000)%R)),
             snd (run_dropout3 dr
                    (tab3 b s (ws * (nhl * hs)) (fun i j o => (F i j o + BO o)%R))
                    g)).
Proof.
  intros Hr Hnhl Hhs Hb Hs.
  assert (Hc : 0 < nhl * hs) by nia.
  assert (Hdim : 0 < ws * (nhl * hs)) by nia.
  eexists. split.
  - unfold SelfAttention_forward, bind.
    rewrite SelfAttention_qkv_rank by assumption.
    cbn [pbind fst snd core_attention].
    rewrite AttentionCore_forward_tab;
      try assumption; try reflexivity; [| left; reflexivity].
    cbn [pbind fst snd set_core_attention dense sa_attention_head_size query key
           value dropout where_const].
    rewrite (RowParallelLinear_forward_shard ws r (nhl * hs)) by assumption.
    cbn [pbind].
    match goal with
    | |- Coll _ ?T _ = Coll _ ?T' _ => assert (HT : T = T')
    end.
    { apply tab3_ext. intros i j o _ _ _. rewrite dot_tab.
      apply sum_tab_ext. intros f _. f_equal.
      now apply context_fn_shard. }
    rewrite HT. reflexivity.
  - intros F. cbn beta. rewrite add_bias_tab by assumption.
    cbn [lift ret pbind fst snd dropout].
    rewrite Dropout_forward3_run. reflexivity.
Qed.

Lemma FeedForward_forward_rank_tab ws r cf dim b s X W1 B1 W2 B2 w act g :
  r < ws -> 0 < cf -> 0 < dim -> 0 < b -> 0 < s ->
  exists Kont,
    FeedForward_forward
      (mkFeedForward dim (ws * cf)
         (mkColumnParallelLinear dim (ws * cf) false
            (chunk cf r (tab2 (ws * cf) dim W1)) (chunk cf r (tab (ws * cf) B1)))
         (mkRowParallelLinear (ws * cf) dim true w
            (map (chunk cf r) (tab2 dim (ws * cf) W2)) (tab dim B2))
         act)
      (tab3 b s dim X) g
    = Coll AllReduce
        (tab3 b s dim (fun i j o =>
           sum (tab cf (fun f =>
             (act (linear_fn dim X W1 B1 i j (r * cf + f)%nat)
              * W2 o (r * cf + f)%nat)%R))))
        Kont /\
    forall F,
      Kont (tab3 b s dim F)
      = Ret (tab3 b s dim (fun i j o => (F i j o + B2 o)%R), g).
Proof.
  intros Hr Hcf Hdim Hb Hs. eexists. split.
  - unfold FeedForward_forward, bind.
    cbn [dense_h_to_4h dense_4h_to_h activation_func].
    rewrite (ColumnParallelLinear_forward_shard ws r cf) by assumption.
    cbn [pbind fst snd]. rewrite map3_tab3.
    rewrite (RowParallelLinear_forward_shard ws r cf) by assumption.
    cbn [pbind].
    match goal with
    | |- Coll _ ?T _ = Coll _ ?T' _ => assert (HT : T = T')
    end.
    { apply tab3_ext. intros i j o _ _ _. now rewrite dot_tab. }
    rewrite HT. reflexivity.
  - intros F. cbn beta. rewrite add_bias_tab by assumption. reflexivity.
Qed.

(** A choice among finitely many ranks. *)
Lemma finite_choice {A} (d : A) n (P : nat -> A -> Prop) :
  (forall r, r < n -> exists a, P r a) ->
  exists f, forall r, r < n -> P r (f r).
Proof.
  induction n as [| n IH]; intros H.
  - exists (fun _ => d). intros r Hr. lia.
  - destruct IH as [f Hf]; [intros r Hr; apply H; lia |].
    destruct (H n (Nat.lt_succ_diag_r n)) as [a Ha].
    exists (fun r => if r =? n then a else f r). intros r Hr.
    destruct (Nat.eqb_spec r n) as [-> | Hne]; [assumption | apply Hf; lia].
Qed.

(** A group whose ranks all reach an all-reduce of their partial products
    and go on with the reduced tensor. *)
Lemma run_ranks_reduce_then {A B} ws b s o (P : nat -> nat -> nat -> nat -> R)
    (prog : nat -> Proc A) (res : nat -> (nat -> nat -> nat -> R) -> A)
    (f : nat -> A -> Proc B) :
  0 < b -> 0 < s ->
  (forall r, r < ws ->
     exists Kont,
       prog r = Coll AllReduce (tab3 b s o (P r)) Kont /\
       forall F, Kont (tab3 b s o F) = Ret (res r F)) ->
  run_ranks (tab ws (fun r => pbind (prog r) (f r)))
  = run_ranks (tab ws (fun r =>
      f r (res r (fun i j l => sum (tab ws (fun r' => P r' i j l)))))).
Proof.
  intros Hb Hs H.
  destruct (finite_choice (fun _ : T3 => @Raise A RuntimeError) ws _ H) as [K HK].
  rewrite (tab_ext ws (fun r => pbind (prog r) (f r))
             (fun r => Coll AllReduce (tab3 b s o (P r))
                         (fun t => pbind (K r t) (f r)))).
  - rewrite run_ranks_allreduce by assumption. f_equal.
    apply tab_ext. intros r Hr. destruct (HK r Hr) as [_ HK2].
    now rewrite HK2.
  - intros r Hr. destruct (HK r Hr) as [HK1 _]. now rewrite HK1.
Qed.

(** ** One rank of a constructed layer *)

Lemma attn_params_shaped_inv dim ps :
  attn_params_shaped dim ps = true ->
  query_weight ps = tab2 dim dim (at2 (query_weight ps)) /\
  query_bias ps = tab dim (at1 (query_bias ps)) /\
  key_weight ps = tab2 dim dim (at2 (key_weight ps)) /\
  key_bias ps = tab dim (at1 (key_bias ps)) /\
  value_weight ps = tab2 dim dim (at2 (value_weight ps)) /\
  value_bias ps = tab dim (at1 (value_bias ps)) /\
  dense_weight ps = tab2 dim dim (at2 (dense_weight ps)) /\
  dense_bias ps = tab dim (at1 (dense_bias ps)).
Proof.
  unfold attn_params_shaped. intros H.
  do 7 (apply andb_prop in H as [H ?]).
  repeat split; (apply shape2_tab || apply shape1_tab); assumption.
Qed.

Lemma mlp_params_shaped_inv dim ffn ps :
  mlp_params_shaped dim ffn ps = true ->
  h_to_4h_weight ps = tab2 ffn dim (at2 (h_to_4h_weight ps)) /\
  h_to_4h_bias ps = tab ffn (at1 (h_to_4h_bias ps)) /\
  w_4h_to_h_weight ps = tab2 dim ffn (at2 (w_4h_to_h_weight ps)) /\
  w_4h_to_h_bias ps = tab dim (at1 (w_4h_to_h_bias ps)).
Proof.
  unfold mlp_params_shaped. intros H.
  do 3 (apply andb_prop in H as [H ?]).
  repeat split; (apply shape2_tab || apply shape1_tab); assumption.
Qed.

Lemma SelfAttention_forward_rank ws r nhl hs dim nh b s x ps d g :
  r < ws -> 0 < nhl -> 0 < hs -> 0 < b -> 0 < s ->
  dim = ws * (nhl * hs) -> nh = ws * nhl ->
  (0 <= d <= 1)%R ->
  has_shape3 b s dim x = true ->
  attn_params_shaped dim ps = true ->
  exists sa Kont,
    SelfAttention_init (mkWorld ws r) dim nh 0 d ps = Ok sa /\
    SelfAttention_forward sa x g
    = Coll AllReduce
        (tab3 b s dim (fun i j o =>
           sum (tab (nhl * hs) (fun f =>
             (context_fn hs (-10000) s
                (head_fn hs (projection dim x (query_weight ps) (query_bias ps)))
                (head_fn hs (projection dim x (key_weight ps) (key_bias ps)))
                (head_fn hs (projection dim x (value_weight ps) (value_bias ps)))
                i j (r * (nhl * hs) + f)%nat
              * at2 (dense_weight ps) o (r * (nhl * hs) + f)%nat)%R))))
        Kont /\
    forall F,
      Kont (tab3 b s dim F)
      = Ret ((fst (run_dropout3 (mkDropout d true)
                     (tab3 b s dim
                        (fun i j o => (F i j o + at1 (dense_bias ps) o)%R)) g),
              set_core_attention sa
                (set_causal_mask (core_attention sa) (tril_mask s s))),
             snd (run_dropout3 (mkDropout d true)
                    (tab3 b s dim
                       (fun i j o => (F i j o + at1 (dense_bias ps) o)%R)) g)).
Proof.
  intros Hr Hnhl Hhs Hb Hs Hdim Hnh Hd Hx Hps.
  assert (Hws : 0 < ws) by lia.
  rewrite SelfAttention_init_ok; simpl world_size; simpl rank;
    [| subst nh; nia
     | subst dim; rewrite Nat.mul_comm; apply Nat.Div0.mod_mul
     | lra | assumption].
  assert (Hc : dim / ws = nhl * hs)
    by (subst dim; rewrite Nat.mul_comm; apply Nat.div_mul; lia).
  assert (Hh : dim / nh = hs).
  { subst dim nh. replace (ws * (nhl * hs)) with (hs * (ws * nhl)) by ring.
    apply Nat.div_mul. nia. }
  rewrite Hc, Hh.
  apply attn_params_shaped_inv in Hps
    as (HWq & Hbq & HWk & Hbk & HWv & Hbv & HWo & Hbo).
  destruct (SelfAttention_forward_rank_tab ws r nhl hs b s (at3 x)
              (at2 (query_weight ps)) (at1 (query_bias ps))
              (at2 (key_weight ps)) (at1 (key_bias ps))
              (at2 (value_weight ps)) (at1 (value_bias ps))
              (at2 (dense_weight ps)) (at1 (dense_bias ps))
              (mkWorld ws r) (mkDropout d true) g Hr Hnhl Hhs Hb Hs)
    as (Kont & H1 & H2).
  rewrite <- Hdim in H1, H2.
  rewrite <- (shape3_tab _ _ _ _ Hx), <- HWq, <- Hbq, <- HWk, <- Hbk,
    <- HWv, <- Hbv, <- HWo, <- Hbo in H1.
  rewrite <- HWq, <- Hbq, <- HWk, <- Hbk, <- HWv, <- Hbv, <- HWo, <- Hbo in H2.
  eexists. exists Kont. split; [reflexivity |]. split; [exact H1 |].
  intros F. rewrite H2. reflexivity.
Qed.

Lemma FeedForward_forward_rank ws r cf dim ratio b s x ps g :
  r < ws -> 0 < cf -> 0 < dim -> 0 < b -> 0 < s ->
  dim * ratio = ws * cf ->
  has_shape3 b s dim x = true ->
  mlp_params_shaped dim (dim * ratio) ps = true ->
  exists ff Kont,
    FeedForward_init (mkWorld ws r) dim (Some ratio) ps = Ok ff /\
    FeedForward_forward ff x g
    = Coll AllReduce
        (tab3 b s dim (fun i j o =>
           sum (tab cf (fun f =>
             (F_gelu (projection dim x (h_to_4h_weight ps) (h_to_4h_bias ps)
                      i j (r * cf + f)%nat)
              * at2 (w_4h_to_h_weight ps) o (r * cf + f)%nat)%R))))
        Kont /\
    forall F,
      Kont (tab3 b s dim F)
      = Ret (tab3 b s dim (fun i j o => (F i j o + at1 (w_4h_to_h_bias ps) o)%R), g).
Proof.
  intros Hr Hcf Hdim Hb Hs Hffn Hx Hps.
  rewrite FeedForward_init_ok; simpl world_size; simpl rank;
    [| rewrite Hffn, Nat.mul_comm; apply Nat.Div0.mod_mul].
  apply mlp_params_shaped_inv in Hps as (HW1 & Hb1 & HW2 & Hb2).
  rewrite Hffn in *.
  assert (Hc : ws * cf / ws = cf) by (rewrite Nat.mul_comm; apply Nat.div_mul; lia).
  rewrite Hc.
  destruct (FeedForward_forward_rank_tab ws r cf dim b s (at3 x)
              (at2 (h_to_4h_weight ps)) (at1 (h_to_4h_bias ps))
              (at2 (w_4h_to_h_weight ps)) (at1 (w_4h_to_h_bias ps))
              (mkWorld ws r) F_gelu g Hr Hcf Hdim Hb Hs) as (Kont & H1 & H2).
  rewrite <- (shape3_tab _ _ _ _ Hx), <- HW1, <- Hb1, <- HW2, <- Hb2 in H1.
  eexists. exists Kont. split; [reflexivity |]. split; [exact H1 | exact H2].
Qed.

(** ** The group against the dense computation *)

Section Group.
Variables (ws nhl hs dim nh b s : nat) (x : T3).
Hypotheses (Hws : 0 < ws) (Hnhl : 0 < nhl) (Hhs : 0 < hs) (Hb : 0 < b) (Hs : 0 < s).
Hypotheses (Hdim : dim = ws * (nhl * hs)) (Hnh : nh = ws * nhl).
Hypothesis Hx : has_shape3 b s dim x = true.

Lemma SelfAttention_group_init ps d :
  (0 <= d <= 1)%R ->
  attn_params_shaped dim ps = true ->
  exists sas, forall r, r < ws ->
    SelfAttention_init (mkWorld ws r) dim nh 0 d ps = Ok (sas r).
Proof.
  intros Hd Hps.
  destruct (SelfAttention_forward_rank ws 0 nhl hs dim nh b s x ps d
              (mkGenerator 0 (fun _ => 0%R))
              Hws Hnhl Hhs Hb Hs Hdim Hnh Hd Hx Hps) as (sa0 & _ & _).
  apply (finite_choice sa0 ws
           (fun r sa => SelfAttention_init (mkWorld ws r) dim nh 0 d ps = Ok sa)).
  intros r Hr.
  destruct (SelfAttention_forward_rank ws r nhl hs dim nh b s x ps d
              (mkGenerator 0 (fun _ => 0%R))
              Hr Hnhl Hhs Hb Hs Hdim Hnh Hd Hx Hps) as (sa & _ & Hsa & _).
  eauto.
Qed.

Lemma SelfAttention_group {B} ps d gs sas
    (f : nat -> (T3 * SelfAttention) * Generator -> Proc B) :
  (0 <= d <= 1)%R ->
  attn_params_shaped dim ps = true ->
  (forall r, r < ws ->
     SelfAttention_init (mkWorld ws r) dim nh 0 d ps = Ok (sas r)) ->
  run_ranks (tab ws (fun r =>
    pbind (SelfAttention_forward (sas r) x (gs r)) (f r)))
  = run_ranks (tab ws (fun r =>
      f r ((fst (run_dropout3 (mkDropout d true)
                   (tab3 b s dim (attention_out dim hs s x ps)) (gs r)),
            set_core_attention (sas r)
              (set_causal_mask (core_attention (sas r)) (tril_mask s s))),
           snd (run_dropout3 (mkDropout d true)
                  (tab3 b s dim (attention_out dim hs s x ps)) (gs r))))).
Proof.
  intros Hd Hps Hsas.
  assert (HY : tab3 b s dim (fun i j o =>
                 (sum (tab ws (fun r' =>
                    sum (tab (nhl * hs) (fun f =>
                      (context_fn hs (-10000) s
                         (head_fn hs (projection dim x (query_weight ps) (query_bias ps)))
                         (head_fn hs (projection dim x (key_weight ps) (key_bias ps)))
                         (head_fn hs (projection dim x (value_weight ps) (value_bias ps)))
                         i j (r' * (nhl * hs) + f)%nat
                       * at2 (dense_weight ps) o (r' * (nhl * hs) + f)%nat)%R))))
                  + at1 (dense_bias ps) o)%R)
               = tab3 b s dim (attention_out dim hs s x ps)).
  { apply tab3_ext. intros i j o _ _ _. unfold attention_out. f_equal.
    rewrite Hdim at 1. now rewrite sum_tab_blocks. }
  rewrite <- HY.
  apply (run_ranks_reduce_then ws b s dim
           (fun r i j o =>
              sum (tab (nhl * hs) (fun f =>
                (context_fn hs (-10000) s
                   (head_fn hs (projection dim x (query_weight ps) (query_bias ps)))
                   (head_fn hs (projection dim x (key_weight ps) (key_bias ps)))
                   (head_fn hs (projection dim x (value_weight ps) (value_bias ps)))
                   i j (r * (nhl * hs) + f)%nat
                 * at2 (dense_weight ps) o (r * (nhl * hs) + f)%nat)%R)))
           (fun r => SelfAttention_forward (sas r) x (gs r))
           (fun r F =>
              ((fst (run_dropout3 (mkDropout d true)
                       (tab3 b s dim
                          (fun i j o => (F i j o + at1 (dense_bias ps) o)%R))
                       (gs r)),
                set_core_attention (sas r)
                  (set_causal_mask (core_attention (sas r)) (tril_mask s s))),
               snd (run_dropout3 (mkDropout d true)
                      (tab3 b s dim
                         (fun i j o => (F i j o + at1 (dense_bias ps) o)%R))
                      (gs r))))
           f Hb Hs).
  intros r Hr.
  destruct (SelfAttention_forward_rank ws r nhl hs dim nh b s x ps d (gs r)
              Hr Hnhl Hhs Hb Hs Hdim Hnh Hd Hx Hps) as (sa & Kont & Hsa & H1 & H2).
  rewrite (Hsas r Hr) in Hsa. injection Hsa as <-.
  exists Kont. split; assumption.
Qed.

End Group.

Lemma FeedForward_group_init ws cf dim ratio ps :
  0 < ws -> dim * ratio = ws * cf ->
  exists ffs, forall r, r < ws ->
    FeedForward_init (mkWorld ws r) dim (Some ratio) ps = Ok (ffs r).
Proof.
  intros Hws Hffn.
  assert (Hmod : forall r, (dim * ratio) mod world_size (mkWorld ws r) = 0)
    by (intros r; simpl; rewrite Hffn, Nat.mul_comm; apply Nat.Div0.mod_mul).
  eexists (fun r => _). intros r Hr.
  rewrite FeedForward_init_ok by apply Hmod. reflexivity.
Qed.

Lemma FeedForward_group {B} ws cf dim ratio b s x ps gs ffs
    (f : nat -> T3 * Generator -> Proc B) :
  0 < ws -> 0 < cf -> 0 < dim -> 0 < b -> 0 < s ->
  dim * ratio = ws * cf ->
  has_shape3 b s dim x = true ->
  mlp_params_shaped dim (dim * ratio) ps = true ->
  (forall r, r < ws ->
     FeedForward_init (mkWorld ws r) dim (Some ratio) ps = Ok (ffs r)) ->
  run_ranks (tab ws (fun r =>
    pbind (FeedForward_forward (ffs r) x (gs r)) (f r)))
  = run_ranks (tab ws (fun r =>
      f r (tab3 b s dim (mlp_out F_gelu dim (dim * ratio) x ps), gs r))).
Proof.
  intros Hws Hcf Hdim Hb Hs Hffn Hx Hps Hffs.
  assert (HY : tab3 b s dim (fun i j o =>
                 (sum (tab ws (fun r' =>
                    sum (tab cf (fun f =>
                      (F_gelu (projection dim x (h_to_4h_weight ps) (h_to_4h_bias ps)
                               i j (r' * cf + f)%nat)
                       * at2 (w_4h_to_h_weight ps) o (r' * cf + f)%nat)%R))))
                  + at1 (w_4h_to_h_bias ps) o)%R)
               = tab3 b s dim (mlp_out F_gelu dim (dim * ratio) x ps)).
  { apply tab3_ext. intros i j o _ _ _. unfold mlp_out. f_equal.
    rewrite Hffn. now rewrite sum_tab_blocks. }
  rewrite <- HY.
  apply (run_ranks_reduce_then ws b s dim
           (fun r i j o =>
              sum (tab cf (fun f =>
                (F_gelu (projection dim x (h_to_4h_weight ps) (h_to_4h_bias ps)
                         i j (r * cf + f)%nat)
                 * at2 (w_4h_to_h_weight ps) o (r * cf + f)%nat)%R)))
           (fun r => FeedForward_forward (ffs r) x (gs r))
           (fun r F =>
              (tab3 b s dim (fun i j o => (F i j o + at1 (w_4h_to_h_bias ps) o)%R),
               gs r))
           f Hb Hs).
  intros r Hr.
  destruct (FeedForward_forward_rank ws r cf dim ratio b s x ps (gs r)
              Hr Hcf Hdim Hb Hs Hffn Hx Hps) as (ff & Kont & Hff & H1 & H2).
  rewrite (Hffs r Hr) in Hff. injection Hff as <-.
  exists Kont. split; assumption.
Qed.

(** The composition on a group of any size: every rank returns the dense
    result, which does not depend on the size of the group. *)
Lemma attn_then_mlp_group ws nhl hs dim nh ratio d b s x aps fps g :
  0 < ws -> 0 < nhl -> 0 < hs -> 0 < ratio -> 0 < b -> 0 < s ->
  dim = ws * (nhl * hs) -> nh = ws * nhl ->
  (0 <= d <= 1)%R ->
  has_shape3 b s dim x = true ->
  attn_params_shaped dim aps = true ->
  mlp_params_shaped dim (dim * ratio) fps = true ->
  exists sas ffs,
    (forall r, r < ws ->
       SelfAttention_init (mkWorld ws r) dim nh 0 d aps = Ok (sas r) /\
       FeedForward_init (mkWorld ws r) dim (Some ratio) fps = Ok (ffs r)) /\
    run_ranks (tab ws (fun r => attn_then_mlp (sas r) (ffs r) x g))
    = Ok (tab ws (fun r =>
        ((tab3 b s dim
            (mlp_out F_gelu dim (dim * ratio)
               (fst (run_dropout3 (mkDropout d true)
                       (tab3 b s dim (attention_out dim hs s x aps)) g))
               fps),
          set_core_attention (sas r)
            (set_causal_mask (core_attention (sas r)) (tril_mask s s))),
         snd (run_dropout3 (mkDropout d true)
                (tab3 b s dim (attention_out dim hs s x aps)) g)))).
Proof.
  intros Hws Hnhl Hhs Hratio Hb Hs Hdim Hnh Hd Hx Haps Hfps.
  assert (Hffn : dim * ratio = ws * (nhl * hs * ratio)) by (subst dim; ring).
  assert (Hdim0 : 0 < dim) by (subst dim; nia).
  assert (Hcf : 0 < nhl * hs * ratio) by nia.
  destruct (SelfAttention_group_init ws nhl hs dim nh b s x
              Hws Hnhl Hhs Hb Hs Hdim Hnh Hx aps d Hd Haps) as [sas Hsas].
  destruct (FeedForward_group_init ws (nhl * hs * ratio) dim ratio fps
              Hws Hffn) as [ffs Hffs].
  exists sas, ffs. split; [intros r Hr; split; [now apply Hsas | now apply Hffs] |].
  etransitivity.
  { apply (SelfAttention_group ws nhl hs dim nh b s x
             Hnhl Hhs Hb Hs Hdim Hnh Hx aps d (fun _ => g) sas
             (fun r ag =>
                pbind (FeedForward_forward (ffs r) (fst (fst ag)) (snd ag))
                  (fun yg => Ret ((fst yg, snd (fst ag)), snd yg)))
             Hd Haps Hsas). }
  cbn [fst snd].
  etransitivity.
  { apply (FeedForward_group ws (nhl * hs * ratio) dim ratio b s
             (fst (run_dropout3 (mkDropout d true)
                     (tab3 b s dim (attention_out dim hs s x aps)) g))
             fps
             (fun _ => snd (run_dropout3 (mkDropout d true)
                              (tab3 b s dim (attention_out dim hs s x aps)) g))
             ffs
             (fun r yg =>
                Ret ((fst yg,
                      set_core_attention (sas r)
                        (set_causal_mask (core_attention (sas r)) (tril_mask s s))),
                     snd yg)));
      try assumption.
    apply run_dropout3_shape, has_shape3_tab. }
  cbn [fst snd]. apply run_ranks_ret.
Qed.

(** C1 (as amended).  For a world size in {1, 2, 4}, [num_heads] a multiple
    of the world size, [dim] a multiple of [num_heads], attention dropout
    probability 0, any output dropout probability and one generator state
    on every rank, an input of shape [batch, sequence, dim] and logical
    weights of matching shapes: the ranks of the sharded group, each with
    its slice of the weights, all return from [FeedForward] applied to the
    output of [SelfAttention] the tensor that the unsharded model of world
    size 1 returns from the same weights, input and generator state. *)
Theorem sharded_equals_dense ws dim nh ratio d b s x aps fps g :
  In ws [1; 2; 4] ->
  0 < dim -> 0 < nh -> 0 < ratio -> 0 < b -> 0 < s ->
  dim mod nh = 0 -> nh mod ws = 0 ->
  (0 <= d <= 1)%R ->
  has_shape3 b s dim x = true ->
  attn_params_shaped dim aps = true ->
  mlp_params_shaped dim (dim * ratio) fps = true ->
  exists y g' sa1 ff1 sa1' sas ffs sas',
    SelfAttention_init (mkWorld 1 0) dim nh 0 d aps = Ok sa1 /\
    FeedForward_init (mkWorld 1 0) dim (Some ratio) fps = Ok ff1 /\
    run_ranks [attn_then_mlp sa1 ff1 x g] = Ok [((y, sa1'), g')] /\
    (forall r, r < ws ->
       SelfAttention_init (mkWorld ws r) dim nh 0 d aps = Ok (sas r) /\
       FeedForward_init (mkWorld ws r) dim (Some ratio) fps = Ok (ffs r)) /\
    run_ranks (tab ws (fun r => attn_then_mlp (sas r) (ffs r) x g))
    = Ok (tab ws (fun r => ((y, sas' r), g'))).
Proof.
  intros Hin Hdim Hnh Hratio Hb Hs Hdn Hnw Hd Hx Haps Hfps.
  assert (Hws : 0 < ws) by (simpl in Hin; lia).
  apply Nat.Div0.mod_divides in Hdn as [hs Hhs].
  apply Nat.Div0.mod_divides in Hnw as [nhl Hnhl].
  assert (Hhs0 : 0 < hs) by nia.
  assert (Hnhl0 : 0 < nhl) by nia.
  destruct (attn_then_mlp_group 1 nh hs dim nh ratio d b s x aps fps g)
    as (sas1 & ffs1 & Hinit1 & Hrun1); try assumption; try lia.
  destruct (attn_then_mlp_group ws nhl hs dim nh ratio d b s x aps fps g)
    as (sas & ffs & Hinit & Hrun); try assumption; try nia.
  destruct (Hinit1 0 Nat.lt_0_1) as [Hsa1 Hff1].
  do 2 eexists. exists (sas1 0), (ffs1 0). eexists. exists sas, ffs. eexists.
  split; [exact Hsa1 |]. split; [exact Hff1 |].
  split; [exact Hrun1 |]. split; [exact Hinit |]. exact Hrun.
Qed.

Lemma sharded_equals_dense_witness :
  exists y g' sa1 ff1 sa1' sas ffs sas',
    SelfAttention_init (mkWorld 1 0) 2 2 0 0 (ones_attn 2) = Ok sa1 /\
    FeedForward_init (mkWorld 1 0) 2 (Some 1) (ones_mlp 2 2) = Ok ff1 /\
    run_ranks [attn_then_mlp sa1 ff1 x_dim2 gen0] = Ok [((y, sa1'), g')] /\
    (forall r, r < 2 ->
       SelfAttention_init (mkWorld 2 r) 2 2 0 0 (ones_attn 2) = Ok (sas r) /\
       FeedForward_init (mkWorld 2 r) 2 (Some 1) (ones_mlp 2 2)
       = Ok (ffs r)) /\
    run_ranks (tab 2 (fun r => attn_then_mlp (sas r) (ffs r) x_dim2 gen0))
    = Ok (tab 2 (fun r => ((y, sas' r), g'))).
Proof.
  apply (sharded_equals_dense 2 2 2 1 0 1 1 x_dim2
           (ones_attn 2) (ones_mlp 2 2) gen0);
    try lia; try reflexivity; try lra.
  simpl. auto.
Defined.


(** ** The activation *)

Lemma F_gelu_0 : F_gelu 0 = 0%R.
Proof. unfold F_gelu. ring. Qed.

Lemma Phi_half x : (0 <= x)%R -> (1 / 2 <= Phi x)%R.
Proof.
  intros Hx. unfold Phi.
  assert (0 <= RiemannInt (gauss_integrable 0 x))%R.
  { pose proof (RiemannInt_P19 (RiemannInt_P14 0 x 0) (gauss_integrable 0 x) Hx)
      as H.
    rewrite RiemannInt_P15 in H.
    replace (0 * (x - 0))%R with 0%R in H by ring. apply H.
    intros t _. unfold fct_cte, gauss. left. apply exp_pos. }
  assert (0 < / sqrt (2 * PI))%R.
  { apply Rinv_0_lt_compat. apply sqrt_lt_R0. pose proof PI_RGT_0. lra. }
  nra.
Qed.

Lemma F_gelu_pos x : (0 < x)%R -> (0 < F_gelu x)%R.
Proof.
  intros Hx. unfold F_gelu. pose proof (Phi_half x (Rlt_le _ _ Hx)). nra.
Qed.

Ltac decide_reals :=
  repeat match goal with
  | |- context [Req_dec_T ?a ?b] => destruct (Req_dec_T a b); [exfalso; lra |]
  | |- context [Rlt_dec ?a ?b] =>
      destruct (Rlt_dec a b); [try (exfalso; lra) | try (exfalso; lra)]
  end.

Ltac run_with_dropout :=
  unfold attn_then_mlp, SelfAttention_forward, bind;
  cbn -[Dropout_forward4 Dropout_forward3 F_gelu Rlt_dec Req_dec_T];
  unfold Dropout_forward4, F_dropout; cbn [negb training p];
  decide_reals; unfold sample, bind;
  cbn -[Dropout_forward3 F_gelu Rlt_dec Req_dec_T];
  decide_reals;
  repeat (rewrite Dropout_forward3_zero by reflexivity;
          cbn -[Dropout_forward3 F_gelu Rlt_dec Req_dec_T]).

(** Two configurations in which the sharded group does not return the
    dense result.  With 3 heads on 2 ranks ([dim = 6] is a multiple of
    both), the local width 3 is not a multiple of the head size 2: the view
    of the local projections into heads raises on every rank, where the
    unsharded model returns.  With attention dropout 1/2 and one generator
    state on all ranks, the unsharded model draws the noise of the second
    head from the second sample and drops it, where rank 1 of two draws it
    from the first sample and keeps it: the dense output is 0 and the
    sharded output is positive. *)
Lemma sharded_differs_from_dense :
  (
  6 mod 3 = 0 /\ 6 mod 2 = 0 /\
  (exists y g' sa1 ff1 sa1',
     SelfAttention_init (mkWorld 1 0) 6 3 0 0 (ones_attn 6) = Ok sa1 /\
     FeedForward_init (mkWorld 1 0) 6 (Some 1) (ones_mlp 6 6) = Ok ff1 /\
     run_ranks [attn_then_mlp sa1 ff1 x_dim6 gen0] = Ok [((y, sa1'), g')]) /\
  (exists sa0 ff0 sa1 ff1,
     SelfAttention_init (mkWorld 2 0) 6 3 0 0 (ones_attn 6) = Ok sa0 /\
     FeedForward_init (mkWorld 2 0) 6 (Some 1) (ones_mlp 6 6) = Ok ff0 /\
     SelfAttention_init (mkWorld 2 1) 6 3 0 0 (ones_attn 6) = Ok sa1 /\
     FeedForward_init (mkWorld 2 1) 6 (Some 1) (ones_mlp 6 6) = Ok ff1 /\
     attn_then_mlp sa0 ff0 x_dim6 gen0 = Raise RuntimeError /\
     attn_then_mlp sa1 ff1 x_dim6 gen0 = Raise RuntimeError /\
     run_ranks [attn_then_mlp sa0 ff0 x_dim6 gen0; attn_then_mlp sa1 ff1 x_dim6 gen0]
     = Err RuntimeError)
  ) /\
  (
  exists sa1 ff1 y1 sa1' g1' sa_0 ff_0 sa_1 ff_1 y2 sa_0' sa_1' g2',
    SelfAttention_init (mkWorld 1 0) 2 2 (1 / 2) 0 second_head_attn = Ok sa1 /\
    FeedForward_init (mkWorld 1 0) 2 (Some 1) (ones_mlp 2 2) = Ok ff1 /\
    run_ranks [attn_then_mlp sa1 ff1 x_dim2 gen_keep_drop]
    = Ok [((y1, sa1'), g1')] /\
    SelfAttention_init (mkWorld 2 0) 2 2 (1 / 2) 0 second_head_attn = Ok sa_0 /\
    FeedForward_init (mkWorld 2 0) 2 (Some 1) (ones_mlp 2 2) = Ok ff_0 /\
    SelfAttention_init (mkWorld 2 1) 2 2 (1 / 2) 0 second_head_attn = Ok sa_1 /\
    FeedForward_init (mkWorld 2 1) 2 (Some 1) (ones_mlp 2 2) = Ok ff_1 /\
    run_ranks [attn_then_mlp sa_0 ff_0 x_dim2 gen_keep_drop;
               attn_then_mlp sa_1 ff_1 x_dim2 gen_keep_drop]
    = Ok [((y2, sa_0'), g2'); ((y2, sa_1'), g2')] /\
    at3 y1 0 0 0 = 0%R /\
    (0 < at3 y2 0 0 0)%R
  ).
Proof.
  split.
  {
    split; [reflexivity |]. split; [reflexivity |]. split.
    - destruct (attn_then_mlp_group 1 3 2 6 3 1 0 1 1 x_dim6
                  (ones_attn 6) (ones_mlp 6 6) gen0)
        as (sas & ffs & Hinit & Hrun); try lia; try reflexivity; try lra.
      destruct (Hinit 0 Nat.lt_0_1) as [Hsa Hff].
      do 2 eexists. exists (sas 0), (ffs 0). eexists.
      split; [exact Hsa |]. split; [exact Hff |]. exact Hrun.
    - do 4 eexists.
      rewrite !SelfAttention_init_ok, !FeedForward_init_ok
        by (try reflexivity; try lia; try lra).
      split; [reflexivity |]. split; [reflexivity |].
      split; [reflexivity |]. split; [reflexivity |].
      assert (H0 : forall r, r < 2 ->
                attn_then_mlp
                  (mkSelfAttention (6 / 3)
                     (mkColumnParallelLinear 6 6 false
                        (chunk (6 / 2) r (query_weight (ones_attn 6)))
                        (chunk (6 / 2) r (query_bias (ones_attn 6))))
                     (mkColumnParallelLinear 6 6 false
                        (chunk (6 / 2) r (key_weight (ones_attn 6)))
                        (chunk (6 / 2) r (key_bias (ones_attn 6))))
                     (mkColumnParallelLinear 6 6 false
                        (chunk (6 / 2) r (value_weight (ones_attn 6)))
                        (chunk (6 / 2) r (value_bias (ones_attn 6))))
                     (mkRowParallelLinear 6 6 true (mkWorld 2 r)
                        (map (chunk (6 / 2) r) (dense_weight (ones_attn 6)))
                        (dense_bias (ones_attn 6)))
                     (mkDropout 0 true)
                     (mkAttentionCore (6 / 3) (mkDropout 0 true) None (-10000)%R))
                  (mkFeedForward 6 (6 * 1)
                     (mkColumnParallelLinear 6 (6 * 1) false
                        (chunk (6 * 1 / 2) r (h_to_4h_weight (ones_mlp 6 6)))
                        (chunk (6 * 1 / 2) r (h_to_4h_bias (ones_mlp 6 6))))
                     (mkRowParallelLinear (6 * 1) 6 true (mkWorld 2 r)
                        (map (chunk (6 * 1 / 2) r) (w_4h_to_h_weight (ones_mlp 6 6)))
                        (w_4h_to_h_bias (ones_mlp 6 6)))
                     F_gelu)
                  x_dim6 gen0
                = Raise RuntimeError).
      { intros r Hr. destruct r as [| [| r]]; [reflexivity | reflexivity | lia]. }
      simpl world_size. simpl rank.
      rewrite (H0 0), (H0 1) by lia. auto.
  }
  {
    do 13 eexists.
    rewrite !SelfAttention_init_ok, !FeedForward_init_ok
      by (try reflexivity; try lia; lra).
    split; [reflexivity |]. split; [reflexivity |]. split.
    { run_with_dropout. reflexivity. }
    split; [reflexivity |]. split; [reflexivity |].
    split; [reflexivity |]. split; [reflexivity |]. split.
    { run_with_dropout. reflexivity. }
    split.
    - cbn [at3 at2 at1 nth].
      repeat match goal with
      | |- context [F_gelu ?h] =>
          lazymatch h with
          | 0%R => fail
          | _ => replace h with 0%R by (unfold Rdiv; ring)
          end
      end.
      rewrite F_gelu_0. ring.
    - cbn [at3 at2 at1 nth].
      match goal with
      | |- context [exp ?a] => pose proof (exp_pos a) as He; set (e := exp a) in *
      end.
      match goal with
      | |- context [F_gelu ?h] =>
          replace h with 4%R by (field; lra)
      end.
      pose proof (F_gelu_pos 4 ltac:(lra)). lra.
  }
Qed.

(** ** Determinism *)

























Lemma stack_1_init :
  GPT_init (mkWorld 1 0) 1 2 2 (Some 1) 0 0 (fun _ => const_params 2 2 1%R)
  = Ok stack_1.
Proof.
  destruct (GPT_init_ok (mkWorld 1 0) 1 2 2 (Some 1) 0 0
              (fun _ => const_params 2 2 1%R)) as (m & H & _);
    try (simpl; lia); try lra.
  unfold stack_1. rewrite H. reflexivity.
Qed.


(** ** The block *)

(** A single process is a group of one rank. *)
Lemma run_ranks_alone {A} (pr : Proc A) :
  run_ranks [pr] = rbind (exec alone pr) (fun a => Ok [a]).
Proof.
  simpl. induction pr as [a | e | op t k IH]; simpl; try reflexivity.
  destruct op; simpl; apply IH.
Qed.

(** ** The head split of [SelfAttention] and the wiring of [FeedForward] *)



(** ** The block and the stack on a group *)

Lemma pbind_assoc {A B C} (p : Proc A) (f : A -> Proc B) (h : B -> Proc C) :
  pbind (pbind p f) h = pbind p (fun a => pbind (f a) h).
Proof.
  induction p as [a | e | op t k IH]; simpl; try reflexivity.
  f_equal. apply functional_extensionality. exact IH.
Qed.

Lemma layer_norm1_tab eps dim W Bf v :
  layer_norm1 eps (tab dim W) (tab dim Bf) (tab dim v)
  = tab dim (fun l =>
      let mu := (sum (tab dim v) / INR dim)%R in
      let var := (sum (tab dim (fun l' => ((v l' - mu) * (v l' - mu))%R))
                  / INR dim)%R in
      ((v l - mu) / sqrt (var + eps) * W l + Bf l)%R).
Proof.
  unfold layer_norm1. rewrite length_tab, !map_tab, !zip_with_tab.
  reflexivity.
Qed.

Lemma LayerNorm_forward_tab3 b s dim e W Bf X :
  0 < b -> 0 < s ->
  LayerNorm_forward (mkLayerNorm dim e (tab dim W) (tab dim Bf)) (tab3 b s dim X)
  = Ok (tab3 b s dim (fun i j l =>
      let mu := (sum (tab dim (X i j)) / INR dim)%R in
      let var := (sum (tab dim (fun l' => ((X i j l' - mu) * (X i j l' - mu))%R))
                  / INR dim)%R in
      ((X i j l - mu) / sqrt (var + e) * W l + Bf l)%R)).
Proof.
  intros Hb Hs. unfold LayerNorm_forward.
  cbn [normalized_shape eps ln_weight ln_bias].
  destruct (sizes_tab3 b s dim X Hb Hs) as (_ & _ & ->).
  rewrite Nat.eqb_refl. f_equal.
  unfold tab3, tab2. rewrite map_tab. apply tab_ext. intros i _. cbv beta.
  rewrite map_tab. apply tab_ext. intros j _. cbv beta.
  apply layer_norm1_tab.
Qed.

Lemma LayerNorm_forward_tab b s dim e w bias x :
  0 < b -> 0 < s ->
  has_shape3 b s dim x = true ->
  has_shape1 dim w = true -> has_shape1 dim bias = true ->
  LayerNorm_forward (mkLayerNorm dim e w bias) x
  = Ok (tab3 b s dim (norm_out dim e w bias x)).
Proof.
  intros Hb Hs Hx Hw Hbias.
  pose proof (shape3_tab _ _ _ _ Hx) as Ex.
  pose proof (shape1_tab _ _ Hw) as Ew.
  pose proof (shape1_tab _ _ Hbias) as Eb.
  replace (LayerNorm_forward (mkLayerNorm dim e w bias) x)
    with (LayerNorm_forward
            (mkLayerNorm dim e (tab dim (at1 w)) (tab dim (at1 bias)))
            (tab3 b s dim (at3 x)))
    by (rewrite <- Ex, <- Ew, <- Eb; reflexivity).
  now rewrite LayerNorm_forward_tab3.
Qed.

Lemma block_params_shaped_inv dim ffn ps :
  block_params_shaped dim ffn ps = true ->
  has_shape1 dim (norm1_weight ps) = true /\
  has_shape1 dim (norm1_bias ps) = true /\
  has_shape1 dim (norm2_weight ps) = true /\
  has_shape1 dim (norm2_bias ps) = true /\
  attn_params_shaped dim (attn_params ps) = true /\
  mlp_params_shaped dim ffn (mlp_params ps) = true.
Proof.
  unfold block_params_shaped. intros H.
  do 5 (apply andb_prop in H as [H ?]). auto 10.
Qed.

Lemma add_shaped b s dim x y :
  0 < b -> 0 < s ->
  has_shape3 b s dim x = true -> has_shape3 b s dim y = true ->
  add x y = Ok (tab3 b s dim (fun i j o => (at3 x i j o + at3 y i j o)%R)).
Proof.
  intros Hb Hs Hx Hy.
  rewrite (shape3_tab _ _ _ _ Hx) at 1. rewrite (shape3_tab _ _ _ _ Hy) at 1.
  now apply add_tab.
Qed.

Lemma GPTLayer_group {B} ws nhl hs dim nh ratio d b s x ps g layers
    (f : nat -> (T3 * GPTLayer) * Generator -> Proc B) :
  0 < ws -> 0 < nhl -> 0 < hs -> 0 < ratio -> 0 < b -> 0 < s ->
  dim = ws * (nhl * hs) -> nh = ws * nhl ->
  (0 <= d <= 1)%R ->
  has_shape3 b s dim x = true ->
  block_params_shaped dim (dim * ratio) ps = true ->
  (forall r, r < ws ->
     GPTLayer_init (mkWorld ws r) dim nh (Some ratio) 0 d ps = Ok (layers r)) ->
  run_ranks (tab ws (fun r => pbind (GPTLayer_forward (layers r) x g) (f r)))
  = run_ranks (tab ws (fun r =>
      f r ((fst (block_out b s dim hs ratio d ps x g), with_mask s (layers r)),
           snd (block_out b s dim hs ratio d ps x g)))).
Proof.
  intros Hws Hnhl Hhs Hratio Hb Hs Hdim Hnh Hd Hx Hps Hlayers.
  apply block_params_shaped_inv in Hps as (Hw1 & Hb1 & Hw2 & Hb2 & Haps & Hfps).
  assert (Hl : forall r, r < ws ->
            norm1 (layers r)
            = mkLayerNorm dim (/ 1000000) (norm1_weight ps) (norm1_bias ps) /\
            norm2 (layers r)
            = mkLayerNorm dim (/ 1000000) (norm2_weight ps) (norm2_bias ps) /\
            SelfAttention_init (mkWorld ws r) dim nh 0 d (attn_params ps)
            = Ok (attn (layers r)) /\
            FeedForward_init (mkWorld ws r) dim (Some ratio) (mlp_params ps)
            = Ok (mlp (layers r))).
  { intros r Hr.
    destruct (GPTLayer_init_ok (mkWorld ws r) dim nh (Some ratio) 0 d ps)
      as (a & m & Ha & Hm & Hi);
      [subst nh; nia
      | subst dim; simpl; rewrite Nat.mul_comm; apply Nat.Div0.mod_mul
      | lra | assumption |].
    rewrite (Hlayers r Hr) in Hi. injection Hi as ->. simpl. auto. }
  unfold block_out.
  set (n1 := tab3 b s dim
               (norm_out dim (/ 1000000) (norm1_weight ps) (norm1_bias ps) x)).
  set (ag := run_dropout3 (mkDropout d true)
               (tab3 b s dim (attention_out dim hs s n1 (attn_params ps))) g).
  set (x1 := tab3 b s dim (fun i j o => (at3 x i j o + at3 (fst ag) i j o)%R)).
  set (n2 := tab3 b s dim
               (norm_out dim (/ 1000000) (norm2_weight ps) (norm2_bias ps) x1)).
  cbn [fst snd].
  assert (Hn1 : has_shape3 b s dim n1 = true) by apply has_shape3_tab.
  assert (Hag : has_shape3 b s dim (fst ag) = true)
    by apply run_dropout3_shape, has_shape3_tab.
  assert (Hx1 : has_shape3 b s dim x1 = true) by apply has_shape3_tab.
  assert (Hn2 : has_shape3 b s dim n2 = true) by apply has_shape3_tab.
  etransitivity.
  { apply f_equal. apply tab_ext. intros r Hr.
    destruct (Hl r Hr) as (E1 & _).
    unfold GPTLayer_forward. unfold bind at 1. rewrite E1.
    rewrite (LayerNorm_forward_tab b s) by assumption.
    cbn [lift ret pbind fst snd]. fold n1. unfold bind at 1.
    rewrite pbind_assoc. reflexivity. }
  etransitivity.
  { apply (SelfAttention_group ws nhl hs dim nh b s n1
             Hnhl Hhs Hb Hs Hdim Hnh Hn1 (attn_params ps) d (fun _ => g)
             (fun r => attn (layers r)) _ Hd Haps).
    intros r Hr. now destruct (Hl r Hr) as (_ & _ & Hsa & _). }
  fold ag. cbn [fst snd].
  etransitivity.
  { apply f_equal. apply tab_ext. intros r Hr.
    destruct (Hl r Hr) as (_ & E2 & _).
    unfold bind at 1. rewrite (add_shaped b s dim) by assumption.
    cbn [lift ret pbind fst snd]. fold x1. unfold bind at 1.
    cbn [set_attn norm2 mlp]. rewrite E2.
    rewrite (LayerNorm_forward_tab b s) by assumption.
    cbn [lift ret pbind fst snd]. fold n2. unfold bind at 1.
    rewrite pbind_assoc. reflexivity. }
  etransitivity.
  { apply (FeedForward_group ws (nhl * hs * ratio) dim ratio b s n2
             (mlp_params ps) (fun _ => snd ag) (fun r => mlp (layers r)));
      try assumption; try nia.
    intros r Hr. now destruct (Hl r Hr) as (_ & _ & _ & Hff). }
  cbn [fst snd]. apply f_equal. apply tab_ext. intros r Hr.
  unfold bind at 1.
  rewrite (add_shaped b s dim) by (try assumption; apply has_shape3_tab).
  cbn [lift ret pbind fst snd]. unfold with_mask.
  do 3 f_equal. apply tab3_ext. intros i j o Hi Hj Ho.
  now rewrite at3_tab.
Qed.

Lemma GPTLayer_group_init ws nhl hs dim nh ratio d ps :
  0 < ws -> 0 < nhl -> 0 < hs ->
  dim = ws * (nhl * hs) -> nh = ws * nhl ->
  (0 <= d <= 1)%R ->
  exists layers, forall r, r < ws ->
    GPTLayer_init (mkWorld ws r) dim nh (Some ratio) 0 d ps = Ok (layers r).
Proof.
  intros Hws Hnhl Hhs Hdim Hnh Hd.
  assert (H : forall r, exists l,
            GPTLayer_init (mkWorld ws r) dim nh (Some ratio) 0 d ps = Ok l).
  { intros r.
    destruct (GPTLayer_init_ok (mkWorld ws r) dim nh (Some ratio) 0 d ps)
      as (a & m & _ & _ & Hi);
      [subst nh; nia
      | subst dim; simpl; rewrite Nat.mul_comm; apply Nat.Div0.mod_mul
      | lra | assumption |].
    eauto. }
  destruct (H 0) as [l0 _].
  apply (finite_choice l0 ws
           (fun r l =>
              GPTLayer_init (mkWorld ws r) dim nh (Some ratio) 0 d ps = Ok l)).
  intros r _. apply H.
Qed.

Lemma block_out_shape b s dim hs ratio d ps x g :
  has_shape3 b s dim (fst (block_out b s dim hs ratio d ps x g)) = true.
Proof. unfold block_out. cbn [fst]. apply has_shape3_tab. Qed.

Lemma stack_out_shape b s dim hs ratio d ps idx x g :
  has_shape3 b s dim x = true ->
  has_shape3 b s dim (fst (stack_out b s dim hs ratio d ps idx x g)) = true.
Proof.
  revert x g. induction idx as [| i idx IH]; intros x g Hx; [exact Hx |].
  simpl. apply IH, block_out_shape.
Qed.

(** The blocks of a stack on a group: every rank returns what the dense
    stack returns, and keeps its blocks with their masks cached. *)
Lemma forward_blocks_group ws nhl hs dim nh ratio d b s ps idx :
  0 < ws -> 0 < nhl -> 0 < hs -> 0 < ratio -> 0 < b -> 0 < s ->
  dim = ws * (nhl * hs) -> nh = ws * nhl ->
  (0 <= d <= 1)%R ->
  (forall i, In i idx -> block_params_shaped dim (dim * ratio) (ps i) = true) ->
  exists bss,
    (forall r, r < ws ->
       init_blocks (mkWorld ws r) dim nh (Some ratio) 0 d ps idx = Ok (bss r)) /\
    forall B (f : nat -> (T3 * list GPTLayer) * Generator -> Proc B) x g,
      has_shape3 b s dim x = true ->
      run_ranks (tab ws (fun r => pbind (forward_blocks (bss r) x g) (f r)))
      = run_ranks (tab ws (fun r =>
          f r ((fst (stack_out b s dim hs ratio d ps idx x g),
                map (with_mask s) (bss r)),
               snd (stack_out b s dim hs ratio d ps idx x g)))).
Proof.
  intros Hws Hnhl Hhs Hratio Hb Hs Hdim Hnh Hd.
  induction idx as [| i idx IH]; intros Hps.
  - exists (fun _ => []). split; [reflexivity |]. reflexivity.
  - destruct IH as (bss & Hbss & Hrun); [intros j Hj; apply Hps; now right |].
    destruct (GPTLayer_group_init ws nhl hs dim nh ratio d (ps i)
                Hws Hnhl Hhs Hdim Hnh Hd) as [layers Hlayers].
    exists (fun r => layers r :: bss r). split.
    + intros r Hr. simpl. now rewrite (Hlayers r Hr), (Hbss r Hr).
    + intros B f x g Hx.
      etransitivity.
      { apply f_equal. apply tab_ext. intros r Hr.
        cbn [forward_blocks]. unfold bind at 1.
        rewrite pbind_assoc. reflexivity. }
      etransitivity.
      { apply (GPTLayer_group ws nhl hs dim nh ratio d b s x (ps i) g layers);
          try assumption.
        apply Hps. now left. }
      cbn [fst snd].
      etransitivity.
      { apply f_equal. apply tab_ext. intros r Hr.
        unfold bind at 1. rewrite pbind_assoc. reflexivity. }
      etransitivity.
      { apply Hrun. apply block_out_shape. }
      reflexivity.
Qed.

(** The whole stack on a group of [ws] ranks: with [num_heads] a multiple
    of [ws], [dim] a multiple of [num_heads], no attention dropout and one
    generator state on all ranks, construction succeeds on every rank and
    [forward] returns on every rank the output of the dense stack, of the
    shape of the input; this output does not depend on [ws]. *)
Theorem GPT_group ws nhl hs dim nh ratio d depth b s ps x g :
  0 < ws -> 0 < nhl -> 0 < hs -> 0 < ratio -> 0 < b -> 0 < s ->
  dim = ws * (nhl * hs) -> nh = ws * nhl ->
  (0 <= d <= 1)%R ->
  (forall i, i < depth -> block_params_shaped dim (dim * ratio) (ps i) = true) ->
  has_shape3 b s dim x = true ->
  exists models,
    (forall r, r < ws ->
       GPT_init (mkWorld ws r) depth dim nh (Some ratio) 0 d ps
       = Ok (models r)) /\
    run_ranks (tab ws (fun r => GPT_forward (models r) x g))
    = Ok (tab ws (fun r =>
        ((fst (stack_out b s dim hs ratio d ps (seq 0 depth) x g),
          mkGPT (map (with_mask s) (blocks (models r)))),
         snd (stack_out b s dim hs ratio d ps (seq 0 depth) x g)))) /\
    has_shape3 b s dim (fst (stack_out b s dim hs ratio d ps (seq 0 depth) x g))
    = true.
Proof.
  intros Hws Hnhl Hhs Hratio Hb Hs Hdim Hnh Hd Hps Hx.
  destruct (forward_blocks_group ws nhl hs dim nh ratio d b s ps (seq 0 depth)
              Hws Hnhl Hhs Hratio Hb Hs Hdim Hnh Hd) as (bss & Hbss & Hrun).
  { intros i Hi. apply in_seq in Hi. apply Hps. lia. }
  exists (fun r => mkGPT (bss r)). split; [| split].
  - intros r Hr. unfold GPT_init. now rewrite (Hbss r Hr).
  - unfold GPT_forward.
    etransitivity.
    { apply f_equal. apply tab_ext. intros r Hr.
      unfold bind at 1. cbn [blocks]. reflexivity. }
    etransitivity; [apply Hrun; exact Hx |].
    cbn [fst snd blocks]. apply run_ranks_ret.
  - now apply stack_out_shape.
Qed.

(** A single process: the stack of world size 1 returns the dense output
    against its own collectives. *)
Lemma GPT_forward_alone hs dim nh ratio d depth b s ps x g model :
  0 < nh -> 0 < hs -> 0 < ratio -> 0 < b -> 0 < s ->
  dim = nh * hs ->
  (0 <= d <= 1)%R ->
  (forall i, i < depth -> block_params_shaped dim (dim * ratio) (ps i) = true) ->
  has_shape3 b s dim x = true ->
  GPT_init (mkWorld 1 0) depth dim nh (Some ratio) 0 d ps = Ok model ->
  exec alone (GPT_forward model x g)
  = Ok ((fst (stack_out b s dim hs ratio d ps (seq 0 depth) x g),
         mkGPT (map (with_mask s) (blocks model))),
        snd (stack_out b s dim hs ratio d ps (seq 0 depth) x g)).
Proof.
  intros Hnh Hhs Hratio Hb Hs Hdim Hd Hps Hx Hinit.
  destruct (GPT_group 1 nh hs dim nh ratio d depth b s ps x g)
    as (models & Hmodels & Hrun & _); try assumption; try lia.
  rewrite (Hmodels 0 Nat.lt_0_1) in Hinit. injection Hinit as <-.
  change (tab 1 (fun r => GPT_forward (models r) x g))
    with [GPT_forward (models 0) x g] in Hrun.
  rewrite run_ranks_alone in Hrun.
  destruct (exec alone (GPT_forward (models 0) x g)) as [a | e];
    simpl in Hrun; [| discriminate].
  injection Hrun as ->. reflexivity.
Qed.

(** The stack of one block returns at the input [x_dim2]. *)
Lemma stack_1_forward_returns g :
  exists y model' g',
    exec alone (GPT_forward stack_1 x_dim2 g) = Ok ((y, model'), g').
Proof.
  do 3 eexists.
  apply (GPT_forward_alone 1 2 2 1 0 1 1 1 (fun _ => const_params 2 2 1%R));
    try lia; try lra; try reflexivity.
  exact stack_1_init.
Qed.

(** * Further properties *)

(** ** Inputs of the wrong width *)

Lemma init_blocks_norm1 w dim nh ratio ad d ps idx bs :
  init_blocks w dim nh ratio ad d ps idx = Ok bs ->
  Forall (fun block => normalized_shape (norm1 block) = dim) bs.
Proof.
  revert bs. induction idx as [| i idx IH]; intros bs H; simpl in H.
  - injection H as <-. constructor.
  - unfold GPTLayer_init in H.
    destruct (SelfAttention_init w dim nh ad d (attn_params (ps i)))
      as [sa | e]; simpl in H; [| discriminate].
    destruct (FeedForward_init w dim _ (mlp_params (ps i))) as [ff | e];
      simpl in H; [| discriminate].
    destruct (init_blocks w dim nh ratio ad d ps idx) as [bs0 | e];
      simpl in H; [| discriminate].
    injection H as <-. constructor; [reflexivity | now apply IH].
Qed.

(** X1.  A constructed stack of depth at least 1 rejects an input whose
    last axis is not [dim]: [forward] raises [RuntimeError] in the first
    layer norm, before the rank has issued any collective. *)
Theorem GPT_forward_wrong_width w depth dim nh ratio ad d ps model x g :
  GPT_init w depth dim nh ratio ad d ps = Ok model ->
  0 < depth ->
  size2 x <> dim ->
  GPT_forward model x g = Raise RuntimeError.
Proof.
  intros Hinit Hdepth Hx. unfold GPT_init in Hinit.
  destruct (init_blocks w dim nh ratio ad d ps (seq 0 depth)) as [bs | e] eqn:Hbs;
    simpl in Hinit; [| discriminate].
  injection Hinit as <-.
  pose proof (init_blocks_norm1 _ _ _ _ _ _ _ _ _ Hbs) as Hn.
  destruct depth as [| n]; [lia |].
  destruct bs as [| block bs]; [simpl in Hbs |].
  { destruct (GPTLayer_init w dim nh ratio ad d (ps 0)); simpl in Hbs;
      [| discriminate].
    destruct (init_blocks w dim nh ratio ad d ps (seq 1 n)); discriminate. }
  apply Forall_inv in Hn.
  unfold GPT_forward, bind. cbn [blocks forward_blocks].
  unfold bind at 1. unfold GPTLayer_forward, bind at 1.
  unfold LayerNorm_forward. rewrite Hn.
  apply Nat.eqb_neq in Hx. rewrite Hx. reflexivity.
Qed.

Lemma GPT_forward_wrong_width_witness :
  GPT_forward stack_1 x_dim1 gen0 = Raise RuntimeError.
Proof.
  apply (GPT_forward_wrong_width (mkWorld 1 0) 1 2 2 (Some 1) 0 0
           (fun _ => const_params 2 2 1%R) stack_1 x_dim1 gen0).
  - exact stack_1_init.
  - lia.
  - unfold size2, size1. simpl. lia.
Defined.

(** ** The stack on a group against the single-process stack *)

(** X2.  The whole stack is invariant under sharding.  With [num_heads] a
    multiple of the world size, [dim] a multiple of [num_heads], no
    attention dropout, any output dropout probability and one generator
    state on all ranks, an input of shape [[b, s, dim]] and logical
    parameters of matching shapes: construction succeeds on every rank, and
    every rank returns from [GPT.forward] the tensor and the generator
    state that the single-process stack of world size 1 returns from the
    same parameters; this tensor has the shape of the input. *)
Theorem GPT_forward_shard_invariant ws dim nh ratio d depth b s ps x g :
  0 < ws -> 0 < dim -> 0 < nh -> 0 < ratio -> 0 < b -> 0 < s ->
  dim mod nh = 0 -> nh mod ws = 0 ->
  (0 <= d <= 1)%R ->
  (forall i, i < depth -> block_params_shaped dim (dim * ratio) (ps i) = true) ->
  has_shape3 b s dim x = true ->
  exists y g' dense dense' models models',
    GPT_init (mkWorld 1 0) depth dim nh (Some ratio) 0 d ps = Ok dense /\
    exec alone (GPT_forward dense x g) = Ok ((y, dense'), g') /\
    (forall r, r < ws ->
       GPT_init (mkWorld ws r) depth dim nh (Some ratio) 0 d ps
       = Ok (models r)) /\
    run_ranks (tab ws (fun r => GPT_forward (models r) x g))
    = Ok (tab ws (fun r => ((y, models' r), g'))) /\
    has_shape3 b s dim y = true.
Proof.
  intros Hws Hdim Hnh Hratio Hb Hs Hdn Hnw Hd Hps Hx.
  apply Nat.Div0.mod_divides in Hdn as [hs Hhs].
  apply Nat.Div0.mod_divides in Hnw as [nhl Hnhl].
  assert (Hhs0 : 0 < hs) by nia.
  assert (Hnhl0 : 0 < nhl) by nia.
  destruct (GPT_group ws nhl hs dim nh ratio d depth b s ps x g)
    as (models & Hmodels & Hrun & Hshape); try assumption; try nia.
  destruct (GPT_init_ok (mkWorld 1 0) depth dim nh (Some ratio) 0 d ps)
    as (dense & Hdense & _); try lia; try lra; try assumption.
  { cbn [world_size]. apply Nat.mod_1_r. }
  pose proof (GPT_forward_alone hs dim nh ratio d depth b s ps x g dense
                Hnh Hhs0 Hratio Hb Hs Hhs Hd Hps Hx Hdense) as Halone.
  do 2 eexists. exists dense. eexists. exists models. eexists.
  split; [exact Hdense |]. split; [exact Halone |].
  split; [exact Hmodels |]. split; [exact Hrun | exact Hshape].
Qed.

Lemma GPT_forward_shard_invariant_witness :
  exists y g' dense dense' models models',
    GPT_init (mkWorld 1 0) 1 2 2 (Some 1) 0 0 (fun _ => const_params 2 2 1%R)
    = Ok dense /\
    exec alone (GPT_forward dense x_dim2 gen0) = Ok ((y, dense'), g') /\
    (forall r, r < 2 ->
       GPT_init (mkWorld 2 r) 1 2 2 (Some 1) 0 0 (fun _ => const_params 2 2 1%R)
       = Ok (models r)) /\
    run_ranks (tab 2 (fun r => GPT_forward (models r) x_dim2 gen0))
    = Ok (tab 2 (fun r => ((y, models' r), g'))) /\
    has_shape3 1 1 2 y = true.
Proof.
  apply (GPT_forward_shard_invariant 2 2 2 1 0 1 1 1
           (fun _ => const_params 2 2 1%R) x_dim2 gen0);
    try lia; try reflexivity; try lra.
Defined.

(** ** A cached mask of another sequence length *)

Lemma bdim_one_r n : bdim n 1 = Some n.
Proof.
  unfold bdim. destruct (Nat.eqb_spec n 1) as [-> | H]; reflexivity.
Qed.

Lemma bdim_none n m : n <> m -> n <> 1 -> m <> 1 -> bdim n m = None.
Proof.
  intros H1 H2 H3. unfold bdim.
  apply Nat.eqb_neq in H1, H2, H3. now rewrite H1, H2, H3.
Qed.

Lemma expand_tab1 {A} n (f : nat -> A) : expand n (tab 1 f) = tab n (fun _ => f 0).
Proof. unfold tab at 1. simpl. apply repeat_tab. Qed.

(** A mask of [n] by [p] positions broadcasts scores of one query and one
    key position. *)
Lemma where_broadcast a b n p F c :
  0 < a -> 0 < b -> 0 < n ->
  where_ (tril_mask n p) (tab4 a b 1 1 F) c
  = Ok (tab4 a b n p (fun i j k l => if l <=? k then F i j 0 0 else c)).
Proof.
  intros Ha Hb Hn. unfold where_.
  destruct (sizes_tab4 a b 1 1 F Ha Hb Nat.lt_0_1) as (-> & -> & -> & ->).
  destruct (sizes_tril_mask n p Hn) as (-> & -> & -> & ->).
  rewrite !bdim_one_l, !bdim_one_r. f_equal.
  unfold tril_mask. cbn [expand]. rewrite expand_same by apply length_tab.
  rewrite repeat_tab. unfold tab4. rewrite zip_with_tab.
  apply tab_ext. intros i _.
  cbn [expand]. rewrite expand_same by apply length_tab.
  rewrite repeat_tab. unfold tab3. rewrite zip_with_tab.
  apply tab_ext. intros j _.
  rewrite tril_tab2. rewrite expand_same by apply length_tab.
  unfold tab2. rewrite expand_tab1, zip_with_tab. apply tab_ext. intros k _.
  rewrite expand_same by apply length_tab.
  rewrite expand_tab1. apply zip_with_tab.
Qed.

Lemma matmul_mismatch (x y : T4) :
  size3 x <> size2 y -> matmul x y = Err RuntimeError.
Proof.
  intros H. unfold matmul. apply Nat.eqb_neq in H. rewrite H.
  destruct (bdim (size0 x) (size0 y)), (bdim (size1 x) (size1 y)); reflexivity.
Qed.

Lemma AttentionCore_forward_stale self q k v g a b s1 s2 d :
  0 < a -> 0 < b -> 0 < s2 -> 0 < d ->
  1 < s1 -> s1 <> s2 ->
  has_shape4 a b s2 d q = true ->
  has_shape4 a b s2 d k = true ->
  has_shape4 a b s2 d v = true ->
  causal_mask self = Some (tril_mask s1 s1) ->
  AttentionCore_forward self q k v g = Raise RuntimeError.
Proof.
  intros Ha Hb Hs2 Hd Hs1 Hne Hq Hk Hv Hm.
  rewrite (shape4_tab _ _ _ _ _ Hq), (shape4_tab _ _ _ _ _ Hk),
    (shape4_tab _ _ _ _ _ Hv).
  unfold AttentionCore_forward. unfold bind at 1. unfold attention_probs.
  unfold mask_of at 1. rewrite Hm.
  rewrite transpose_last_tab4, matmul_tab4 by assumption. simpl rbind.
  rewrite map4_tab4.
  destruct (Nat.eq_dec s2 1) as [-> | Hs21].
  - rewrite where_broadcast by lia. simpl rbind. rewrite softmax_tab4.
    cbn [lift ret pbind fst snd]. unfold bind at 1.
    cbn [set_causal_mask attention_dropout].
    match goal with
    | |- context [Dropout_forward4 ?dr ?t ?g0] =>
        destruct (Dropout_forward4_shape dr t g0 a b s1 s1
                    (has_shape4_tab _ _ _ _ _)) as (y & g' & -> & Hy)
    end.
    cbn [pbind fst snd]. unfold bind at 1.
    rewrite matmul_mismatch; [reflexivity |].
    rewrite (shape4_tab _ _ _ _ _ Hy).
    destruct (sizes_tab4 a b s1 s1 (at4 y) Ha Hb) as (_ & _ & _ & ->); [lia |].
    destruct (sizes_tab4 a b 1 d (at4 v) Ha Hb) as (_ & _ & -> & _); lia.
  - unfold where_.
    match goal with
    | |- context [tab4 a b s2 s2 ?F] =>
        destruct (sizes_tab4 a b s2 s2 F Ha Hb Hs2) as (-> & -> & -> & ->)
    end.
    destruct (sizes_tril_mask s1 s1) as (-> & -> & -> & ->); [lia |].
    rewrite !bdim_one_l, bdim_none by lia. reflexivity.
Qed.

(** X3.  An attention core whose cache holds the mask of a sequence length
    [s1 > 1] does not serve another sequence length: on query, key and
    value of any other length [s2], [forward] raises [RuntimeError]. *)
Theorem AttentionCore_forward_stale_raises self q k v g a b s1 s2 d :
  0 < a -> 0 < b -> 0 < s2 -> 0 < d ->
  1 < s1 -> s1 <> s2 ->
  has_shape4 a b s2 d q = true ->
  has_shape4 a b s2 d k = true ->
  has_shape4 a b s2 d v = true ->
  causal_mask self = Some (tril_mask s1 s1) ->
  AttentionCore_forward self q k v g = Raise RuntimeError.
Proof.
  intros Ha Hb Hs2 Hd Hs1 Hne Hq Hk Hv Hm.
  now apply (AttentionCore_forward_stale self q k v g a b s1 s2 d).
Qed.

Lemma AttentionCore_forward_stale_raises_witness :
  AttentionCore_forward core_seq2 seq3_q seq3_q seq3_q gen0 = Raise RuntimeError.
Proof.
  apply (AttentionCore_forward_stale_raises core_seq2 seq3_q seq3_q seq3_q gen0
           1 1 2 3 1); try lia; reflexivity.
Defined.

(** ** Attention with other key than query lengths *)

Lemma AttentionCore_forward_rect core Q K V g a b n m d :
  0 < a -> 0 < b -> 0 < n -> 0 < m -> 0 < d ->
  d = attention_head_size core ->
  p (attention_dropout core) = 0%R ->
  causal_mask core = None \/ causal_mask core = Some (tril_mask n m) ->
  AttentionCore_forward core (tab4 a b n d Q) (tab4 a b m d K) (tab4 a b m d V) g
  = Ret ((tab3 a n (b * d) (context_fn d (where_const core) m Q K V),
          set_causal_mask core (tril_mask n m)), g).
Proof.
  intros Ha Hb Hn Hm Hd Heq Hp Hc.
  assert (Hmask : mask_of core (tab4 a b n d Q) (tab4 a b m d K) = tril_mask n m).
  { destruct Hc as [Hc | Hc]; unfold mask_of; rewrite Hc; [| reflexivity].
    now rewrite !sizes_tab4_2. }
  unfold AttentionCore_forward, bind.
  rewrite attention_probs_tab by assumption. cbn [lift ret pbind fst snd].
  rewrite Hmask.
  rewrite Dropout_forward4_zero by exact Hp. cbn [lift ret pbind fst snd].
  rewrite matmul_tab4 by assumption. cbn [lift ret pbind fst snd].
  rewrite transpose_12_tab4, merge_last_tab4 by assumption.
  unfold ret. do 3 f_equal. apply tab3_ext. intros i j f _ _ _.
  unfold context_fn. apply dot_tab.
Qed.

(** X4.  The mask is built for the pair of the query and key lengths, which
    need not be equal.  For queries at [n] positions, keys and values at
    [m] positions, a core without attention dropout and an empty cache (or
    the cached mask of this pair), [forward] returns the context of shape
    [[batch, n, heads * head_size]] whose entries are the softmax weights
    over the [m] key positions, position [l] of a query at [j] masked when
    [l > j], times the values; the core then holds the [n] by [m] mask. *)
Theorem AttentionCore_forward_rectangular self q k v g a b n m d :
  0 < a -> 0 < b -> 0 < n -> 0 < m -> 0 < d ->
  d = attention_head_size self ->
  p (attention_dropout self) = 0%R ->
  has_shape4 a b n d q = true ->
  has_shape4 a b m d k = true ->
  has_shape4 a b m d v = true ->
  causal_mask self = None \/ causal_mask self = Some (tril_mask n m) ->
  AttentionCore_forward self q k v g
  = Ret ((tab3 a n (b * d)
            (fun i j f =>
               sum (tab m (fun l =>
                 (attention_weight d (where_const self) q k m i (f / d) j l
                  * at4 v i (f / d) l (f mod d))%R))),
          set_causal_mask self (tril_mask n m)), g).
Proof.
  intros Ha Hb Hn Hm Hd Heq Hp Hq Hk Hv Hc.
  rewrite (shape4_tab _ _ _ _ _ Hq) at 1. rewrite (shape4_tab _ _ _ _ _ Hk) at 1.
  rewrite (shape4_tab _ _ _ _ _ Hv) at 1.
  now rewrite AttentionCore_forward_rect.
Qed.

Lemma AttentionCore_forward_rectangular_witness :
  AttentionCore_forward core_1 rect_q rect_k rect_v gen0
  = Ret ((tab3 1 2 (1 * 1)
            (fun i j f =>
               sum (tab 3 (fun l =>
                 (attention_weight 1 (where_const core_1) rect_q rect_k 3
                    i (f / 1) j l
                  * at4 rect_v i (f / 1) l (f mod 1))%R))),
          set_causal_mask core_1 (tril_mask 2 3)), gen0).
Proof.
  apply (AttentionCore_forward_rectangular core_1 rect_q rect_k rect_v gen0
           1 1 2 3 1); try lia; try reflexivity.
  left. reflexivity.
Defined.

(** X5.  Shapes that do not fit raise [RuntimeError]: keys of another head
    size than the queries, whatever the values and the cache; and, with
    fitting queries and keys, values at another number of positions than
    the keys. *)
Theorem AttentionCore_forward_shape_errors self q k v g a b n m d :
  0 < a -> 0 < b -> 0 < n -> 0 < m -> 0 < d ->
  has_shape4 a b n d q = true ->
  (forall d', d' <> d -> has_shape4 a b m d' k = true ->
     AttentionCore_forward self q k v g = Raise RuntimeError) /\
  (forall m' e, m' <> m -> 0 < m' ->
     d = attention_head_size self ->
     has_shape4 a b m d k = true ->
     has_shape4 a b m' e v = true ->
     causal_mask self = None \/ causal_mask self = Some (tril_mask n m) ->
     AttentionCore_forward self q k v g = Raise RuntimeError).
Proof.
  intros Ha Hb Hn Hm Hd Hq. split.
  - intros d' Hd' Hk.
    unfold AttentionCore_forward. unfold bind at 1. unfold attention_probs.
    rewrite matmul_mismatch; [reflexivity |].
    rewrite (shape4_tab _ _ _ _ _ Hq), (shape4_tab _ _ _ _ _ Hk).
    rewrite transpose_last_tab4 by assumption.
    destruct (sizes_tab4 a b n d (at4 q) Ha Hb Hn) as (_ & _ & _ & ->).
    rewrite sizes_tab4_2 by assumption. lia.
  - intros m' e Hm' Hm0 Heq Hk Hv Hc.
    unfold AttentionCore_forward. unfold bind at 1.
    rewrite (attention_probs_shaped self q k a b n m d) by assumption.
    cbn [lift ret pbind fst snd]. unfold bind at 1.
    cbn [set_causal_mask attention_dropout].
    match goal with
    | |- context [Dropout_forward4 ?dr ?t ?g0] =>
        destruct (Dropout_forward4_shape dr t g0 a b n m
                    (has_shape4_tab _ _ _ _ _)) as (y & g' & -> & Hy)
    end.
    cbn [pbind fst snd]. unfold bind at 1.
    rewrite matmul_mismatch; [reflexivity |].
    rewrite (shape4_tab _ _ _ _ _ Hy), (shape4_tab _ _ _ _ _ Hv).
    destruct (sizes_tab4 a b n m (at4 y) Ha Hb Hn) as (_ & _ & _ & ->).
    rewrite sizes_tab4_2 by assumption. lia.
Qed.

Lemma AttentionCore_forward_shape_errors_witness :
  AttentionCore_forward core_1 rect_q wide_k rect_v gen0 = Raise RuntimeError /\
  AttentionCore_forward core_1 rect_q rect_k rect_q gen0 = Raise RuntimeError.
Proof.
  destruct (AttentionCore_forward_shape_errors core_1 rect_q rect_k rect_q gen0
              1 1 2 3 1) as [_ H2]; try lia; try reflexivity.
  destruct (AttentionCore_forward_shape_errors core_1 rect_q wide_k rect_v gen0
              1 1 2 3 1) as [H1 _]; try lia; try reflexivity.
  split.
  - apply (H1 2); [lia | reflexivity].
  - apply (H2 2 1); try lia; try reflexivity. left. reflexivity.
Defined.

(** ** The context as a weighted mean of the values *)

Lemma sum_tab_le n f h :
  (forall i, i < n -> (f i <= h i)%R) -> (sum (tab n f) <= sum (tab n h))%R.
Proof.
  induction n as [| n IH]; intros H; [simpl; lra |].
  rewrite !sum_tab_S. specialize (H n (Nat.lt_succ_diag_r n)) as Hn.
  assert (sum (tab n f) <= sum (tab n h))%R by (apply IH; intros; apply H; lia).
  lra.
Qed.

Lemma sum_tab_scal n f c :
  sum (tab n (fun i => (f i * c)%R)) = (sum (tab n f) * c)%R.
Proof.
  induction n as [| n IH]; [simpl; ring |].
  rewrite !sum_tab_S, IH. ring.
Qed.

(** A mean with positive weights that sum to 1 lies between the bounds of
    its terms. *)
Lemma weighted_mean_bounds n (e v : nat -> R) lo hi :
  0 < n ->
  (forall l, l < n -> (0 < e l)%R) ->
  (forall l, l < n -> (lo <= v l <= hi)%R) ->
  (lo <= sum (tab n (fun l => (e l / sum (tab n e) * v l)%R)) <= hi)%R.
Proof.
  intros Hn He Hv.
  assert (HZ : (0 < sum (tab n e))%R) by now apply sum_tab_pos.
  assert (Hone : sum (tab n (fun l => (e l / sum (tab n e))%R)) = 1%R).
  { rewrite sum_tab_div. field. lra. }
  assert (Hw : forall l, l < n -> (0 < e l / sum (tab n e))%R).
  { intros l Hl. apply Rdiv_lt_0_compat; [now apply He | exact HZ]. }
  split.
  - replace lo with (sum (tab n (fun l => (e l / sum (tab n e))%R)) * lo)%R
      by (rewrite Hone; ring).
    rewrite <- sum_tab_scal. apply sum_tab_le. intros l Hl.
    apply Rmult_le_compat_l; [apply Rlt_le, Hw, Hl | apply Hv, Hl].
  - replace hi with (sum (tab n (fun l => (e l / sum (tab n e))%R)) * hi)%R
      by (rewrite Hone; ring).
    rewrite <- sum_tab_scal. apply sum_tab_le. intros l Hl.
    apply Rmult_le_compat_l; [apply Rlt_le, Hw, Hl | apply Hv, Hl].
Qed.

(** X6.  Without attention dropout the context is, feature by feature, a
    weighted mean of the values of its head: when every entry of the
    values lies between [lo] and [hi], so does every entry of the context
    that [forward] returns, whatever the queries and keys. *)
Theorem AttentionCore_forward_bounded self q k v g a b n m d lo hi :
  0 < a -> 0 < b -> 0 < n -> 0 < m -> 0 < d ->
  d = attention_head_size self ->
  p (attention_dropout self) = 0%R ->
  has_shape4 a b n d q = true ->
  has_shape4 a b m d k = true ->
  has_shape4 a b m d v = true ->
  causal_mask self = None \/ causal_mask self = Some (tril_mask n m) ->
  (forall i h l e, i < a -> h < b -> l < m -> e < d ->
     (lo <= at4 v i h l e <= hi)%R) ->
  exists ctx,
    AttentionCore_forward self q k v g
    = Ret ((ctx, set_causal_mask self (tril_mask n m)), g) /\
    has_shape3 a n (b * d) ctx = true /\
    forall i j f, i < a -> j < n -> f < b * d ->
      (lo <= at3 ctx i j f <= hi)%R.
Proof.
  intros Ha Hb Hn Hm Hd Heq Hp Hq Hk Hv Hc Hbound.
  eexists. split; [| split].
  - rewrite (shape4_tab _ _ _ _ _ Hq) at 1.
    rewrite (shape4_tab _ _ _ _ _ Hk) at 1.
    rewrite (shape4_tab _ _ _ _ _ Hv) at 1.
    now apply AttentionCore_forward_rect.
  - apply has_shape3_tab.
  - intros i j f Hi Hj Hf. rewrite at3_tab by assumption.
    unfold context_fn, weight_fn.
    apply (weighted_mean_bounds m
             (fun l => exp (score_fn d (where_const self) (at4 q) (at4 k)
                              i (f / d) j l))
             (fun l => at4 v i (f / d) l (f mod d))); [assumption | |].
    + intros l _. apply exp_pos.
    + intros l Hl. apply Hbound; try assumption.
      * apply Nat.Div0.div_lt_upper_bound. now rewrite Nat.mul_comm.
      * now apply Nat.mod_upper_bound, Nat.neq_0_lt_0.
Qed.

Lemma AttentionCore_forward_bounded_witness :
  exists ctx,
    AttentionCore_forward core_1 rect_q rect_k rect_v gen0
    = Ret ((ctx, set_causal_mask core_1 (tril_mask 2 3)), gen0) /\
    has_shape3 1 2 (1 * 1) ctx = true /\
    forall i j f, i < 1 -> j < 2 -> f < 1 * 1 ->
      (3 <= at3 ctx i j f <= 5)%R.
Proof.
  apply (AttentionCore_forward_bounded core_1 rect_q rect_k rect_v gen0
           1 1 2 3 1 3 5); try lia; try reflexivity.
  - left. reflexivity.
  - intros i h l e Hi Hh Hl He.
    assert (i = 0) by lia. assert (h = 0) by lia. assert (e = 0) by lia.
    subst. destruct l as [| [| [| l]]]; [| | | lia];
      unfold rect_v; cbn; lra.
Defined.

(** ** Arguments that the constructors reject *)

Lemma Dropout_init_err prob :
  ~ (0 <= prob <= 1)%R -> Dropout_init prob = Err ValueError.
Proof.
  intros H. unfold Dropout_init.
  destruct (Rlt_dec prob 0) as [_ | H0]; [reflexivity |].
  destruct (Rlt_dec 1 prob) as [_ | H1]; [reflexivity | lra].
Qed.

Lemma SelfAttention_init_value w dim nh ad d ps :
  nh <> 0 -> dim mod world_size w = 0 ->
  ~ (0 <= d <= 1)%R \/ ~ (0 <= ad <= 1)%R ->
  SelfAttention_init w dim nh ad d ps = Err ValueError.
Proof.
  intros Hnh Hd H. unfold SelfAttention_init, AttentionCore_init.
  destruct (Nat.eqb_spec nh 0); [contradiction |].
  rewrite !ColumnParallelLinear_init_ok, RowParallelLinear_init_ok by assumption.
  cbn [rbind].
  destruct (Dropout_init d) as [dr | e] eqn:Hdr.
  - destruct H as [H | H]; [now rewrite Dropout_init_err in Hdr |].
    cbn [rbind]. now rewrite Dropout_init_err.
  - unfold Dropout_init in Hdr.
    destruct (Rlt_dec d 0); [now injection Hdr as <- |].
    destruct (Rlt_dec 1 d); [now injection Hdr as <- | discriminate].
Qed.

(** X7.  The arguments that the constructors of a stack of depth at least
    1 reject, besides a dimension that the world size does not divide:
    [num_heads = 0] raises [ZeroDivisionError], whatever the other
    arguments; and with [num_heads > 0] and [dim] divisible by the world
    size, a dropout or attention dropout probability outside [0, 1]
    raises [ValueError]. *)
Theorem construction_argument_errors w depth dim nh ratio ad d ps :
  0 < depth ->
  (nh = 0 ->
     GPT_init w depth dim nh ratio ad d ps = Err ZeroDivisionError) /\
  (nh <> 0 -> dim mod world_size w = 0 ->
   ~ (0 <= d <= 1)%R \/ ~ (0 <= ad <= 1)%R ->
     GPT_init w depth dim nh ratio ad d ps = Err ValueError).
Proof.
  intros Hdepth.
  destruct depth as [| n]; [lia |]. unfold GPT_init.
  change (seq 0 (S n)) with (0 :: seq 1 n). cbn [init_blocks].
  unfold GPTLayer_init. split.
  - intros ->. reflexivity.
  - intros Hnh Hd H. now rewrite SelfAttention_init_value.
Qed.

Lemma construction_argument_errors_witness :
  GPT_init (mkWorld 2 0) 1 3 0 None 0 0 (fun _ => const_params 3 12 1%R)
  = Err ZeroDivisionError /\
  GPT_init (mkWorld 2 0) 1 4 2 None 0 2 (fun _ => const_params 4 16 1%R)
  = Err ValueError.
Proof.
  split.
  - apply (construction_argument_errors (mkWorld 2 0) 1 3 0 None 0 0
             (fun _ => const_params 3 12 1%R)); [lia | reflexivity].
  - apply (construction_argument_errors (mkWorld 2 0) 1 4 2 None 0 2
             (fun _ => const_params 4 16 1%R)); [lia | lia | reflexivity |].
    left. lra.
Defined.

(** ** Constants added along the hidden axis *)

Lemma norm_out_shift c b s dim e w bias x i j l :
  0 < dim -> i < b -> j < s -> l < dim ->
  norm_out dim e w bias (shift_rows c b s dim x) i j l
  = norm_out dim e w bias x i j l.
Proof.
  intros Hdim Hi Hj Hl.
  assert (Hn : INR dim <> 0%R) by (apply not_0_INR; lia).
  assert (Hrow : forall l', l' < dim ->
            at3 (shift_rows c b s dim x) i j l' = (at3 x i j l' + c i j)%R).
  { intros l' Hl'. unfold shift_rows. now rewrite at3_tab. }
  assert (Hmu : (sum (tab dim (at3 (shift_rows c b s dim x) i j)) / INR dim
                 = sum (tab dim (at3 x i j)) / INR dim + c i j)%R).
  { rewrite (sum_tab_ext dim _ (fun l' => (at3 x i j l' + c i j)%R) Hrow).
    rewrite sum_tab_plus, sum_tab_const. now field. }
  unfold norm_out. rewrite Hmu, (Hrow l Hl).
  rewrite (sum_tab_ext dim
             (fun l' =>
                ((at3 (shift_rows c b s dim x) i j l'
                  - (sum (tab dim (at3 x i j)) / INR dim + c i j))
                 * (at3 (shift_rows c b s dim x) i j l'
                    - (sum (tab dim (at3 x i j)) / INR dim + c i j)))%R)
             (fun l' =>
                ((at3 x i j l' - sum (tab dim (at3 x i j)) / INR dim)
                 * (at3 x i j l' - sum (tab dim (at3 x i j)) / INR dim))%R)).
  - f_equal. f_equal. f_equal. ring.
  - intros l' Hl'. rewrite (Hrow l' Hl'). ring.
Qed.

Lemma block_out_shift c b s dim hs ratio d ps x g :
  0 < dim ->
  block_out b s dim hs ratio d ps (shift_rows c b s dim x) g
  = (shift_rows c b s dim (fst (block_out b s dim hs ratio d ps x g)),
     snd (block_out b s dim hs ratio d ps x g)).
Proof.
  intros Hdim. unfold block_out.
  assert (E1 : tab3 b s dim
                 (norm_out dim (/ 1000000) (norm1_weight ps) (norm1_bias ps)
                    (shift_rows c b s dim x))
               = tab3 b s dim
                   (norm_out dim (/ 1000000) (norm1_weight ps) (norm1_bias ps) x)).
  { apply tab3_ext. intros i j l Hi Hj Hl. now apply norm_out_shift. }
  rewrite E1.
  set (ag := run_dropout3 (mkDropout d true) _ g).
  set (x1 := tab3 b s dim (fun i j o => (at3 x i j o + at3 (fst ag) i j o)%R)).
  assert (E2 : tab3 b s dim
                 (fun i j o =>
                    (at3 (shift_rows c b s dim x) i j o + at3 (fst ag) i j o)%R)
               = shift_rows c b s dim x1).
  { unfold shift_rows at 2. apply tab3_ext. intros i j l Hi Hj Hl.
    unfold x1, shift_rows. rewrite !at3_tab by assumption. ring. }
  rewrite E2.
  assert (E3 : tab3 b s dim
                 (norm_out dim (/ 1000000) (norm2_weight ps) (norm2_bias ps)
                    (shift_rows c b s dim x1))
               = tab3 b s dim
                   (norm_out dim (/ 1000000) (norm2_weight ps) (norm2_bias ps) x1)).
  { apply tab3_ext. intros i j l Hi Hj Hl. now apply norm_out_shift. }
  rewrite E3. cbn [fst snd]. f_equal.
  unfold shift_rows at 2. apply tab3_ext. intros i j l Hi Hj Hl.
  unfold shift_rows. rewrite !at3_tab by assumption. ring.
Qed.

Lemma stack_out_shift c b s dim hs ratio d ps idx x g :
  0 < dim ->
  stack_out b s dim hs ratio d ps idx (shift_rows c b s dim x) g
  = (shift_rows c b s dim (fst (stack_out b s dim hs ratio d ps idx x g)),
     snd (stack_out b s dim hs ratio d ps idx x g)).
Proof.
  intros Hdim. revert x g. induction idx as [| i idx IH]; intros x g.
  - reflexivity.
  - cbn [stack_out]. rewrite block_out_shift by assumption. cbn [fst snd].
    apply IH.
Qed.

(** X8.  The stack commutes with constants added along the hidden axis:
    every sublayer reads its input through a layer norm, and the residual
    additions carry the constant through.  Under the conditions of shard
    invariance, when the ranks return [y] at the input [x], they return
    [y + c] at the input [x + c], for every [c] that is constant along the
    last axis, with the same generator state. *)
Theorem GPT_forward_shift ws dim nh ratio d depth b s ps x g c :
  0 < ws -> 0 < dim -> 0 < nh -> 0 < ratio -> 0 < b -> 0 < s ->
  dim mod nh = 0 -> nh mod ws = 0 ->
  (0 <= d <= 1)%R ->
  (forall i, i < depth -> block_params_shaped dim (dim * ratio) (ps i) = true) ->
  has_shape3 b s dim x = true ->
  exists y g' models models',
    (forall r, r < ws ->
       GPT_init (mkWorld ws r) depth dim nh (Some ratio) 0 d ps
       = Ok (models r)) /\
    run_ranks (tab ws (fun r => GPT_forward (models r) x g))
    = Ok (tab ws (fun r => ((y, models' r), g'))) /\
    run_ranks (tab ws (fun r =>
      GPT_forward (models r) (shift_rows c b s dim x) g))
    = Ok (tab ws (fun r => ((shift_rows c b s dim y, models' r), g'))).
Proof.
  intros Hws Hdim Hnh Hratio Hb Hs Hdn Hnw Hd Hps Hx.
  apply Nat.Div0.mod_divides in Hdn as [hs Hhs].
  apply Nat.Div0.mod_divides in Hnw as [nhl Hnhl].
  assert (Hhs0 : 0 < hs) by nia.
  assert (Hnhl0 : 0 < nhl) by nia.
  destruct (forward_blocks_group ws nhl hs dim nh ratio d b s ps (seq 0 depth))
    as (bss & Hbss & Hrun); try assumption; try nia.
  { intros i Hi. apply in_seq in Hi. apply Hps. lia. }
  exists (fst (stack_out b s dim hs ratio d ps (seq 0 depth) x g)),
    (snd (stack_out b s dim hs ratio d ps (seq 0 depth) x g)),
    (fun r => mkGPT (bss r)),
    (fun r => mkGPT (map (with_mask s) (bss r))).
  split; [| split].
  - intros r Hr. unfold GPT_init. now rewrite (Hbss r Hr).
  - unfold GPT_forward.
    etransitivity.
    { apply f_equal. apply tab_ext. intros r Hr.
      unfold bind at 1. cbn [blocks]. reflexivity. }
    etransitivity; [apply Hrun; exact Hx |].
    cbn [fst snd]. apply run_ranks_ret.
  - unfold GPT_forward.
    etransitivity.
    { apply f_equal. apply tab_ext. intros r Hr.
      unfold bind at 1. cbn [blocks]. reflexivity. }
    etransitivity; [apply Hrun; apply has_shape3_tab |].
    rewrite stack_out_shift by assumption.
    cbn [fst snd]. apply run_ranks_ret.
Qed.

Lemma GPT_forward_shift_witness :
  exists y g' models models',
    (forall r, r < 2 ->
       GPT_init (mkWorld 2 r) 1 2 2 (Some 1) 0 0 (fun _ => const_params 2 2 1%R)
       = Ok (models r)) /\
    run_ranks (tab 2 (fun r => GPT_forward (models r) x_dim2 gen0))
    = Ok (tab 2 (fun r => ((y, models' r), g'))) /\
    run_ranks (tab 2 (fun r =>
      GPT_forward (models r) (shift_rows (fun _ _ => 5%R) 1 1 2 x_dim2) gen0))
    = Ok (tab 2 (fun r =>
        ((shift_rows (fun _ _ => 5%R) 1 1 2 y, models' r), g'))).
Proof.
  apply (GPT_forward_shift 2 2 2 1 0 1 1 1
           (fun _ => const_params 2 2 1%R) x_dim2 gen0 (fun _ _ => 5%R));
    try lia; try reflexivity; try lra.
Defined.

(** ** The elements of a batch *)

Lemma norm_out_batch dim e w bias x x' i :
  nth i x [] = nth i x' [] ->
  forall j l, norm_out dim e w bias x i j l = norm_out dim e w bias x' i j l.
Proof. intros H j l. unfold norm_out, at3. now rewrite H. Qed.

Lemma attention_out_batch dim hs s x x' ps i :
  nth i x [] = nth i x' [] ->
  forall j o, attention_out dim hs s x ps i j o = attention_out dim hs s x' ps i j o.
Proof.
  intros H j o.
  unfold attention_out, context_fn, weight_fn, score_fn, head_fn, projection,
    linear_fn, at3.
  now rewrite H.
Qed.

Lemma mlp_out_batch act dim ffn x x' ps i :
  nth i x [] = nth i x' [] ->
  forall j o, mlp_out act dim ffn x ps i j o = mlp_out act dim ffn x' ps i j o.
Proof.
  intros H j o. unfold mlp_out, projection, linear_fn, at3. now rewrite H.
Qed.

Lemma nth_tab3_batch b s dim (F G : nat -> nat -> nat -> R) i :
  i < b ->
  (forall j o, F i j o = G i j o) ->
  nth i (tab3 b s dim F) [] = nth i (tab3 b s dim G) [].
Proof.
  intros Hi H. unfold tab3. rewrite !nth_tab by assumption.
  apply tab2_ext. intros j o _ _. apply H.
Qed.

Lemma run_dropout3_zero x g : run_dropout3 (mkDropout 0 true) x g = (x, g).
Proof.
  unfold run_dropout3. now rewrite Dropout_forward3_zero by reflexivity.
Qed.

Lemma block_out_batch b s dim hs ratio ps x x' g g' i :
  i < b ->
  nth i x [] = nth i x' [] ->
  nth i (fst (block_out b s dim hs ratio 0 ps x g)) []
  = nth i (fst (block_out b s dim hs ratio 0 ps x' g')) [].
Proof.
  intros Hi H. unfold block_out. rewrite !run_dropout3_zero. cbn [fst snd].
  assert (E1 : forall w bias,
            nth i (tab3 b s dim (norm_out dim (/ 1000000) w bias x)) []
            = nth i (tab3 b s dim (norm_out dim (/ 1000000) w bias x')) []).
  { intros w bias. apply nth_tab3_batch; [assumption |].
    now apply norm_out_batch. }
  set (n1 := tab3 b s dim (norm_out dim _ (norm1_weight ps) _ x)) in *.
  set (n1' := tab3 b s dim (norm_out dim _ (norm1_weight ps) _ x')) in *.
  assert (E2 : nth i (tab3 b s dim (attention_out dim hs s n1 (attn_params ps))) []
               = nth i (tab3 b s dim (attention_out dim hs s n1' (attn_params ps))) []).
  { apply nth_tab3_batch; [assumption |].
    apply attention_out_batch. apply E1. }
  set (a := tab3 b s dim (attention_out dim hs s n1 _)) in *.
  set (a' := tab3 b s dim (attention_out dim hs s n1' _)) in *.
  assert (E3 : nth i (tab3 b s dim (fun i j o => (at3 x i j o + at3 a i j o)%R)) []
               = nth i (tab3 b s dim
                          (fun i j o => (at3 x' i j o + at3 a' i j o)%R)) []).
  { apply nth_tab3_batch; [assumption |]. intros j o.
    unfold at3. now rewrite H, E2. }
  set (x1 := tab3 b s dim (fun i j o => (at3 x i j o + at3 a i j o)%R)) in *.
  set (x1' := tab3 b s dim (fun i j o => (at3 x' i j o + at3 a' i j o)%R)) in *.
  apply nth_tab3_batch; [assumption |]. intros j o. apply (f_equal2 Rplus).
  - unfold at3. now rewrite E3.
  - apply mlp_out_batch. apply nth_tab3_batch; [assumption |].
    now apply norm_out_batch.
Qed.

Lemma stack_out_batch b s dim hs ratio ps idx x x' g g' i :
  i < b ->
  nth i x [] = nth i x' [] ->
  nth i (fst (stack_out b s dim hs ratio 0 ps idx x g)) []
  = nth i (fst (stack_out b s dim hs ratio 0 ps idx x' g')) [].
Proof.
  intros Hi. revert x x' g g'.
  induction idx as [| k idx IH]; intros x x' g g' H; [exact H |].
  cbn [stack_out]. apply IH. now apply block_out_batch.
Qed.

(** X9.  Without dropout the elements of a batch do not mix: when two
    inputs of one shape agree on batch element [i], the outputs that the
    ranks return for them agree on batch element [i], whatever the other
    elements of the two batches are. *)
Theorem GPT_forward_batch_independent ws dim nh ratio depth b s ps x x' g i :
  0 < ws -> 0 < dim -> 0 < nh -> 0 < ratio -> 0 < b -> 0 < s ->
  dim mod nh = 0 -> nh mod ws = 0 ->
  (forall k, k < depth -> block_params_shaped dim (dim * ratio) (ps k) = true) ->
  has_shape3 b s dim x = true ->
  has_shape3 b s dim x' = true ->
  i < b ->
  nth i x [] = nth i x' [] ->
  exists y y' g1 g1' models models',
    (forall r, r < ws ->
       GPT_init (mkWorld ws r) depth dim nh (Some ratio) 0 0 ps
       = Ok (models r)) /\
    run_ranks (tab ws (fun r => GPT_forward (models r) x g))
    = Ok (tab ws (fun r => ((y, models' r), g1))) /\
    run_ranks (tab ws (fun r => GPT_forward (models r) x' g))
    = Ok (tab ws (fun r => ((y', models' r), g1'))) /\
    nth i y [] = nth i y' [].
Proof.
  intros Hws Hdim Hnh Hratio Hb Hs Hdn Hnw Hps Hx Hx' Hi Hxx.
  apply Nat.Div0.mod_divides in Hdn as [hs Hhs].
  apply Nat.Div0.mod_divides in Hnw as [nhl Hnhl].
  assert (Hhs0 : 0 < hs) by nia.
  assert (Hnhl0 : 0 < nhl) by nia.
  destruct (forward_blocks_group ws nhl hs dim nh ratio 0 b s ps (seq 0 depth))
    as (bss & Hbss & Hrun); try assumption; try nia; try lra.
  { intros k Hk. apply in_seq in Hk. apply Hps. lia. }
  exists (fst (stack_out b s dim hs ratio 0 ps (seq 0 depth) x g)),
    (fst (stack_out b s dim hs ratio 0 ps (seq 0 depth) x' g)),
    (snd (stack_out b s dim hs ratio 0 ps (seq 0 depth) x g)),
    (snd (stack_out b s dim hs ratio 0 ps (seq 0 depth) x' g)),
    (fun r => mkGPT (bss r)),
    (fun r => mkGPT (map (with_mask s) (bss r))).
  split; [| split; [| split]].
  - intros r Hr. unfold GPT_init. now rewrite (Hbss r Hr).
  - unfold GPT_forward.
    etransitivity.
    { apply f_equal. apply tab_ext. intros r Hr.
      unfold bind at 1. cbn [blocks]. reflexivity. }
    etransitivity; [apply Hrun; exact Hx |].
    cbn [fst snd]. apply run_ranks_ret.
  - unfold GPT_forward.
    etransitivity.
    { apply f_equal. apply tab_ext. intros r Hr.
      unfold bind at 1. cbn [blocks]. reflexivity. }
    etransitivity; [apply Hrun; exact Hx' |].
    cbn [fst snd]. apply run_ranks_ret.
  - now apply stack_out_batch.
Qed.

Lemma GPT_forward_batch_independent_witness :
  exists y y' g1 g1' models models',
    (forall r, r < 2 ->
       GPT_init (mkWorld 2 r) 1 2 2 (Some 1) 0 0 (fun _ => const_params 2 2 1%R)
       = Ok (models r)) /\
    run_ranks (tab 2 (fun r => GPT_forward (models r) x_batch2 gen0))
    = Ok (tab 2 (fun r => ((y, models' r), g1))) /\
    run_ranks (tab 2 (fun r => GPT_forward (models r) x_batch2' gen0))
    = Ok (tab 2 (fun r => ((y', models' r), g1'))) /\
    nth 0 y [] = nth 0 y' [].
Proof.
  apply (GPT_forward_batch_independent 2 2 2 1 1 2 1
           (fun _ => const_params 2 2 1%R) x_batch2 x_batch2' gen0 0);
    try lia; try reflexivity.
Defined.

(** ** The collectives of one rank *)

Lemma collectives_pbind {A B} comm (m : Proc A) (f : A -> Proc B) :
  collectives comm (pbind m f)
  = collectives comm m
    ++ match exec comm m with
       | Ok a => collectives comm (f a)
       | Err _ => []
       end.
Proof.
  induction m as [a | e | op t k IH]; simpl; auto. now rewrite IH.
Qed.

(** A step of a rank that returns [a] after the collectives [l], followed
    by the rest of the computation. *)
Lemma bind_step {A B} comm (m : M A) (f : A -> M B) g a g1 l :
  exec comm (m g) = Ok (a, g1) ->
  collectives comm (m g) = l ->
  exec comm (bind m f g) = exec comm (f a g1) /\
  collectives comm (bind m f g) = l ++ collectives comm (f a g1).
Proof.
  intros He Hc. split.
  - rewrite exec_bind, He. reflexivity.
  - unfold bind. rewrite collectives_pbind, He, Hc. reflexivity.
Qed.

Section Rank.
Variables (ws r nhl hs dim nh ratio b s : nat) (d : R).
Variable comm : collective -> T3 -> T3.
Hypotheses (Hr : r < ws) (Hnhl : 0 < nhl) (Hhs : 0 < hs) (Hratio : 0 < ratio).
Hypotheses (Hb : 0 < b) (Hs : 0 < s).
Hypotheses (Hdim : dim = ws * (nhl * hs)) (Hnh : nh = ws * nhl).
Hypothesis Hd : (0 <= d <= 1)%R.
Hypothesis Hcomm : forall t,
  has_shape3 b s dim t = true -> has_shape3 b s dim (comm AllReduce t) = true.

Lemma SelfAttention_rank_run ps sa x g :
  has_shape3 b s dim x = true ->
  attn_params_shaped dim ps = true ->
  SelfAttention_init (mkWorld ws r) dim nh 0 d ps = Ok sa ->
  exists y g',
    exec comm (SelfAttention_forward sa x g)
    = Ok ((y, set_core_attention sa
                (set_causal_mask (core_attention sa) (tril_mask s s))), g') /\
    has_shape3 b s dim y = true /\
    collectives comm (SelfAttention_forward sa x g) = [AllReduce].
Proof.
  intros Hx Hps Hsa.
  destruct (SelfAttention_forward_rank ws r nhl hs dim nh b s x ps d g
              Hr Hnhl Hhs Hb Hs Hdim Hnh Hd Hx Hps)
    as (sa0 & Kont & Hsa0 & Hfwd & HK).
  rewrite Hsa in Hsa0. injection Hsa0 as <-.
  rewrite Hfwd. cbn [exec collectives].
  match goal with
  | |- context [comm AllReduce ?t] =>
      pose proof (Hcomm t (has_shape3_tab _ _ _ _)) as Ht;
      rewrite (shape3_tab _ _ _ _ Ht)
  end.
  rewrite HK. cbn [exec collectives].
  do 2 eexists. split; [reflexivity |]. split; [| reflexivity].
  apply run_dropout3_shape, has_shape3_tab.
Qed.

Lemma FeedForward_rank_run ps ff x g :
  has_shape3 b s dim x = true ->
  mlp_params_shaped dim (dim * ratio) ps = true ->
  FeedForward_init (mkWorld ws r) dim (Some ratio) ps = Ok ff ->
  exists y,
    exec comm (FeedForward_forward ff x g) = Ok (y, g) /\
    has_shape3 b s dim y = true /\
    collectives comm (FeedForward_forward ff x g) = [AllReduce].
Proof.
  intros Hx Hps Hff.
  destruct (FeedForward_forward_rank ws r (nhl * hs * ratio) dim ratio b s x ps g)
    as (ff0 & Kont & Hff0 & Hfwd & HK); try assumption; try nia.
  rewrite Hff in Hff0. injection Hff0 as <-.
  rewrite Hfwd. cbn [exec collectives].
  match goal with
  | |- context [comm AllReduce ?t] =>
      pose proof (Hcomm t (has_shape3_tab _ _ _ _)) as Ht;
      rewrite (shape3_tab _ _ _ _ Ht)
  end.
  rewrite HK. cbn [exec collectives].
  eexists. split; [reflexivity |]. split; [| reflexivity].
  apply has_shape3_tab.
Qed.

Lemma GPTLayer_rank_run ps layer x g :
  has_shape3 b s dim x = true ->
  block_params_shaped dim (dim * ratio) ps = true ->
  GPTLayer_init (mkWorld ws r) dim nh (Some ratio) 0 d ps = Ok layer ->
  exists y g',
    exec comm (GPTLayer_forward layer x g) = Ok ((y, with_mask s layer), g') /\
    has_shape3 b s dim y = true /\
    collectives comm (GPTLayer_forward layer x g) = [AllReduce; AllReduce].
Proof.
  intros Hx Hps Hinit.
  apply block_params_shaped_inv in Hps as (Hw1 & Hb1 & Hw2 & Hb2 & Haps & Hfps).
  destruct (GPTLayer_init_ok (mkWorld ws r) dim nh (Some ratio) 0 d ps)
    as (sa & ff & Hsa & Hff & Hi);
    [subst nh; nia
    | subst dim; simpl; rewrite Nat.mul_comm; apply Nat.Div0.mod_mul
    | lra | assumption |].
  rewrite Hinit in Hi. injection Hi as ->. cbn [or_default] in Hff.
  unfold GPTLayer_forward. cbn [norm1 attn norm2 mlp set_attn].
  rewrite (LayerNorm_forward_tab b s) by assumption.
  set (n1 := tab3 b s dim _).
  assert (Hn1 : has_shape3 b s dim n1 = true) by apply has_shape3_tab.
  destruct (SelfAttention_rank_run (attn_params ps) sa n1 g Hn1 Haps Hsa)
    as (a & g1 & Hea & Ha & Hca).
  match goal with
  | |- context [bind (lift (Ok n1)) ?k g] =>
      change (bind (lift (Ok n1)) k g) with (k n1 g)
  end.
  cbv beta.
  match goal with
  | |- context [bind (SelfAttention_forward sa n1) ?k g] =>
      destruct (bind_step comm (SelfAttention_forward sa n1) k g _ _ _ Hea Hca)
        as [-> ->]
  end.
  cbn [fst snd]. cbn [norm2 mlp set_attn].
  rewrite (add_shaped b s dim) by assumption.
  set (x1 := tab3 b s dim _).
  assert (Hx1 : has_shape3 b s dim x1 = true) by apply has_shape3_tab.
  match goal with
  | |- context [bind (lift (Ok x1)) ?k g1] =>
      change (bind (lift (Ok x1)) k g1) with (k x1 g1)
  end.
  cbv beta.
  rewrite (LayerNorm_forward_tab b s) by assumption.
  set (n2 := tab3 b s dim _).
  assert (Hn2 : has_shape3 b s dim n2 = true) by apply has_shape3_tab.
  match goal with
  | |- context [bind (lift (Ok n2)) ?k g1] =>
      change (bind (lift (Ok n2)) k g1) with (k n2 g1)
  end.
  cbv beta.
  destruct (FeedForward_rank_run (mlp_params ps) ff n2 g1 Hn2 Hfps Hff)
    as (m & Hem & Hm & Hcm).
  match goal with
  | |- context [bind (FeedForward_forward ff n2) ?k g1] =>
      destruct (bind_step comm (FeedForward_forward ff n2) k g1 _ _ _ Hem Hcm)
        as [-> ->]
  end.
  rewrite (add_shaped b s dim) by assumption.
  cbn [bind lift ret pbind exec collectives fst snd app].
  do 2 eexists. split; [reflexivity |]. split; [| reflexivity].
  apply has_shape3_tab.
Qed.

Lemma forward_blocks_rank_run ps idx :
  (forall i, In i idx -> block_params_shaped dim (dim * ratio) (ps i) = true) ->
  forall bs x g,
    has_shape3 b s dim x = true ->
    init_blocks (mkWorld ws r) dim nh (Some ratio) 0 d ps idx = Ok bs ->
    exists y g',
      exec comm (forward_blocks bs x g) = Ok ((y, map (with_mask s) bs), g') /\
      has_shape3 b s dim y = true /\
      collectives comm (forward_blocks bs x g)
      = repeat AllReduce (2 * length idx).
Proof.
  induction idx as [| i idx IH]; intros Hps bs x g Hx Hinit.
  - simpl in Hinit. injection Hinit as <-. simpl. eauto.
  - cbn [init_blocks] in Hinit.
    destruct (GPTLayer_init (mkWorld ws r) dim nh (Some ratio) 0 d (ps i))
      as [layer | e] eqn:Hlayer; simpl in Hinit; [| discriminate].
    destruct (init_blocks (mkWorld ws r) dim nh (Some ratio) 0 d ps idx)
      as [bs0 | e] eqn:Hbs0; simpl in Hinit; [| discriminate].
    injection Hinit as <-.
    destruct (GPTLayer_rank_run (ps i) layer x g Hx (Hps i (or_introl eq_refl))
                Hlayer) as (y1 & g1 & He1 & Hy1 & Hc1).
    destruct (IH (fun j Hj => Hps j (or_intror Hj)) bs0 y1 g1 Hy1 eq_refl)
      as (y & g' & He & Hy & Hc).
    cbn [forward_blocks].
    match goal with
    | |- context [bind (GPTLayer_forward layer x) ?k g] =>
        destruct (bind_step comm (GPTLayer_forward layer x) k g _ _ _ He1 Hc1)
          as [-> ->]
    end.
    cbn [fst snd].
    match goal with
    | |- context [bind (forward_blocks bs0 y1) ?k g1] =>
        destruct (bind_step comm (forward_blocks bs0 y1) k g1 _ _ _ He Hc)
          as [-> ->]
    end.
    cbn [ret exec collectives fst snd map].
    exists y, g'. split; [reflexivity |]. split; [exact Hy |].
    rewrite app_nil_r. cbn [length].
    replace (2 * S (length idx)) with (2 + 2 * length idx) by lia.
    reflexivity.
Qed.

End Rank.

(** X10.  What one rank communicates.  For a rank of a group with
    [num_heads] a multiple of the world size and [dim] a multiple of
    [num_heads], no attention dropout, and an input of shape
    [[b, s, dim]]: whenever every all-reduce is answered by a tensor of
    that shape, [GPT.forward] returns on this rank a tensor of the shape
    of the input, after exactly two all-reduces per block and no other
    collective. *)
Theorem GPT_forward_collectives ws r dim nh ratio d depth b s ps comm model x g :
  r < ws -> 0 < dim -> 0 < nh -> 0 < ratio -> 0 < b -> 0 < s ->
  dim mod nh = 0 -> nh mod ws = 0 ->
  (0 <= d <= 1)%R ->
  (forall i, i < depth -> block_params_shaped dim (dim * ratio) (ps i) = true) ->
  has_shape3 b s dim x = true ->
  (forall t, has_shape3 b s dim t = true ->
     has_shape3 b s dim (comm AllReduce t) = true) ->
  GPT_init (mkWorld ws r) depth dim nh (Some ratio) 0 d ps = Ok model ->
  exists y model' g',
    exec comm (GPT_forward model x g) = Ok ((y, model'), g') /\
    has_shape3 b s dim y = true /\
    collectives comm (GPT_forward model x g) = repeat AllReduce (2 * depth).
Proof.
  intros Hr Hdim Hnh Hratio Hb Hs Hdn Hnw Hd Hps Hx Hcomm Hinit.
  apply Nat.Div0.mod_divides in Hdn as [hs Hhs].
  apply Nat.Div0.mod_divides in Hnw as [nhl Hnhl].
  assert (Hhs0 : 0 < hs) by nia.
  assert (Hnhl0 : 0 < nhl) by nia.
  unfold GPT_init in Hinit.
  destruct (init_blocks (mkWorld ws r) dim nh (Some ratio) 0 d ps (seq 0 depth))
    as [bs | e] eqn:Hbs; simpl in Hinit; [| discriminate].
  injection Hinit as <-.
  destruct (forward_blocks_rank_run ws r nhl hs dim nh ratio b s d comm
              Hr Hnhl0 Hhs0 Hratio Hb Hs) with (ps := ps) (idx := seq 0 depth)
              (bs := bs) (x := x) (g := g)
    as (y & g' & He & Hy & Hc); try assumption; try nia.
  { intros i Hi. apply in_seq in Hi. apply Hps. lia. }
  unfold GPT_forward. cbn [blocks].
  match goal with
  | |- context [bind (forward_blocks bs x) ?k g] =>
      destruct (bind_step comm (forward_blocks bs x) k g _ _ _ He Hc)
        as [-> ->]
  end.
  cbn [ret exec collectives fst snd].
  do 3 eexists. split; [reflexivity |]. split; [exact Hy |].
  now rewrite app_nil_r, length_seq.
Qed.

Lemma GPT_forward_collectives_witness :
  exists y model' g',
    exec alone (GPT_forward stack_1 x_dim2 gen0) = Ok ((y, model'), g') /\
    has_shape3 1 1 2 y = true /\
    collectives alone (GPT_forward stack_1 x_dim2 gen0)
    = repeat AllReduce (2 * 1).
Proof.
  apply (GPT_forward_collectives 1 0 2 2 1 0 1 1 1
           (fun _ => const_params 2 2 1%R) alone stack_1 x_dim2 gen0);
    try lia; try reflexivity; try lra.
  - intros t Ht. exact Ht.
  - exact stack_1_init.
Defined.

(** ** A stack as the composition of its blocks *)

Lemma init_blocks_app w dim nh ratio ad d ps idx1 idx2 bs1 bs2 :
  init_blocks w dim nh ratio ad d ps idx1 = Ok bs1 ->
  init_blocks w dim nh ratio ad d ps idx2 = Ok bs2 ->
  init_blocks w dim nh ratio ad d ps (idx1 ++ idx2) = Ok (bs1 ++ bs2).
Proof.
  revert bs1. induction idx1 as [| i idx1 IH]; intros bs1 H1 H2; simpl in *.
  - injection H1 as <-. exact H2.
  - destruct (GPTLayer_init w dim nh ratio ad d (ps i)) as [block | e];
      simpl in *; [| discriminate].
    destruct (init_blocks w dim nh ratio ad d ps idx1) as [bs0 | e];
      simpl in *; [| discriminate].
    injection H1 as <-. now rewrite (IH bs0 eq_refl H2).
Qed.

Lemma init_blocks_shift w dim nh ratio ad d ps m idx :
  init_blocks w dim nh ratio ad d ps (map (Nat.add m) idx)
  = init_blocks w dim nh ratio ad d (fun i => ps (m + i)) idx.
Proof.
  induction idx as [| i idx IH]; [reflexivity |].
  simpl. now rewrite IH.
Qed.

Lemma forward_blocks_app comm bs1 bs2 x g :
  exec comm (forward_blocks (bs1 ++ bs2) x g)
  = rbind (exec comm (forward_blocks bs1 x g)) (fun r1 =>
    rbind (exec comm (forward_blocks bs2 (fst (fst r1)) (snd r1))) (fun r2 =>
    Ok ((fst (fst r2), snd (fst r1) ++ snd (fst r2)), snd r2))).
Proof.
  revert x g. induction bs1 as [| block bs1 IH]; intros x g.
  - simpl. destruct (exec comm (forward_blocks bs2 x g)) as [[[y bs] g'] | e];
      reflexivity.
  - cbn [app forward_blocks]. rewrite !exec_bind.
    destruct (exec comm (GPTLayer_forward block x g)) as [[[x1 block'] g1] | e];
      [| reflexivity].
    cbn [rbind fst snd]. rewrite !exec_bind, IH.
    destruct (exec comm (forward_blocks bs1 x1 g1)) as [[[x2 bs1'] g2] | e];
      [| reflexivity].
    cbn [rbind fst snd ret exec].
    destruct (exec comm (forward_blocks bs2 x2 g2)) as [[[x3 bs2'] g3] | e];
      reflexivity.
Qed.

(** X11.  A stack of depth [m + n] is a stack of depth [m] followed by a
    stack of depth [n]: its blocks are those of the two stacks constructed
    from the first [m] and from the following [n] parameter sets, and its
    [forward] returns what the second returns at the output of the first,
    or raises where one of them raises. *)
Theorem GPT_forward_compose w m n dim nh ratio ad d ps model1 model2 comm x g :
  GPT_init w m dim nh ratio ad d ps = Ok model1 ->
  GPT_init w n dim nh ratio ad d (fun i => ps (m + i)) = Ok model2 ->
  GPT_init w (m + n) dim nh ratio ad d ps
  = Ok (mkGPT (blocks model1 ++ blocks model2)) /\
  exec comm (GPT_forward (mkGPT (blocks model1 ++ blocks model2)) x g)
  = rbind (exec comm (GPT_forward model1 x g)) (fun r1 =>
    rbind (exec comm (GPT_forward model2 (fst (fst r1)) (snd r1))) (fun r2 =>
    Ok ((fst (fst r2),
         mkGPT (blocks (snd (fst r1)) ++ blocks (snd (fst r2)))), snd r2))).
Proof.
  intros H1 H2. unfold GPT_init in *.
  destruct (init_blocks w dim nh ratio ad d ps (seq 0 m)) as [bs1 | e] eqn:Hbs1;
    simpl in H1; [| discriminate].
  destruct (init_blocks w dim nh ratio ad d (fun i => ps (m + i)) (seq 0 n))
    as [bs2 | e] eqn:Hbs2; simpl in H2; [| discriminate].
  injection H1 as <-. injection H2 as <-. cbn [blocks]. split.
  - rewrite seq_app. cbn [Nat.add].
    rewrite <- init_blocks_shift in Hbs2.
    change (map (Nat.add m) (seq 0 n)) with (map (fun i => m + i) (seq 0 n))
      in Hbs2.
    rewrite <- seq_offset, Nat.add_0_r in Hbs2.
    rewrite (init_blocks_app _ _ _ _ _ _ _ _ _ _ _ Hbs1 Hbs2). reflexivity.
  - unfold GPT_forward. rewrite !exec_bind. cbn [blocks].
    rewrite forward_blocks_app.
    destruct (exec comm (forward_blocks bs1 x g)) as [[[x1 bs1'] g1] | e];
      [| reflexivity].
    cbn [rbind fst snd ret exec]. rewrite exec_bind.
    destruct (exec comm (forward_blocks bs2 x1 g1)) as [[[x2 bs2'] g2] | e];
      reflexivity.
Qed.

Lemma GPT_forward_compose_witness :
  GPT_init (mkWorld 1 0) (1 + 1) 2 2 (Some 1) 0 0 (fun _ => const_params 2 2 1%R)
  = Ok (mkGPT (blocks stack_1 ++ blocks stack_1)) /\
  exec alone (GPT_forward (mkGPT (blocks stack_1 ++ blocks stack_1)) x_dim2 gen0)
  = rbind (exec alone (GPT_forward stack_1 x_dim2 gen0)) (fun r1 =>
    rbind (exec alone (GPT_forward stack_1 (fst (fst r1)) (snd r1))) (fun r2 =>
    Ok ((fst (fst r2),
         mkGPT (blocks (snd (fst r1)) ++ blocks (snd (fst r2)))), snd r2))).
Proof.
  apply (GPT_forward_compose (mkWorld 1 0) 1 1 2 2 (Some 1) 0 0
           (fun _ => const_params 2 2 1%R) stack_1 stack_1 alone x_dim2 gen0).
  - exact stack_1_init.
  - exact stack_1_init.
Defined.

(** ** The pytree node of the UNet output *)

(** X12.  The two functions registered for [UNet2DConditionOutput] are
    inverse to each other on what they produce: unflattening the flattened
    record gives the record back, flattening an unflattened list keeps its
    first value only, and unflattening the empty list fails. *)
Theorem UNet2DConditionOutput_roundtrip :
  (forall x,
     UNet2DConditionOutput.unflatten (fst (UNet2DConditionOutput.flatten x))
       (snd (UNet2DConditionOutput.flatten x)) = Some x) /\
  (forall v rest (c : option unit),
     option_map UNet2DConditionOutput.flatten
       (UNet2DConditionOutput.unflatten (v :: rest) c) = Some ([v], None)) /\
  (forall c : option unit, UNet2DConditionOutput.unflatten [] c = None).
Proof.
  split; [| split].
  - intros [v]. reflexivity.
  - reflexivity.
  - reflexivity.
Qed.

(** ** More heads than dimensions *)

(** X13.  More heads than dimensions: with [dim < num_heads] the head size
    [dim // num_heads] is 0; the construction succeeds all the same, and
    [SelfAttention.forward] raises [ZeroDivisionError] on every input of
    shape [[b, s, dim]], when it divides the local width by the head size,
    before the rank has issued a collective. *)
Theorem SelfAttention_forward_zero_head_size ws r c dim nh ad d ps x g b s :
  r < ws -> 0 < c -> dim = ws * c -> dim < nh ->
  0 < b -> 0 < s ->
  (0 <= ad <= 1)%R -> (0 <= d <= 1)%R ->
  has_shape3 b s dim x = true ->
  attn_params_shaped dim ps = true ->
  exists sa,
    SelfAttention_init (mkWorld ws r) dim nh ad d ps = Ok sa /\
    sa_attention_head_size sa = 0 /\
    SelfAttention_forward sa x g = Raise ZeroDivisionError.
Proof.
  intros Hr Hc Hdim Hnh Hb Hs Had Hd Hx Hps.
  rewrite SelfAttention_init_ok; cbn [world_size rank];
    [| lia | subst dim; rewrite Nat.mul_comm; apply Nat.Div0.mod_mul
     | assumption | assumption].
  eexists. split; [reflexivity |].
  assert (Hq : dim / nh = 0) by (apply Nat.div_small; lia).
  assert (Hcw : dim / ws = c)
    by (subst dim; rewrite Nat.mul_comm; apply Nat.div_mul; lia).
  rewrite Hq, Hcw. split; [reflexivity |].
  apply attn_params_shaped_inv in Hps
    as (HWq & Hbq & HWk & Hbk & HWv & Hbv & _ & _).
  rewrite (shape3_tab _ _ _ _ Hx), HWq, Hbq, HWk, Hbk, HWv, Hbv.
  unfold SelfAttention_forward. unfold bind at 1.
  unfold SelfAttention_qkv, bind.
  cbn [query key value sa_attention_head_size].
  rewrite Hdim.
  do 3 (rewrite (ColumnParallelLinear_forward_shard ws r c) by assumption;
        cbn [pbind fst snd]).
  reflexivity.
Qed.

Lemma SelfAttention_forward_zero_head_size_witness :
  exists sa,
    SelfAttention_init (mkWorld 1 0) 2 3 0 0 (ones_attn 2) = Ok sa /\
    sa_attention_head_size sa = 0 /\
    SelfAttention_forward sa x_dim2 gen0 = Raise ZeroDivisionError.
Proof.
  apply (SelfAttention_forward_zero_head_size 1 0 2 2 3 0 0 (ones_attn 2)
           x_dim2 gen0 1 1); try lia; try lra; reflexivity.
Defined.

(** ** A stack that has served another sequence length *)

Lemma SelfAttention_forward_stale ws r nhl hs b s s1 X WQ BQ WK BK WV BV
    dns dr core g :
  r < ws -> 0 < nhl -> 0 < hs -> 0 < b -> 0 < s ->
  1 < s1 -> s1 <> s ->
  causal_mask core = Some (tril_mask s1 s1) ->
  SelfAttention_forward
    (mkSelfAttention hs
       (mkColumnParallelLinear (ws * (nhl * hs)) (ws * (nhl * hs)) false
          (chunk (nhl * hs) r (tab2 (ws * (nhl * hs)) (ws * (nhl * hs)) WQ))
          (chunk (nhl * hs) r (tab (ws * (nhl * hs)) BQ)))
       (mkColumnParallelLinear (ws * (nhl * hs)) (ws * (nhl * hs)) false
          (chunk (nhl * hs) r (tab2 (ws * (nhl * hs)) (ws * (nhl * hs)) WK))
          (chunk (nhl * hs) r (tab (ws * (nhl * hs)) BK)))
       (mkColumnParallelLinear (ws * (nhl * hs)) (ws * (nhl * hs)) false
          (chunk (nhl * hs) r (tab2 (ws * (nhl * hs)) (ws * (nhl * hs)) WV))
          (chunk (nhl * hs) r (tab (ws * (nhl * hs)) BV)))
       dns dr core)
    (tab3 b s (ws * (nhl * hs)) X) g
  = Raise RuntimeError.
Proof.
  intros Hr Hnhl Hhs Hb Hs Hs1 Hne Hm.
  unfold SelfAttention_forward. unfold bind at 1.
  rewrite SelfAttention_qkv_rank by assumption.
  cbn [pbind fst snd core_attention]. unfold bind at 1.
  rewrite (AttentionCore_forward_stale core _ _ _ g b nhl s1 s hs);
    try assumption; try apply has_shape4_tab.
  reflexivity.
Qed.

Lemma GPTLayer_forward_stale ws r nhl hs dim nh ratio d ps layer b s s1 x g :
  r < ws -> 0 < nhl -> 0 < hs -> 0 < b -> 0 < s ->
  1 < s1 -> s1 <> s ->
  dim = ws * (nhl * hs) -> nh = ws * nhl ->
  (0 <= d <= 1)%R ->
  block_params_shaped dim (dim * ratio) ps = true ->
  has_shape3 b s dim x = true ->
  GPTLayer_init (mkWorld ws r) dim nh (Some ratio) 0 d ps = Ok layer ->
  GPTLayer_forward (with_mask s1 layer) x g = Raise RuntimeError.
Proof.
  intros Hr Hnhl Hhs Hb Hs Hs1 Hne Hdim Hnh Hd Hps Hx Hinit.
  apply block_params_shaped_inv in Hps as (Hw1 & Hb1 & _ & _ & Haps & _).
  assert (Hnh0 : nh <> 0) by (subst nh; nia).
  assert (Hmod : dim mod world_size (mkWorld ws r) = 0)
    by (subst dim; simpl; rewrite Nat.mul_comm; apply Nat.Div0.mod_mul).
  destruct (GPTLayer_init_ok (mkWorld ws r) dim nh (Some ratio) 0 d ps)
    as (sa & ff & Hsa & _ & Hi); [assumption | assumption | lra | assumption |].
  rewrite Hinit in Hi. injection Hi as ->.
  rewrite SelfAttention_init_ok in Hsa by (assumption || lra).
  injection Hsa as <-. cbn [world_size rank].
  assert (Hc : dim / ws = nhl * hs)
    by (subst dim; rewrite Nat.mul_comm; apply Nat.div_mul; lia).
  assert (Hh : dim / nh = hs).
  { subst dim nh. replace (ws * (nhl * hs)) with (hs * (ws * nhl)) by ring.
    apply Nat.div_mul. nia. }
  rewrite Hc, Hh.
  apply attn_params_shaped_inv in Haps
    as (HWq & Hbq & HWk & Hbk & HWv & Hbv & _ & _).
  rewrite HWq, Hbq, HWk, Hbk, HWv, Hbv.
  unfold GPTLayer_forward. unfold bind at 1.
  cbn [with_mask set_attn norm1 attn].
  rewrite (LayerNorm_forward_tab b s) by assumption.
  cbn [lift ret pbind fst snd]. unfold bind at 1.
  unfold set_core_attention, set_causal_mask.
  cbn [sa_attention_head_size query key value dense dropout core_attention
       attention_head_size attention_dropout where_const].
  rewrite Hdim.
  rewrite (SelfAttention_forward_stale ws r nhl hs b s s1);
    try assumption; reflexivity.
Qed.

(** X14.  A stack serves one sequence length.  Under the conditions of
    shard invariance, after the ranks have returned from [GPT.forward] at
    an input of sequence length [s1 > 1], every block holds the mask of
    that length, and a later call of the returned stack at an input of any
    other sequence length raises [RuntimeError] on every rank, in the
    attention core of the first block, before a collective is issued. *)
Theorem GPT_forward_other_length ws dim nh ratio d depth b s1 b2 s2 ps x g :
  0 < ws -> 0 < dim -> 0 < nh -> 0 < ratio -> 0 < depth ->
  0 < b -> 1 < s1 -> 0 < b2 -> 0 < s2 -> s1 <> s2 ->
  dim mod nh = 0 -> nh mod ws = 0 ->
  (0 <= d <= 1)%R ->
  (forall i, i < depth -> block_params_shaped dim (dim * ratio) (ps i) = true) ->
  has_shape3 b s1 dim x = true ->
  exists y g' models models',
    (forall r, r < ws ->
       GPT_init (mkWorld ws r) depth dim nh (Some ratio) 0 d ps
       = Ok (models r)) /\
    run_ranks (tab ws (fun r => GPT_forward (models r) x g))
    = Ok (tab ws (fun r => ((y, models' r), g'))) /\
    forall r x2 g2, r < ws ->
      has_shape3 b2 s2 dim x2 = true ->
      GPT_forward (models' r) x2 g2 = Raise RuntimeError.
Proof.
  intros Hws Hdim Hnh Hratio Hdepth Hb Hs1 Hb2 Hs2 Hne Hdn Hnw Hd Hps Hx.
  apply Nat.Div0.mod_divides in Hdn as [hs Hhs].
  apply Nat.Div0.mod_divides in Hnw as [nhl Hnhl].
  assert (Hhs0 : 0 < hs) by nia.
  assert (Hnhl0 : 0 < nhl) by nia.
  destruct (forward_blocks_group ws nhl hs dim nh ratio d b s1 ps (seq 0 depth))
    as (bss & Hbss & Hrun); try assumption; try nia.
  { intros i Hi. apply in_seq in Hi. apply Hps. lia. }
  exists (fst (stack_out b s1 dim hs ratio d ps (seq 0 depth) x g)),
    (snd (stack_out b s1 dim hs ratio d ps (seq 0 depth) x g)),
    (fun r => mkGPT (bss r)),
    (fun r => mkGPT (map (with_mask s1) (bss r))).
  split; [| split].
  - intros r Hr. unfold GPT_init. now rewrite (Hbss r Hr).
  - unfold GPT_forward.
    etransitivity.
    { apply f_equal. apply tab_ext. intros r Hr.
      unfold bind at 1. cbn [blocks]. reflexivity. }
    etransitivity; [apply Hrun; exact Hx |].
    cbn [fst snd]. apply run_ranks_ret.
  - intros r x2 g2 Hr Hx2. specialize (Hbss r Hr).
    destruct depth as [| n]; [lia |].
    change (seq 0 (S n)) with (0 :: seq 1 n) in Hbss. cbn [init_blocks] in Hbss.
    destruct (GPTLayer_init (mkWorld ws r) dim nh (Some ratio) 0 d (ps 0))
      as [layer | e] eqn:Hlayer; simpl in Hbss; [| discriminate].
    destruct (init_blocks (mkWorld ws r) dim nh (Some ratio) 0 d ps (seq 1 n))
      as [rest | e]; simpl in Hbss; [| discriminate].
    injection Hbss as <-.
    unfold GPT_forward. unfold bind at 1. cbn [blocks map forward_blocks].
    unfold bind at 1.
    rewrite (GPTLayer_forward_stale ws r nhl hs dim nh ratio d (ps 0) layer
               b2 s2 s1); try assumption; try nia; try reflexivity.
    apply Hps. lia.
Qed.

Lemma GPT_forward_other_length_witness :
  exists y g' models models',
    (forall r, r < 2 ->
       GPT_init (mkWorld 2 r) 1 2 2 (Some 1) 0 0 (fun _ => const_params 2 2 1%R)
       = Ok (models r)) /\
    run_ranks (tab 2 (fun r => GPT_forward (models r) x_seq3 gen0))
    = Ok (tab 2 (fun r => ((y, models' r), g'))) /\
    forall r x2 g2, r < 2 ->
      has_shape3 1 2 2 x2 = true ->
      GPT_forward (models' r) x2 g2 = Raise RuntimeError.
Proof.
  apply (GPT_forward_other_length 2 2 2 1 0 1 1 3 1 2
           (fun _ => const_params 2 2 1%R) x_seq3 gen0);
    try lia; try reflexivity; try lra.
Defined.

(** ** The number of heads *)

Lemma init_blocks_head_quotient w dim nh nh' ratio ad d ps idx :
  nh <> 0 -> nh' <> 0 -> dim / nh = dim / nh' ->
  init_blocks w dim nh ratio ad d ps idx = init_blocks w dim nh' ratio ad d ps idx.
Proof.
  intros Hnh Hnh' Hq. induction idx as [| i idx IH]; [reflexivity |].
  cbn [init_blocks]. rewrite IH. f_equal.
  unfold GPTLayer_init, SelfAttention_init.
  apply Nat.eqb_neq in Hnh, Hnh'. now rewrite Hnh, Hnh', Hq.
Qed.

(** X15.  The constructors keep of [num_heads] only the head size
    [dim // num_heads]: two numbers of heads with the same quotient
    construct the same stack, so that [forward] cuts the projections into
    [width // head_size] heads, whatever [num_heads] was. *)
Theorem GPT_init_head_quotient w depth dim nh nh' ratio ad d ps :
  nh <> 0 -> nh' <> 0 -> dim / nh = dim / nh' ->
  GPT_init w depth dim nh ratio ad d ps = GPT_init w depth dim nh' ratio ad d ps.
Proof.
  intros Hnh Hnh' Hq. unfold GPT_init.
  now rewrite (init_blocks_head_quotient w dim nh nh').
Qed.

Lemma GPT_init_head_quotient_witness :
  GPT_init (mkWorld 2 0) 2 6 4 None 0 0 (fun _ => const_params 6 24 1%R)
  = GPT_init (mkWorld 2 0) 2 6 6 None 0 0 (fun _ => const_params 6 24 1%R).
Proof.
  apply (GPT_init_head_quotient (mkWorld 2 0) 2 6 4 6 None 0 0
           (fun _ => const_params 6 24 1%R)); [lia | lia | reflexivity].
Defined.

(** ** The local width against the head size *)

(** X16.  The configuration that construction accepts and [forward]
    rejects: when the local width [dim / world_size] of a rank is not a
    multiple of the head size [dim // num_heads] (as for 3 heads on 2
    ranks), [SelfAttention.forward] raises [RuntimeError] on every input
    of shape [[b, s, dim]], in the [view] that cuts the query projection
    into heads, before the rank has issued a collective. *)
Theorem SelfAttention_forward_view_error ws r c dim nh ad d ps x g b s :
  r < ws -> 0 < c -> dim = ws * c ->
  nh <> 0 -> 0 < dim / nh -> c mod (dim / nh) <> 0 ->
  0 < b -> 0 < s ->
  (0 <= ad <= 1)%R -> (0 <= d <= 1)%R ->
  has_shape3 b s dim x = true ->
  attn_params_shaped dim ps = true ->
  exists sa,
    SelfAttention_init (mkWorld ws r) dim nh ad d ps = Ok sa /\
    SelfAttention_forward sa x g = Raise RuntimeError.
Proof.
  intros Hr Hc Hdim Hnh Hhs Hmod Hb Hs Had Hd Hx Hps.
  rewrite SelfAttention_init_ok; cbn [world_size rank];
    [| assumption | subst dim; rewrite Nat.mul_comm; apply Nat.Div0.mod_mul
     | assumption | assumption].
  eexists. split; [reflexivity |].
  assert (Hcw : dim / ws = c)
    by (subst dim; rewrite Nat.mul_comm; apply Nat.div_mul; lia).
  rewrite Hcw.
  set (hs := dim / nh) in *.
  apply attn_params_shaped_inv in Hps
    as (HWq & Hbq & HWk & Hbk & HWv & Hbv & _ & _).
  rewrite (shape3_tab _ _ _ _ Hx), HWq, Hbq, HWk, Hbk, HWv, Hbv.
  unfold SelfAttention_forward. unfold bind at 1.
  unfold SelfAttention_qkv, bind.
  cbn [query key value sa_attention_head_size].
  rewrite Hdim.
  do 3 (rewrite (ColumnParallelLinear_forward_shard ws r c) by assumption;
        cbn [pbind fst snd]).
  destruct (Nat.eqb_spec hs 0) as [H0 | _]; [lia |].
  unfold view_split at 1.
  match goal with
  | |- context [size2 (tab3 b s c ?F)] =>
      destruct (sizes_tab3 b s c F Hb Hs) as (_ & _ & ->)
  end.
  assert (Hne : c <> c / hs * hs).
  { pose proof (Nat.div_mod_eq c hs). nia. }
  apply Nat.eqb_neq in Hne. rewrite Hne. reflexivity.
Qed.

Lemma SelfAttention_forward_view_error_witness :
  exists sa,
    SelfAttention_init (mkWorld 2 1) 6 3 0 0 (ones_attn 6) = Ok sa /\
    SelfAttention_forward sa x_dim6 gen0 = Raise RuntimeError.
Proof.
  apply (SelfAttention_forward_view_error 2 1 3 6 3 0 0 (ones_attn 6)
           x_dim6 gen0 1 1); try lia; try lra; try reflexivity.
  - simpl. lia.
  - simpl. lia.
Defined.



(** * The mask cache, dropout, the residual sums and the activation, entry by entry *)

Lemma skip_0 g : skip g 0 = g.
Proof. destruct g. unfold skip. cbn. f_equal. lia. Qed.

Lemma skip_skip g a b : skip (skip g a) b = skip g (a + b).
Proof. unfold skip. cbn. f_equal. lia. Qed.

(** A list mapped with a function that consumes [c] samples per element. *)
Lemma map_state_tab {A B} (f : A -> Generator -> B * Generator) c n F g :
  (forall i g', i < n -> snd (f (F i) g') = skip g' c) ->
  map_state f (tab n F) g
  = (tab n (fun i => fst (f (F i) (skip g (i * c)))), skip g (n * c)).
Proof.
  revert F g. induction n as [| n IH]; intros F g H.
  - cbn. now rewrite skip_0.
  - rewrite !tab_S. cbn [map_state].
    pose proof (H 0 g (Nat.lt_0_succ n)) as H0.
    destruct (f (F 0) g) as [v g1] eqn:E0. cbn [snd] in H0. subst g1.
    rewrite (IH (fun i => F (S i)) (skip g c))
      by (intros i g' Hi; apply H; lia).
    f_equal.
    + f_equal.
      * cbn [Nat.mul]. now rewrite skip_0, E0.
      * apply tab_ext. intros i _. rewrite skip_skip. reflexivity.
    + rewrite skip_skip. reflexivity.
Qed.

Lemma map_state_drop1 pr d W g :
  map_state (drop_elem pr) (tab d W) g
  = (tab d (fun l =>
       if Rlt_dec (uniform g (offset g + l)) (1 - pr)
       then (W l / (1 - pr))%R else 0%R),
     skip g d).
Proof.
  rewrite (map_state_tab (drop_elem pr) 1).
  - rewrite Nat.mul_1_r. f_equal. apply tab_ext. intros l _.
    rewrite Nat.mul_1_r. reflexivity.
  - intros i g' _. unfold drop_elem, draw, skip. cbn. f_equal. lia.
Qed.

Lemma map_state_drop2 pr c d (W : nat -> nat -> R) g :
  map_state (map_state (drop_elem pr)) (tab2 c d W) g
  = (tab2 c d (fun j l =>
       if Rlt_dec (uniform g (offset g + (j * d + l))) (1 - pr)
       then (W j l / (1 - pr))%R else 0%R),
     skip g (c * d)).
Proof.
  unfold tab2. rewrite (map_state_tab (map_state (drop_elem pr)) d).
  - f_equal. apply tab_ext. intros j _. rewrite map_state_drop1. cbn [fst].
    apply tab_ext. intros l _. cbn [skip uniform offset].
    now rewrite Nat.add_assoc.
  - intros j g' _. now rewrite map_state_drop1.
Qed.

Lemma map_state_drop3 pr b c d (W : nat -> nat -> nat -> R) g :
  map_state (map_state (map_state (drop_elem pr))) (tab3 b c d W) g
  = (tab3 b c d (fun h j l =>
       if Rlt_dec (uniform g (offset g + ((h * c + j) * d + l))) (1 - pr)
       then (W h j l / (1 - pr))%R else 0%R),
     skip g (b * c * d)).
Proof.
  unfold tab3.
  rewrite (map_state_tab (map_state (map_state (drop_elem pr))) (c * d)).
  - f_equal; [| f_equal; ring].
    apply tab_ext. intros h _. rewrite map_state_drop2. cbn [fst].
    apply tab2_ext. intros j l _ _. cbn [skip uniform offset].
    replace (offset g + h * (c * d) + (j * d + l))
      with (offset g + ((h * c + j) * d + l)) by ring.
    reflexivity.
  - intros h g' _. now rewrite map_state_drop2.
Qed.

Lemma map_state_drop4 pr a b c d (W : nat -> nat -> nat -> nat -> R) g :
  map_state (map_state (map_state (map_state (drop_elem pr)))) (tab4 a b c d W) g
  = (tab4 a b c d (fun i h j l =>
       if Rlt_dec (uniform g (offset g + (((i * b + h) * c + j) * d + l)))
            (1 - pr)
       then (W i h j l / (1 - pr))%R else 0%R),
     skip g (a * b * c * d)).
Proof.
  unfold tab4.
  rewrite (map_state_tab
             (map_state (map_state (map_state (drop_elem pr)))) (b * c * d)).
  - f_equal; [| f_equal; ring].
    apply tab_ext. intros i _. rewrite map_state_drop3. cbn [fst].
    apply tab3_ext. intros h j l _ _ _. cbn [skip uniform offset].
    replace (offset g + i * (b * c * d) + ((h * c + j) * d + l))
      with (offset g + (((i * b + h) * c + j) * d + l)) by ring.
    reflexivity.
  - intros i g' _. now rewrite map_state_drop3.
Qed.

(** [nn.Dropout] on a rank-4 tensor, entry by entry. *)
Lemma Dropout_forward4_tab dr a b c d W g :
  Dropout_forward4 dr (tab4 a b c d W) g
  = Ret (tab4 a b c d (fun i h j l =>
           dropout_entry dr g (((i * b + h) * c + j) * d + l) (W i h j l)),
         dropout_state dr g (a * b * c * d)).
Proof.
  unfold Dropout_forward4, F_dropout, dropout_entry, dropout_state.
  destruct (negb (training dr)); [reflexivity |].
  destruct (Req_dec_T (p dr) 0); [reflexivity |].
  destruct (Req_dec_T (p dr) 1).
  - unfold ret. now rewrite map4_tab4.
  - unfold sample. now rewrite map_state_drop4.
Qed.

(** ** A cached mask that broadcasts *)

Lemma bdim_bcast n0 n : n0 = n \/ n0 = 1 -> bdim n0 n = Some n.
Proof. intros [-> | ->]; [apply bdim_same | apply bdim_one_l]. Qed.

Lemma expand_bcast {A} n n0 (f : nat -> A) :
  n0 = n \/ n0 = 1 ->
  expand n (tab n0 f) = tab n (fun k => f (if n0 =? 1 then 0 else k)).
Proof.
  intros H. destruct (Nat.eqb_spec n0 1) as [-> | Hne].
  - apply expand_tab1.
  - destruct H as [-> | H]; [| contradiction].
    apply expand_same, length_tab.
Qed.

Lemma where_tril_bcast a b n m n0 m0 F c :
  0 < a -> 0 < b -> 0 < n -> 0 < m -> 0 < n0 ->
  n0 = n \/ n0 = 1 -> m0 = m \/ m0 = 1 ->
  where_ (tril_mask n0 m0) (tab4 a b n m F) c
  = Ok (tab4 a b n m (fun i j k l =>
          if mask_bit n0 m0 k l then F i j k l else c)).
Proof.
  intros Ha Hb Hn Hm Hn0 Hbn Hbm. unfold where_.
  destruct (sizes_tab4 a b n m F Ha Hb Hn) as (-> & -> & -> & ->).
  destruct (sizes_tril_mask n0 m0 Hn0) as (-> & -> & -> & ->).
  rewrite !bdim_one_l, !bdim_bcast by assumption. f_equal.
  unfold tril_mask. cbn [expand]. rewrite expand_same by apply length_tab.
  rewrite repeat_tab. unfold tab4. rewrite zip_with_tab.
  apply tab_ext. intros i _.
  cbn [expand]. rewrite expand_same by apply length_tab.
  rewrite repeat_tab. unfold tab3. rewrite zip_with_tab.
  apply tab_ext. intros j _.
  rewrite tril_tab2. unfold tab2.
  rewrite expand_bcast by assumption.
  rewrite expand_same by apply length_tab.
  rewrite zip_with_tab. apply tab_ext. intros k _.
  rewrite expand_bcast by assumption.
  rewrite expand_same by apply length_tab.
  apply zip_with_tab.
Qed.

Lemma attention_probs_cached self q k a b n m d n0 m0 :
  0 < a -> 0 < b -> 0 < n -> 0 < m -> 0 < d -> 0 < n0 ->
  d = attention_head_size self ->
  has_shape4 a b n d q = true -> has_shape4 a b m d k = true ->
  mask_of self q k = tril_mask n0 m0 ->
  n0 = n \/ n0 = 1 -> m0 = m \/ m0 = 1 ->
  attention_probs self q k
  = Ok (tab4 a b n m (cached_weight d (where_const self) n0 m0 q k m)).
Proof.
  intros Ha Hb Hn Hm Hd Hn0 Heq Hq Hk Hmask Hbn Hbm.
  unfold attention_probs. rewrite Hmask.
  rewrite (shape4_tab _ _ _ _ _ Hq) at 1. rewrite (shape4_tab _ _ _ _ _ Hk) at 1.
  rewrite transpose_last_tab4, matmul_tab4 by assumption. simpl rbind.
  rewrite map4_tab4, where_tril_bcast by assumption. simpl rbind.
  rewrite softmax_tab4. f_equal. apply tab4_ext. intros i h j l _ _ _ _.
  unfold cached_weight. rewrite <- Heq. reflexivity.
Qed.

(** One call of an attention core that applies the mask of [n0] by [m0]
    positions. *)
Lemma AttentionCore_forward_cached self q k v g a b n m d n0 m0 :
  0 < a -> 0 < b -> 0 < n -> 0 < m -> 0 < d -> 0 < n0 ->
  d = attention_head_size self ->
  has_shape4 a b n d q = true -> has_shape4 a b m d k = true ->
  has_shape4 a b m d v = true ->
  mask_of self q k = tril_mask n0 m0 ->
  n0 = n \/ n0 = 1 -> m0 = m \/ m0 = 1 ->
  exists ctx,
    attention_probs self q k
    = Ok (tab4 a b n m (cached_weight d (where_const self) n0 m0 q k m)) /\
    AttentionCore_forward self q k v g
    = Ret ((ctx, set_causal_mask self (tril_mask n0 m0)),
           dropout_state (attention_dropout self) g (a * b * n * m)) /\
    has_shape3 a n (b * d) ctx = true /\
    forall i j h e, i < a -> j < n -> h < b -> e < d ->
      at3 ctx i j (h * d + e)
      = sum (tab m (fun l =>
          (dropout_entry (attention_dropout self) g (((i * b + h) * n + j) * m + l)
             (cached_weight d (where_const self) n0 m0 q k m i h j l)
           * at4 v i h l e)%R)).
Proof.
  intros Ha Hb Hn Hm Hd Hn0 Heq Hq Hk Hv Hmask Hbn Hbm.
  pose proof (attention_probs_cached self q k a b n m d n0 m0
                Ha Hb Hn Hm Hd Hn0 Heq Hq Hk Hmask Hbn Hbm) as Hp.
  eexists. split; [exact Hp |].
  split; [| split].
  - unfold AttentionCore_forward, bind. rewrite Hp.
    cbn [lift ret pbind fst snd].
    change (attention_dropout (set_causal_mask self (mask_of self q k)))
      with (attention_dropout self).
    rewrite Dropout_forward4_tab. cbn [pbind fst snd].
    rewrite (shape4_tab _ _ _ _ _ Hv) at 1.
    rewrite matmul_tab4 by assumption. cbn [lift ret pbind fst snd].
    rewrite transpose_12_tab4, merge_last_tab4 by assumption.
    rewrite Hmask. reflexivity.
  - apply has_shape3_tab.
  - intros i j h e Hi Hj Hh He.
    rewrite at3_tab by (try assumption; nia).
    assert (E1 : (h * d + e) / d = h)
      by (rewrite Nat.div_add_l, Nat.div_small by lia; lia).
    assert (E2 : (h * d + e) mod d = e)
      by (rewrite Nat.add_comm, Nat.Div0.mod_add; apply Nat.mod_small; lia).
    rewrite E1, E2. apply dot_tab.
Qed.

(** C2 (as amended).  The causal mask is built only when the instance has
    none, from the lengths [(q_len, k_len)] of that call, and is cached
    without a key.  For a call on well-shaped tensors that applies the mask
    of [n0] by [m0] positions (the lower triangle of the call's own
    lengths when the cache is empty, the cached mask when it broadcasts
    against the scores): the attention weights are the softmax of the
    scaled scores with the fill value where that mask is false, the
    context is their product with the values, and the returned instance
    holds that mask.  Every later call of the returned instance, whatever
    its lengths, masks its scores with that same mask and leaves it in the
    cache; for lengths against which it broadcasts, the weights and the
    context of the later call are given entry by entry. *)
Theorem causal_mask_cached_once self q k v g a b n m d n0 m0 :
  0 < a -> 0 < b -> 0 < n -> 0 < m -> 0 < d -> 0 < n0 -> 0 < m0 ->
  d = attention_head_size self ->
  has_shape4 a b n d q = true ->
  has_shape4 a b m d k = true ->
  has_shape4 a b m d v = true ->
  (causal_mask self = None /\ n0 = n /\ m0 = m) \/
  (causal_mask self = Some (tril_mask n0 m0) /\
   (n0 = n \/ n0 = 1) /\ (m0 = m \/ m0 = 1)) ->
  (exists ctx,
     attention_probs self q k
     = Ok (tab4 a b n m (cached_weight d (where_const self) n0 m0 q k m)) /\
     AttentionCore_forward self q k v g
     = Ret ((ctx, set_causal_mask self (tril_mask n0 m0)),
            dropout_state (attention_dropout self) g (a * b * n * m)) /\
     has_shape3 a n (b * d) ctx = true /\
     forall i j h e, i < a -> j < n -> h < b -> e < d ->
       at3 ctx i j (h * d + e)
       = sum (tab m (fun l =>
           (dropout_entry (attention_dropout self) g
              (((i * b + h) * n + j) * m + l)
              (cached_weight d (where_const self) n0 m0 q k m i h j l)
            * at4 v i h l e)%R))) /\
  causal_mask (set_causal_mask self (tril_mask n0 m0))
  = Some (tril_mask n0 m0) /\
  (forall q2 k2,
     attention_probs (set_causal_mask self (tril_mask n0 m0)) q2 k2
     = rbind (matmul q2 (transpose_last k2)) (fun x =>
       rbind (where_ (tril_mask n0 m0)
                (map4 (fun e => (e / sqrt (INR d))%R) x) (where_const self))
         (fun x => Ok (softmax x)))) /\
  (forall q2 k2 v2 g2 out self2 g2',
     AttentionCore_forward (set_causal_mask self (tril_mask n0 m0)) q2 k2 v2 g2
     = Ret ((out, self2), g2') ->
     self2 = set_causal_mask self (tril_mask n0 m0)) /\
  (forall a2 b2 n2 m2 q2 k2 v2 g2,
     0 < a2 -> 0 < b2 -> 0 < n2 -> 0 < m2 ->
     has_shape4 a2 b2 n2 d q2 = true ->
     has_shape4 a2 b2 m2 d k2 = true ->
     has_shape4 a2 b2 m2 d v2 = true ->
     n0 = n2 \/ n0 = 1 -> m0 = m2 \/ m0 = 1 ->
     exists ctx2,
       attention_probs (set_causal_mask self (tril_mask n0 m0)) q2 k2
       = Ok (tab4 a2 b2 n2 m2
               (cached_weight d (where_const self) n0 m0 q2 k2 m2)) /\
       AttentionCore_forward (set_causal_mask self (tril_mask n0 m0)) q2 k2 v2 g2
       = Ret ((ctx2, set_causal_mask self (tril_mask n0 m0)),
              dropout_state (attention_dropout self) g2 (a2 * b2 * n2 * m2)) /\
       has_shape3 a2 n2 (b2 * d) ctx2 = true /\
       forall i j h e, i < a2 -> j < n2 -> h < b2 -> e < d ->
         at3 ctx2 i j (h * d + e)
         = sum (tab m2 (fun l =>
             (dropout_entry (attention_dropout self) g2
                (((i * b2 + h) * n2 + j) * m2 + l)
                (cached_weight d (where_const self) n0 m0 q2 k2 m2 i h j l)
              * at4 v2 i h l e)%R))).
Proof.
  intros Ha Hb Hn Hm Hd Hn0 Hm0 Heq Hq Hk Hv Hc.
  assert (Hmask : mask_of self q k = tril_mask n0 m0 /\
                  (n0 = n \/ n0 = 1) /\ (m0 = m \/ m0 = 1)).
  { destruct Hc as [(Hnone & -> & ->) | (Hsome & Hbn & Hbm)].
    - split; [| auto].
      apply (mask_of_fresh self q k a b n m d); auto.
    - split; [| auto]. unfold mask_of. now rewrite Hsome. }
  destruct Hmask as (Hmask & Hbn & Hbm).
  split; [| split; [reflexivity | split; [| split]]].
  - now apply AttentionCore_forward_cached.
  - intros q2 k2. unfold attention_probs. rewrite mask_of_set.
    cbn [set_causal_mask attention_head_size where_const]. now rewrite <- Heq.
  - intros q2 k2 v2 g2 out self2 g2' H.
    apply AttentionCore_forward_inv in H as [-> _].
    rewrite mask_of_set. reflexivity.
  - intros a2 b2 n2 m2 q2 k2 v2 g2 Ha2 Hb2 Hn2 Hm2 Hq2 Hk2 Hv2 Hbn2 Hbm2.
    apply (AttentionCore_forward_cached
             (set_causal_mask self (tril_mask n0 m0)) q2 k2 v2 g2
             a2 b2 n2 m2 d n0 m0); try assumption.
    apply mask_of_set.
Qed.

Lemma causal_mask_cached_once_witness :
  (exists ctx,
     attention_probs core_seq1 seq2_q seq2_q
     = Ok (tab4 1 1 2 2 (cached_weight 1 (where_const core_seq1) 1 1 seq2_q seq2_q 2)) /\
     AttentionCore_forward core_seq1 seq2_q seq2_q seq2_v gen0
     = Ret ((ctx, set_causal_mask core_seq1 (tril_mask 1 1)),
            dropout_state (attention_dropout core_seq1) gen0 (1 * 1 * 2 * 2)) /\
     has_shape3 1 2 (1 * 1) ctx = true /\
     forall i j h e, i < 1 -> j < 2 -> h < 1 -> e < 1 ->
       at3 ctx i j (h * 1 + e)
       = sum (tab 2 (fun l =>
           (dropout_entry (attention_dropout core_seq1) gen0
              (((i * 1 + h) * 2 + j) * 2 + l)
              (cached_weight 1 (where_const core_seq1) 1 1 seq2_q seq2_q 2 i h j l)
            * at4 seq2_v i h l e)%R))) /\
  causal_mask (set_causal_mask core_seq1 (tril_mask 1 1))
  = Some (tril_mask 1 1) /\
  (forall q2 k2,
     attention_probs (set_causal_mask core_seq1 (tril_mask 1 1)) q2 k2
     = rbind (matmul q2 (transpose_last k2)) (fun x =>
       rbind (where_ (tril_mask 1 1)
                (map4 (fun e => (e / sqrt (INR 1))%R) x) (where_const core_seq1))
         (fun x => Ok (softmax x)))) /\
  (forall q2 k2 v2 g2 out self2 g2',
     AttentionCore_forward (set_causal_mask core_seq1 (tril_mask 1 1)) q2 k2 v2 g2
     = Ret ((out, self2), g2') ->
     self2 = set_causal_mask core_seq1 (tril_mask 1 1)) /\
  (forall a2 b2 n2 m2 q2 k2 v2 g2,
     0 < a2 -> 0 < b2 -> 0 < n2 -> 0 < m2 ->
     has_shape4 a2 b2 n2 1 q2 = true ->
     has_shape4 a2 b2 m2 1 k2 = true ->
     has_shape4 a2 b2 m2 1 v2 = true ->
     1 = n2 \/ 1 = 1 -> 1 = m2 \/ 1 = 1 ->
     exists ctx2,
       attention_probs (set_causal_mask core_seq1 (tril_mask 1 1)) q2 k2
       = Ok (tab4 a2 b2 n2 m2
               (cached_weight 1 (where_const core_seq1) 1 1 q2 k2 m2)) /\
       AttentionCore_forward (set_causal_mask core_seq1 (tril_mask 1 1)) q2 k2 v2 g2
       = Ret ((ctx2, set_causal_mask core_seq1 (tril_mask 1 1)),
              dropout_state (attention_dropout core_seq1) g2 (a2 * b2 * n2 * m2)) /\
       has_shape3 a2 n2 (b2 * 1) ctx2 = true /\
       forall i j h e, i < a2 -> j < n2 -> h < b2 -> e < 1 ->
         at3 ctx2 i j (h * 1 + e)
         = sum (tab m2 (fun l =>
             (dropout_entry (attention_dropout core_seq1) g2
                (((i * b2 + h) * n2 + j) * m2 + l)
                (cached_weight 1 (where_const core_seq1) 1 1 q2 k2 m2 i h j l)
              * at4 v2 i h l e)%R))).
Proof.
  apply (causal_mask_cached_once core_seq1 seq2_q seq2_q seq2_v gen0
           1 1 2 2 1 1 1);
    try lia; try reflexivity.
  right. split; [reflexivity |]. split; right; reflexivity.
Defined.

(** ** [AttentionCore.forward] with its dropout, entry by entry *)

(** C6 (as amended).  For query, key and value of shape
    [batch, num_heads_local, sequence, attention_head_size] and an instance
    whose mask cache is empty or holds the mask of this sequence length,
    [AttentionCore.forward] returns.  The attention weights are the softmax,
    over the key axis, of the products of query and key rows divided by
    [sqrt attention_head_size], with the fill value at the masked
    positions; the weights go through dropout, entry by entry in row-major
    order (kept and divided by [1 - p], or zeroed, by the samples of the
    generator, which advances by one sample per entry; unchanged when the
    module does not sample); the context has shape
    [batch, sequence, num_heads_local * attention_head_size], and its entry
    [h * attention_head_size + e] at a position is the product of the
    dropped weights of head [h] with column [e] of the values of head [h]:
    head and head-size axes are merged into one feature axis. *)
Theorem AttentionCore_forward_spec self q k v g b nh s hs :
  0 < b -> 0 < nh -> 0 < s -> 0 < hs ->
  hs = attention_head_size self ->
  has_shape4 b nh s hs q = true ->
  has_shape4 b nh s hs k = true ->
  has_shape4 b nh s hs v = true ->
  causal_mask self = None \/ causal_mask self = Some (tril_mask s s) ->
  exists y ctx,
    attention_probs self q k
    = Ok (tab4 b nh s s (attention_weight hs (where_const self) q k s)) /\
    y = tab4 b nh s s (fun i h r l =>
          dropout_entry (attention_dropout self) g (((i * nh + h) * s + r) * s + l)
            (attention_weight hs (where_const self) q k s i h r l)) /\
    Dropout_forward4 (attention_dropout self)
      (tab4 b nh s s (attention_weight hs (where_const self) q k s)) g
    = Ret (y, dropout_state (attention_dropout self) g (b * nh * s * s)) /\
    has_shape4 b nh s s y = true /\
    AttentionCore_forward self q k v g
    = Ret ((ctx, set_causal_mask self (tril_mask s s)),
           dropout_state (attention_dropout self) g (b * nh * s * s)) /\
    has_shape3 b s (nh * hs) ctx = true /\
    forall i r h e, i < b -> r < s -> h < nh -> e < hs ->
      at3 ctx i r (h * hs + e)
      = sum (tab s (fun l => (at4 y i h r l * at4 v i h l e)%R)).
Proof.
  intros Hb Hnh Hs Hhs Heq Hq Hk Hv Hm.
  pose proof (attention_probs_shaped self q k b nh s s hs
                Hb Hnh Hs Hs Hhs Hq Hk Hm Heq) as Hp.
  pose proof (Dropout_forward4_tab (attention_dropout self) b nh s s
                (attention_weight hs (where_const self) q k s) g) as Hd.
  eexists. eexists. split; [exact Hp |]. split; [reflexivity |].
  split; [exact Hd |]. split; [apply has_shape4_tab |].
  assert (Hfw : AttentionCore_forward self q k v g
                = Ret ((merge_last (transpose_12
                          (tab4 b nh s hs (fun i j r l =>
                             dot (tab s (fun l' =>
                                    dropout_entry (attention_dropout self) g
                                      (((i * nh + j) * s + r) * s + l')
                                      (attention_weight hs (where_const self)
                                         q k s i j r l')))
                                 (tab s (fun e => at4 v i j e l))))),
                        set_causal_mask self (tril_mask s s)),
                       dropout_state (attention_dropout self) g (b * nh * s * s))).
  { unfold AttentionCore_forward, bind. rewrite Hp.
    cbn [lift ret pbind fst snd].
    change (attention_dropout (set_causal_mask self (mask_of self q k)))
      with (attention_dropout self).
    rewrite Hd. cbn [pbind fst snd].
    rewrite (shape4_tab _ _ _ _ _ Hv) at 1.
    rewrite matmul_tab4 by assumption. cbn [lift ret pbind fst snd].
    now rewrite (mask_of_fresh self q k b nh s s hs Hb Hnh Hq Hk Hm). }
  split; [exact Hfw |].
  rewrite transpose_12_tab4, merge_last_tab4 by assumption.
  split; [apply has_shape3_tab |].
  intros i r h e Hi Hr Hh He.
  rewrite at3_tab by (try assumption; nia).
  assert (E1 : (h * hs + e) / hs = h)
    by (rewrite Nat.div_add_l, Nat.div_small by lia; lia).
  assert (E2 : (h * hs + e) mod hs = e)
    by (rewrite Nat.add_comm, Nat.Div0.mod_add; apply Nat.mod_small; lia).
  rewrite E1, E2, dot_tab. apply sum_tab_ext. intros l Hl.
  now rewrite at4_tab.
Qed.

Lemma AttentionCore_forward_spec_witness :
  exists y ctx,
    attention_probs core_1 seq2_q seq2_q
    = Ok (tab4 1 1 2 2 (attention_weight 1 (where_const core_1) seq2_q seq2_q 2)) /\
    y = tab4 1 1 2 2 (fun i h r l =>
          dropout_entry (attention_dropout core_1) gen0
            (((i * 1 + h) * 2 + r) * 2 + l)
            (attention_weight 1 (where_const core_1) seq2_q seq2_q 2 i h r l)) /\
    Dropout_forward4 (attention_dropout core_1)
      (tab4 1 1 2 2 (attention_weight 1 (where_const core_1) seq2_q seq2_q 2)) gen0
    = Ret (y, dropout_state (attention_dropout core_1) gen0 (1 * 1 * 2 * 2)) /\
    has_shape4 1 1 2 2 y = true /\
    AttentionCore_forward core_1 seq2_q seq2_q seq2_v gen0
    = Ret ((ctx, set_causal_mask core_1 (tril_mask 2 2)),
           dropout_state (attention_dropout core_1) gen0 (1 * 1 * 2 * 2)) /\
    has_shape3 1 2 (1 * 1) ctx = true /\
    forall i r h e, i < 1 -> r < 2 -> h < 1 -> e < 1 ->
      at3 ctx i r (h * 1 + e)
      = sum (tab 2 (fun l => (at4 y i h r l * at4 seq2_v i h l e)%R)).
Proof.
  apply (AttentionCore_forward_spec core_1 seq2_q seq2_q seq2_v gen0 1 1 2 1);
    try lia; try reflexivity.
  left. reflexivity.
Defined.

(** An instance that has served sequence length 2 raises on query, key
    and value of shape [[1, 1, 3, 1]], its own head size: the cached mask
    of 2 by 2 positions does not broadcast against scores of 3 by 3. *)
Lemma AttentionCore_forward_cache_rejects :
  (exists ctx,
     AttentionCore_forward core_1 seq2_q seq2_q seq2_v gen0
     = Ret ((ctx, core_seq2), gen0)) /\
  attention_head_size core_seq2 = 1 /\
  has_shape4 1 1 3 1 seq3_q = true /\
  AttentionCore_forward core_seq2 seq3_q seq3_q seq3_q gen0 = Raise RuntimeError.
Proof.
  split; [| split; [reflexivity | split; [reflexivity |]]].
  - eexists. unfold AttentionCore_forward; cbn -[F_dropout];
      rewrite Dropout_forward4_zero by reflexivity; cbn. reflexivity.
  - unfold AttentionCore_forward. cbn. reflexivity.
Qed.

(** ** The residual sums of a block *)

Lemma pbind_ret_r {A} (pr : Proc A) : pbind pr (fun a => Ret a) = pr.
Proof.
  induction pr as [a | e | op t k IH]; simpl; try reflexivity.
  f_equal. apply functional_extensionality. exact IH.
Qed.

(** C5.  [GPTLayer.forward] is the pre-norm residual composition.
    Whatever the input, the collectives' answers and the generator state,
    it returns [x2 = x1 + FeedForward(Normalize2(x1))] with
    [x1 = x + SelfAttention(Normalize1(x))], next to the block whose
    attention sublayer is the one [SelfAttention] returned, and raises
    where one of these steps raises.  And on a group with a valid head
    configuration, for an input [x] of shape [[b, s, dim]]: with [n1] the
    layer norm of [x] (mean and biased variance over the hidden axis,
    [eps = 1e-6], weight and bias), [a] what the ranks return from
    [SelfAttention] at [n1], [x1] the entrywise sum of [x] and [a], [n2]
    the layer norm of [x1] and [m] what the ranks return from
    [FeedForward] at [n2], every rank returns from [GPTLayer.forward] the
    entrywise sum of [x1] and [m]. *)
Theorem GPTLayer_forward_prenorm ws dim nh ratio d b s ps x g :
  (forall comm self x0 g0,
     exec comm (GPTLayer_forward self x0 g0)
     = rbind (LayerNorm_forward (norm1 self) x0) (fun n1 =>
       rbind (exec comm (SelfAttention_forward (attn self) n1 g0)) (fun ag1 =>
       rbind (add x0 (fst (fst ag1))) (fun x1 =>
       rbind (LayerNorm_forward (norm2 self) x1) (fun n2 =>
       rbind (exec comm (FeedForward_forward (mlp self) n2 (snd ag1))) (fun mg2 =>
       rbind (add x1 (fst mg2)) (fun x2 =>
       Ok ((x2, set_attn self (snd (fst ag1))), snd mg2)))))))) /\
  (0 < ws -> 0 < dim -> 0 < nh -> 0 < ratio -> 0 < b -> 0 < s ->
   dim mod nh = 0 -> nh mod ws = 0 ->
   (0 <= d <= 1)%R ->
   has_shape3 b s dim x = true ->
   block_params_shaped dim (dim * ratio) ps = true ->
   exists layers n1 a g1 x1 n2 m,
     (forall r, r < ws ->
        GPTLayer_init (mkWorld ws r) dim nh (Some ratio) 0 d ps
        = Ok (layers r)) /\
     LayerNorm_forward (mkLayerNorm dim (/ 1000000) (norm1_weight ps)
                          (norm1_bias ps)) x = Ok n1 /\
     n1 = tab3 b s dim
            (norm_out dim (/ 1000000) (norm1_weight ps) (norm1_bias ps) x) /\
     run_ranks (tab ws (fun r => SelfAttention_forward (attn (layers r)) n1 g))
     = Ok (tab ws (fun r => ((a, attn (with_mask s (layers r))), g1))) /\
     has_shape3 b s dim a = true /\
     x1 = tab3 b s dim (fun i j o => (at3 x i j o + at3 a i j o)%R) /\
     LayerNorm_forward (mkLayerNorm dim (/ 1000000) (norm2_weight ps)
                          (norm2_bias ps)) x1 = Ok n2 /\
     n2 = tab3 b s dim
            (norm_out dim (/ 1000000) (norm2_weight ps) (norm2_bias ps) x1) /\
     run_ranks (tab ws (fun r => FeedForward_forward (mlp (layers r)) n2 g1))
     = Ok (tab ws (fun _ => (m, g1))) /\
     has_shape3 b s dim m = true /\
     run_ranks (tab ws (fun r => GPTLayer_forward (layers r) x g))
     = Ok (tab ws (fun r =>
         ((tab3 b s dim (fun i j o => (at3 x1 i j o + at3 m i j o)%R),
           with_mask s (layers r)), g1)))).
Proof.
  split.
  - intros comm self x0 g0.
    unfold GPTLayer_forward. rewrite exec_bind.
    destruct (LayerNorm_forward (norm1 self) x0) as [n1 | e]; [| reflexivity].
    cbn [lift ret exec rbind fst snd]. rewrite exec_bind.
    destruct (exec comm (SelfAttention_forward (attn self) n1 g0))
      as [[[a sa'] g1] | e]; [| reflexivity].
    cbn [rbind fst snd]. rewrite exec_bind.
    destruct (add x0 a) as [x1 | e]; [| reflexivity].
    cbn [lift ret exec rbind fst snd]. rewrite exec_bind.
    cbn [norm2 mlp set_attn].
    destruct (LayerNorm_forward (norm2 self) x1) as [n2 | e]; [| reflexivity].
    cbn [lift ret exec rbind fst snd]. rewrite exec_bind.
    destruct (exec comm (FeedForward_forward (mlp self) n2 g1))
      as [[m g2] | e]; [| reflexivity].
    cbn [rbind fst snd]. rewrite exec_bind.
    destruct (add x1 m) as [x2 | e]; reflexivity.
  - intros Hws Hdim Hnh Hratio Hb Hs Hdn Hnw Hd Hx Hps.
    apply Nat.Div0.mod_divides in Hdn as [hs Hhs].
    apply Nat.Div0.mod_divides in Hnw as [nhl Hnhl].
    assert (Hhs0 : 0 < hs) by nia.
    assert (Hnhl0 : 0 < nhl) by nia.
    assert (Hdim' : dim = ws * (nhl * hs)) by (rewrite Hhs, Hnhl; ring).
    destruct (GPTLayer_group_init ws nhl hs dim nh ratio d ps
                Hws Hnhl0 Hhs0 Hdim' Hnhl Hd) as [layers Hlayers].
    pose proof Hps as Hps'.
    apply block_params_shaped_inv in Hps'
      as (Hw1 & Hb1 & Hw2 & Hb2 & Haps & Hfps).
    assert (Hl : forall r, r < ws ->
              SelfAttention_init (mkWorld ws r) dim nh 0 d (attn_params ps)
              = Ok (attn (layers r)) /\
              FeedForward_init (mkWorld ws r) dim (Some ratio) (mlp_params ps)
              = Ok (mlp (layers r))).
    { intros r Hr.
      destruct (GPTLayer_init_ok (mkWorld ws r) dim nh (Some ratio) 0 d ps)
        as (sa & ff & Hsa & Hff & Hi);
        [lia
        | rewrite Hdim'; simpl; rewrite Nat.mul_comm; apply Nat.Div0.mod_mul
        | lra | assumption |].
      rewrite (Hlayers r Hr) in Hi. injection Hi as ->. simpl. auto. }
    set (n1 := tab3 b s dim
                 (norm_out dim (/ 1000000) (norm1_weight ps) (norm1_bias ps) x)).
    set (ag := run_dropout3 (mkDropout d true)
                 (tab3 b s dim (attention_out dim hs s n1 (attn_params ps))) g).
    set (x1 := tab3 b s dim (fun i j o => (at3 x i j o + at3 (fst ag) i j o)%R)).
    set (n2 := tab3 b s dim
                 (norm_out dim (/ 1000000) (norm2_weight ps) (norm2_bias ps) x1)).
    set (m := tab3 b s dim
                (mlp_out F_gelu dim (dim * ratio) n2 (mlp_params ps))).
    assert (Hn1 : has_shape3 b s dim n1 = true) by apply has_shape3_tab.
    assert (Hag : has_shape3 b s dim (fst ag) = true)
      by apply run_dropout3_shape, has_shape3_tab.
    assert (Hx1 : has_shape3 b s dim x1 = true) by apply has_shape3_tab.
    assert (Hn2 : has_shape3 b s dim n2 = true) by apply has_shape3_tab.
    exists layers, n1, (fst ag), (snd ag), x1, n2, m.
    split; [exact Hlayers |].
    split; [now apply (LayerNorm_forward_tab b s) |].
    split; [reflexivity |].
    split.
    { rewrite (tab_ext ws _ (fun r =>
                 pbind (SelfAttention_forward (attn (layers r)) n1 g)
                   (fun a => Ret a)))
        by (intros r _; now rewrite pbind_ret_r).
      rewrite (SelfAttention_group ws nhl hs dim nh b s n1
                 Hnhl0 Hhs0 Hb Hs Hdim' Hnhl Hn1 (attn_params ps) d
                 (fun _ => g) (fun r => attn (layers r)) (fun _ a => Ret a)
                 Hd Haps (fun r Hr => proj1 (Hl r Hr))).
      apply run_ranks_ret. }
    split; [exact Hag |].
    split; [reflexivity |].
    split; [now apply (LayerNorm_forward_tab b s) |].
    split; [reflexivity |].
    split.
    { rewrite (tab_ext ws _ (fun r =>
                 pbind (FeedForward_forward (mlp (layers r)) n2 (snd ag))
                   (fun a => Ret a)))
        by (intros r _; now rewrite pbind_ret_r).
      rewrite (FeedForward_group ws (nhl * hs * ratio) dim ratio b s n2
                 (mlp_params ps) (fun _ => snd ag) (fun r => mlp (layers r))
                 (fun _ a => Ret a));
        try assumption; try nia.
      - apply run_ranks_ret.
      - intros r Hr. apply (proj2 (Hl r Hr)). }
    split; [apply has_shape3_tab |].
    rewrite (tab_ext ws _ (fun r =>
               pbind (GPTLayer_forward (layers r) x g) (fun a => Ret a)))
      by (intros r _; now rewrite pbind_ret_r).
    rewrite (GPTLayer_group ws nhl hs dim nh ratio d b s x ps g layers
               (fun _ a => Ret a)); try assumption.
    rewrite run_ranks_ret. f_equal. apply tab_ext. intros r _.
    unfold block_out. fold n1. fold ag. fold x1. fold n2.
    cbn [fst snd]. do 2 f_equal.
    apply tab3_ext. intros i j o Hi Hj Ho. unfold m. now rewrite at3_tab.
Qed.

Lemma GPTLayer_forward_prenorm_witness :
  exists layers n1 a g1 x1 n2 m,
    (forall r, r < 2 ->
       GPTLayer_init (mkWorld 2 r) 2 2 (Some 1) 0 0 (const_params 2 2 1%R)
       = Ok (layers r)) /\
    LayerNorm_forward (mkLayerNorm 2 (/ 1000000)
                         (norm1_weight (const_params 2 2 1%R))
                         (norm1_bias (const_params 2 2 1%R))) x_dim2 = Ok n1 /\
    n1 = tab3 1 1 2
           (norm_out 2 (/ 1000000) (norm1_weight (const_params 2 2 1%R))
              (norm1_bias (const_params 2 2 1%R)) x_dim2) /\
    run_ranks (tab 2 (fun r => SelfAttention_forward (attn (layers r)) n1 gen0))
    = Ok (tab 2 (fun r => ((a, attn (with_mask 1 (layers r))), g1))) /\
    has_shape3 1 1 2 a = true /\
    x1 = tab3 1 1 2 (fun i j o => (at3 x_dim2 i j o + at3 a i j o)%R) /\
    LayerNorm_forward (mkLayerNorm 2 (/ 1000000)
                         (norm2_weight (const_params 2 2 1%R))
                         (norm2_bias (const_params 2 2 1%R))) x1 = Ok n2 /\
    n2 = tab3 1 1 2
           (norm_out 2 (/ 1000000) (norm2_weight (const_params 2 2 1%R))
              (norm2_bias (const_params 2 2 1%R)) x1) /\
    run_ranks (tab 2 (fun r => FeedForward_forward (mlp (layers r)) n2 g1))
    = Ok (tab 2 (fun _ => (m, g1))) /\
    has_shape3 1 1 2 m = true /\
    run_ranks (tab 2 (fun r => GPTLayer_forward (layers r) x_dim2 gen0))
    = Ok (tab 2 (fun r =>
        ((tab3 1 1 2 (fun i j o => (at3 x1 i j o + at3 m i j o)%R),
          with_mask 1 (layers r)), g1))).
Proof.
  apply (proj2 (GPTLayer_forward_prenorm 2 2 2 1 0 1 1 (const_params 2 2 1%R)
                  x_dim2 gen0)); try lia; try reflexivity; try lra.
Defined.

(** ** The activation, pinned *)

Lemma Phi_0 : Phi 0 = (1 / 2)%R.
Proof. unfold Phi. rewrite RiemannInt_P9. ring. Qed.

Lemma gauss_continuous x : continuity_pt gauss x.
Proof. apply derivable_continuous_pt. unfold gauss. reg. Qed.

(** The derivative of [Phi] is the density of the standard normal law. *)
Lemma Phi_derivative x :
  derivable_pt_lim Phi x (exp (- (x * x) / 2) / sqrt (2 * PI))%R.
Proof.
  assert (Hsq : (0 < sqrt (2 * PI))%R).
  { apply sqrt_lt_R0. pose proof PI_RGT_0. lra. }
  pose proof (Rabs_pos x) as Hx0.
  pose proof (Rle_abs x) as Hx1.
  pose proof (Rle_abs (- x)) as Hx2. rewrite Rabs_Ropp in Hx2.
  set (a := (- (Rabs x + 1))%R). set (b := (Rabs x + 1)%R).
  assert (h : (a <= b)%R) by (unfold a, b; lra).
  assert (C0 : forall t, (a <= t <= b)%R -> continuity_pt gauss t)
    by (intros t _; apply gauss_continuous).
  apply (derivable_pt_lim_locally_ext
           (fct_cte (1 / 2)
            + mult_real_fct (/ sqrt (2 * PI))
                (primitive h (FTC_P1 h C0)
                 - fct_cte (RiemannInt (gauss_integrable a 0))))%F
           Phi x a b).
  - unfold a, b. lra.
  - intros z Hz.
    unfold plus_fct, mult_real_fct, minus_fct, fct_cte, primitive, Phi.
    destruct (Rle_dec a z) as [r1 | n1]; [| lra].
    destruct (Rle_dec z b) as [r2 | n2]; [| lra].
    pose proof (RiemannInt_P26 (gauss_integrable a 0) (gauss_integrable 0 z)
                  (FTC_P1 h C0 r1 r2)) as H26.
    rewrite <- H26. ring.
  - replace (exp (- (x * x) / 2) / sqrt (2 * PI))%R
      with (0 + / sqrt (2 * PI) * (gauss x - 0))%R
      by (unfold gauss; field; lra).
    apply derivable_pt_lim_plus; [apply derivable_pt_lim_const |].
    apply derivable_pt_lim_scal.
    apply derivable_pt_lim_minus; [| apply derivable_pt_lim_const].
    apply RiemannInt_P27. unfold a, b. lra.
Qed.

(** C8.  [FeedForward] is wired as a column-sharded expansion to
    [hidden_size * ratio] features that does not gather its output and a
    row-sharded contraction whose input is already sharded, the ratio
    defaulting to 4.  Its forward pass computes the local slice of width
    [hidden_size * ratio / world_size] of the expanded intermediate without
    a collective, applies GELU to that slice entry by entry, multiplies it
    with the local slice of the contraction weight, and issues one
    all-reduce of the partial products, to which the bias is added.  GELU
    is [t * Phi t], where [Phi] is the function with [Phi 0 = 1/2] and the
    derivative [exp (- t^2 / 2) / sqrt (2 pi)], the distribution function
    of the standard normal law. *)
Theorem FeedForward_sharded ws r cf dim ratio b s x ps g :
  r < ws -> 0 < cf -> 0 < dim -> 0 < b -> 0 < s ->
  dim * ratio = ws * cf ->
  has_shape3 b s dim x = true ->
  mlp_params_shaped dim (dim * ratio) ps = true ->
  FeedForward_init (mkWorld ws r) dim None ps
  = FeedForward_init (mkWorld ws r) dim (Some 4) ps /\
  (forall t, F_gelu t = (t * Phi t)%R) /\
  Phi 0 = (1 / 2)%R /\
  (forall t, derivable_pt_lim Phi t (exp (- (t * t) / 2) / sqrt (2 * PI))%R) /\
  exists ff h partial Kont,
    FeedForward_init (mkWorld ws r) dim (Some ratio) ps = Ok ff /\
    ffn_hidden_size ff = dim * ratio /\
    col_in_features (dense_h_to_4h ff) = dim /\
    col_out_features (dense_h_to_4h ff) = dim * ratio /\
    col_gather_output (dense_h_to_4h ff) = false /\
    row_in_features (dense_4h_to_h ff) = dim * ratio /\
    row_out_features (dense_4h_to_h ff) = dim /\
    row_input_is_parallel (dense_4h_to_h ff) = true /\
    ColumnParallelLinear_forward (dense_h_to_4h ff) x g = Ret (h, g) /\
    has_shape3 b s (dim * ratio / ws) h = true /\
    (forall i j f, i < b -> j < s -> f < dim * ratio / ws ->
       at3 h i j f
       = projection dim x (h_to_4h_weight ps) (h_to_4h_bias ps) i j
           (r * (dim * ratio / ws) + f)) /\
    activation_func ff = F_gelu /\
    F_linear (map3 F_gelu h) (row_weight (dense_4h_to_h ff)) None = Ok partial /\
    has_shape3 b s dim partial = true /\
    (forall i j o, i < b -> j < s -> o < dim ->
       at3 partial i j o
       = sum (tab (dim * ratio / ws) (fun f =>
           (F_gelu (at3 h i j f)
            * at2 (w_4h_to_h_weight ps) o (r * (dim * ratio / ws) + f))%R))) /\
    FeedForward_forward ff x g = Coll AllReduce partial Kont /\
    forall t, has_shape3 b s dim t = true ->
      Kont t
      = Ret (tab3 b s dim (fun i j o =>
               (at3 t i j o + at1 (w_4h_to_h_bias ps) o)%R), g).
Proof.
  intros Hr Hcf Hdim Hb Hs Hffn Hx Hps.
  split; [reflexivity |].
  split; [reflexivity |].
  split; [exact Phi_0 |].
  split; [exact Phi_derivative |].
  assert (Hws : 0 < ws) by lia.
  assert (Hc : dim * ratio / ws = cf)
    by (rewrite Hffn, Nat.mul_comm; apply Nat.div_mul; lia).
  rewrite FeedForward_init_ok; simpl world_size; simpl rank;
    [| rewrite Hffn, Nat.mul_comm; apply Nat.Div0.mod_mul].
  apply mlp_params_shaped_inv in Hps as (HW1 & Hb1 & HW2 & Hb2).
  pose proof (shape3_tab _ _ _ _ Hx) as Hxt.
  rewrite Hc. rewrite Hffn in HW1, Hb1, HW2 |- *.
  assert (Hcol : ColumnParallelLinear_forward
                   (mkColumnParallelLinear dim (ws * cf) false
                      (chunk cf r (h_to_4h_weight ps))
                      (chunk cf r (h_to_4h_bias ps))) x g
                 = Ret (tab3 b s cf (fun i j l =>
                          projection dim x (h_to_4h_weight ps) (h_to_4h_bias ps)
                            i j (r * cf + l)), g)).
  { rewrite Hxt, HW1, Hb1 at 1.
    now apply (ColumnParallelLinear_forward_shard ws r cf). }
  assert (Hlin : F_linear
                   (map3 F_gelu
                      (tab3 b s cf (fun i j l =>
                         projection dim x (h_to_4h_weight ps) (h_to_4h_bias ps)
                           i j (r * cf + l))))
                   (map (chunk cf r) (w_4h_to_h_weight ps)) None
                 = Ok (tab3 b s dim (fun i j o =>
                         dot (tab cf (fun f =>
                                F_gelu (projection dim x (h_to_4h_weight ps)
                                          (h_to_4h_bias ps) i j (r * cf + f))))
                             (tab cf (fun f =>
                                at2 (w_4h_to_h_weight ps) o (r * cf + f)))))).
  { rewrite map3_tab3. rewrite HW2 at 1.
    assert (HW : map (chunk cf r) (tab2 dim (ws * cf) (at2 (w_4h_to_h_weight ps)))
                 = tab2 dim cf (fun l f => at2 (w_4h_to_h_weight ps) l (r * cf + f))).
    { unfold tab2. rewrite map_tab. apply tab_ext. intros l _.
      apply chunk_tab. nia. }
    rewrite HW. now apply F_linear_tab_nobias. }
  eexists.
  exists (tab3 b s cf (fun i j l =>
            projection dim x (h_to_4h_weight ps) (h_to_4h_bias ps) i j (r * cf + l))).
  exists (tab3 b s dim (fun i j o =>
            dot (tab cf (fun f =>
                   F_gelu (projection dim x (h_to_4h_weight ps)
                             (h_to_4h_bias ps) i j (r * cf + f))))
                (tab cf (fun f => at2 (w_4h_to_h_weight ps) o (r * cf + f))))).
  exists (fun t => pbind (lift (add_bias t (w_4h_to_h_bias ps)) g)
                     (fun ag => Ret (fst ag, snd ag))).
  split; [reflexivity |].
  cbn [ffn_hidden_size dense_h_to_4h dense_4h_to_h col_in_features
         col_out_features col_gather_output row_in_features row_out_features
         row_input_is_parallel row_weight].
  do 7 (split; [reflexivity |]).
  split; [exact Hcol |]. split; [apply has_shape3_tab |].
  split; [intros i j f Hi Hj Hf; now rewrite at3_tab |].
  split; [reflexivity |].
  split; [exact Hlin |]. split; [apply has_shape3_tab |].
  split.
  { intros i j o Hi Hj Ho. rewrite at3_tab, dot_tab by assumption.
    apply sum_tab_ext. intros f Hf. now rewrite at3_tab. }
  split.
  - unfold FeedForward_forward, bind.
    cbn [dense_h_to_4h dense_4h_to_h activation_func].
    rewrite Hcol. cbn [pbind fst snd].
    unfold RowParallelLinear_forward, bind.
    cbn [row_weight row_bias row_input_is_parallel row_world].
    rewrite Hlin. reflexivity.
  - intros t Ht. rewrite (shape3_tab _ _ _ _ Ht) at 1.
    rewrite Hb2 at 1. rewrite add_bias_tab by assumption. reflexivity.
Qed.


Lemma FeedForward_sharded_witness :
  FeedForward_init (mkWorld 2 1) 2 None (ones_mlp 2 2)
  = FeedForward_init (mkWorld 2 1) 2 (Some 4) (ones_mlp 2 2) /\
  (forall t, F_gelu t = (t * Phi t)%R) /\
  Phi 0 = (1 / 2)%R /\
  (forall t, derivable_pt_lim Phi t (exp (- (t * t) / 2) / sqrt (2 * PI))%R) /\
  exists ff h partial Kont,
    FeedForward_init (mkWorld 2 1) 2 (Some 1) (ones_mlp 2 2) = Ok ff /\
    ffn_hidden_size ff = 2 * 1 /\
    col_in_features (dense_h_to_4h ff) = 2 /\
    col_out_features (dense_h_to_4h ff) = 2 * 1 /\
    col_gather_output (dense_h_to_4h ff) = false /\
    row_in_features (dense_4h_to_h ff) = 2 * 1 /\
    row_out_features (dense_4h_to_h ff) = 2 /\
    row_input_is_parallel (dense_4h_to_h ff) = true /\
    ColumnParallelLinear_forward (dense_h_to_4h ff) x_dim2 gen0 = Ret (h, gen0) /\
    has_shape3 1 1 (2 * 1 / 2) h = true /\
    (forall i j f, i < 1 -> j < 1 -> f < 2 * 1 / 2 ->
       at3 h i j f
       = projection 2 x_dim2 (h_to_4h_weight (ones_mlp 2 2))
           (h_to_4h_bias (ones_mlp 2 2)) i j (1 * (2 * 1 / 2) + f)) /\
    activation_func ff = F_gelu /\
    F_linear (map3 F_gelu h) (row_weight (dense_4h_to_h ff)) None = Ok partial /\
    has_shape3 1 1 2 partial = true /\
    (forall i j o, i < 1 -> j < 1 -> o < 2 ->
       at3 partial i j o
       = sum (tab (2 * 1 / 2) (fun f =>
           (F_gelu (at3 h i j f)
            * at2 (w_4h_to_h_weight (ones_mlp 2 2)) o (1 * (2 * 1 / 2) + f))%R))) /\
    FeedForward_forward ff x_dim2 gen0 = Coll AllReduce partial Kont /\
    forall t, has_shape3 1 1 2 t = true ->
      Kont t
      = Ret (tab3 1 1 2 (fun i j o =>
               (at3 t i j o + at1 (w_4h_to_h_bias (ones_mlp 2 2)) o)%R), gen0).
Proof.
  apply (FeedForward_sharded 2 1 1 2 1 1 1 x_dim2 (ones_mlp 2 2) gen0);
    try lia; reflexivity.
Defined.
